(** * Delayed-dispatch web application

    A shallow embedding of [delay_webapp_cloud.py]: the order-ID form
    parsing, the credential sheet loader, the token issuer, the account
    prober, the concurrent locator, the delay-reason classifier, the
    dispatch-delay executor and the per-order processing loop.

    Python strings are sequences of Unicode code points; the external
    services (HTTP, the clock, the thread pool's scheduler, bcrypt, the
    sheet API) are explicit parameters of the model. *)

From Stdlib Require Import String Ascii DecimalString Floats.
From Stdlib Require Import List ZArith NArith Lia Bool Permutation.
Import ListNotations.

Set Implicit Arguments.
Set Warnings "-register-all".

(** ** Python strings *)

(** A [str] is a sequence of code points. *)
Definition pystr : Type := list N.

(** Decoding of a UTF-8 byte sequence, used to write the source's string
    literals as they stand in the source file. *)
Fixpoint utf8_decode (bs : list N) : pystr :=
  match bs with
  | [] => []
  | b :: r =>
    if (b <? 128)%N then b :: utf8_decode r
    else if (b <? 224)%N then
      match r with
      | c1 :: r1 => ((b - 192) * 64 + (c1 - 128))%N :: utf8_decode r1
      | _ => []
      end
    else if (b <? 240)%N then
      match r with
      | c1 :: c2 :: r2 =>
        ((b - 224) * 4096 + (c1 - 128) * 64 + (c2 - 128))%N :: utf8_decode r2
      | _ => []
      end
    else
      match r with
      | c1 :: c2 :: c3 :: r3 =>
        ((b - 240) * 262144 + (c1 - 128) * 4096 + (c2 - 128) * 64 + (c3 - 128))%N
          :: utf8_decode r3
      | _ => []
      end
  end.

(** A string literal of the source. *)
Definition u (s : string) : pystr :=
  utf8_decode (map N_of_ascii (list_ascii_of_string s)).

(** [str(n)] for an [int]. *)
Definition str_int (z : Z) : pystr :=
  map N_of_ascii (list_ascii_of_string (NilZero.string_of_int (Z.to_int z))).

(** [bool(s)] for a [str]. *)
Definition truthy_str (s : pystr) : bool :=
  match s with [] => false | _ :: _ => true end.

Fixpoint starts_with (p s : pystr) : bool :=
  match p, s with
  | [], _ => true
  | _ :: _, [] => false
  | a :: p', b :: s' => (a =? b)%N && starts_with p' s'
  end.

(** [sub in s]: substring membership. *)
Fixpoint py_in (sub s : pystr) : bool :=
  starts_with sub s ||
  match s with
  | [] => false
  | _ :: s' => py_in sub s'
  end.

(** Substring containment as a proposition. *)
Definition Substring (sub s : pystr) : Prop :=
  exists pre post, s = pre ++ sub ++ post.

(** [c.isspace()] for one code point: the characters [str.strip()] removes. *)
Definition py_isspace (c : N) : bool :=
  ((9 <=? c) && (c <=? 13) || (28 <=? c) && (c <=? 32) || (c =? 133)
   || (c =? 160) || (c =? 5760) || (8192 <=? c) && (c <=? 8202)
   || (c =? 8232) || (c =? 8233) || (c =? 8239) || (c =? 8287)
   || (c =? 12288))%N.

Fixpoint lstrip (s : pystr) : pystr :=
  match s with
  | [] => []
  | c :: s' => if py_isspace c then lstrip s' else s
  end.

Definition rstrip (s : pystr) : pystr := rev (lstrip (rev s)).

(** [s.strip()]. *)
Definition strip (s : pystr) : pystr := rstrip (lstrip s).

(** The source's helper [S], at the type [str] it is called at: the value is
    never [None] there and [str(v)] is [v]. *)
Definition S_str (v : pystr) : pystr := strip v.

Definition comma : N := 44%N.
Definition newline : N := 10%N.

(** [s.replace(old, new)] for one-character [old] and [new]. *)
Definition replace_char (old new : N) (s : pystr) : pystr :=
  map (fun c => if (c =? old)%N then new else c) s.

(** [s.split(sep)] for a one-character separator. *)
Fixpoint split_on (sep : N) (s : pystr) : list pystr :=
  match s with
  | [] => [[]]
  | c :: s' =>
    if (c =? sep)%N then [] :: split_on sep s'
    else match split_on sep s' with
         | [] => [[c]]
         | seg :: segs => (c :: seg) :: segs
         end
  end.

(** ** The order-ID form field ([main_app]) *)

(** [[S(x) for x in order_input.replace(",", "\n").split("\n") if S(x)]],
    the comprehension written as the loop it is. *)
Definition order_ids (order_input : pystr) : list pystr :=
  fold_left
    (fun acc x => if truthy_str (S_str x) then acc ++ [S_str x] else acc)
    (split_on newline (replace_char comma newline order_input))
    [].

(** ** The delay-reason classifier *)

Definition get_delay_reason_code (delay_reason : pystr) : pystr :=
  if py_in (u "해외") delay_reason || py_in (u "현지") delay_reason
     || py_in (u "배송중") delay_reason
  then u "OVERSEA_DELIVERY"
  else if py_in (u "주문제작") delay_reason || py_in (u "제작") delay_reason
  then u "CUSTOM_BUILD"
  else if py_in (u "예약") delay_reason
  then u "RESERVED_DISPATCH"
  else if py_in (u "고객") delay_reason || py_in (u "구매자") delay_reason
          || py_in (u "요청") delay_reason
  then u "CUSTOMER_REQUEST"
  else if py_in (u "상품") delay_reason || py_in (u "준비") delay_reason
          || py_in (u "재고") delay_reason
  then u "PRODUCT_PREPARE"
  else u "ETC".

(** The classifier as the specification words it: an ordered table of
    (terms, code) rules evaluated top-down, the first rule with a term
    contained in the text wins, [ETC] when none does. *)
Definition rule1_terms : list pystr := [u "해외"; u "현지"; u "배송중"].
Definition rule4_terms : list pystr := [u "고객"; u "구매자"; u "요청"].

Definition rule_table : list (list pystr * pystr) :=
  [ (rule1_terms, u "OVERSEA_DELIVERY");
    ([u "주문제작"; u "제작"], u "CUSTOM_BUILD");
    ([u "예약"], u "RESERVED_DISPATCH");
    (rule4_terms, u "CUSTOMER_REQUEST");
    ([u "상품"; u "준비"; u "재고"], u "PRODUCT_PREPARE") ].

Fixpoint first_match (rules : list (list pystr * pystr)) (text : pystr) : pystr :=
  match rules with
  | [] => u "ETC"
  | (terms, code) :: rest =>
    if existsb (fun t => py_in t text) terms then code
    else first_match rest text
  end.

Definition reason_codes : list pystr :=
  [ u "CUSTOM_BUILD"; u "RESERVED_DISPATCH"; u "ETC"; u "PRODUCT_PREPARE";
    u "OVERSEA_DELIVERY"; u "CUSTOMER_REQUEST" ].

(** ** Python values, exceptions and results *)

(** The values [json] decoding produces; a [dict] keeps its insertion order,
    so it is a list of bindings with distinct keys. *)
Inductive pyval : Type :=
| PNone
| PBool (b : bool)
| PInt (z : Z)
| PFloat (f : float)
| PStr (s : pystr)
| PList (l : list pyval)
| PDict (d : list (pystr * pyval)).

(** [bool(v)]. *)
Definition truthy (v : pyval) : bool :=
  match v with
  | PNone => false
  | PBool b => b
  | PInt z => negb (z =? 0)%Z
  | PFloat f => negb (PrimFloat.eqb f 0%float)
  | PStr s => truthy_str s
  | PList l => match l with [] => false | _ :: _ => true end
  | PDict d => match d with [] => false | _ :: _ => true end
  end.

Fixpoint str_eqb (a b : pystr) : bool :=
  match a, b with
  | [], [] => true
  | x :: a', y :: b' => (x =? y)%N && str_eqb a' b'
  | _, _ => false
  end.

Fixpoint dict_get (d : list (pystr * pyval)) (key : pystr) : option pyval :=
  match d with
  | [] => None
  | (k, v) :: d' => if str_eqb k key then Some v else dict_get d' key
  end.

(** An exception object: its class name and [str(e)]. Every exception of the
    model is an [Exception]. *)
Record pyexc : Type := mkExc { exc_type : pystr; exc_str : pystr }.

(** The outcome of an evaluation: a value or a raised exception. *)
Inductive pyres (A : Type) : Type :=
| Ok (a : A)
| Err (e : pyexc).
Arguments Err {A} e.

Definition bytes : Type := list N.

(** What the interpreter and the libraries outside the repository supply:
    bcrypt's [hashpw], the exceptions the interpreter raises for an operation
    a value does not support, and [str(v)] of a value that is not a [str]. *)
Record Runtime : Type := {
  hashpw : bytes -> bytes -> pyres bytes;
  unicode_error : pystr -> pyexc;
  json_error : pystr -> pyexc;
  attribute_error : pyval -> pystr -> pyexc;
  len_error : pyval -> pyexc;
  subscript_error : pyval -> pyexc;
  str_of : pyval -> pystr
}.

(** [s.encode("utf-8")]: a lone surrogate cannot be encoded. *)
Fixpoint utf8_bytes (s : pystr) : option bytes :=
  match s with
  | [] => Some []
  | c :: s' =>
    match utf8_bytes s' with
    | None => None
    | Some r =>
      if (c <? 128)%N then Some (c :: r)
      else if (c <? 2048)%N then Some ((192 + c / 64) :: (128 + c mod 64) :: r)%N
      else if (55296 <=? c)%N && (c <=? 57343)%N then None
      else if (c <? 65536)%N then
        Some ((224 + c / 4096) :: (128 + (c / 64) mod 64) :: (128 + c mod 64) :: r)%N
      else
        Some ((240 + c / 262144) :: (128 + (c / 4096) mod 64)
                :: (128 + (c / 64) mod 64) :: (128 + c mod 64) :: r)%N
    end
  end.

Definition b64char (n : N) : N :=
  (if n <? 26 then 65 + n
   else if n <? 52 then 97 + (n - 26)
   else if n <? 62 then 48 + (n - 52)
   else if n =? 62 then 43 else 47)%N.

(** [base64.b64encode]. *)
Fixpoint b64encode (bs : bytes) : bytes :=
  match bs with
  | [] => []
  | [a] => [b64char (a / 4); b64char ((a mod 4) * 16); 61; 61]%N
  | [a; b] =>
    [b64char (a / 4); b64char ((a mod 4) * 16 + b / 16);
     b64char ((b mod 16) * 4); 61]%N
  | a :: b :: c :: r =>
    (b64char (a / 4) :: b64char ((a mod 4) * 16 + b / 16)
       :: b64char ((b mod 16) * 4 + c / 64) :: b64char (c mod 64)
       :: b64encode r)%N
  end.

(** ** Requests, responses and programs *)

(** A [requests.post] call: [data=] is the form body, [json=] the JSON body. *)
Record Request : Type := {
  req_url : pystr;
  req_headers : list (pystr * pystr);
  req_data : option pyval;
  req_json : option pyval;
  req_timeout : Z
}.

(** A response object: [r.status_code], [r.text], and what [r.json()]
    returns ([None] when it raises). *)
Record Response : Type := {
  status_code : Z;
  text : pystr;
  json_body : option pyval
}.

(** A program of the source: it returns, raises, reads the clock
    ([int(time.time() * 1000)]) or posts a request, which the network answers
    with a response or an exception. *)
Inductive Prog (A : Type) : Type :=
| Ret (a : A)
| Raise (e : pyexc)
| Clock (k : Z -> Prog A)
| Post (rq : Request) (k : pyres Response -> Prog A).
Arguments Raise {A} e.
Arguments Clock {A} k.
Arguments Post {A} rq k.

Fixpoint bind {A B : Type} (p : Prog A) (f : A -> Prog B) : Prog B :=
  match p with
  | Ret a => f a
  | Raise e => Raise e
  | Clock k => Clock (fun t => bind (k t) f)
  | Post rq k => Post rq (fun r => bind (k r) f)
  end.

Notation "x <- p ;; q" := (bind p (fun x => q))
  (at level 61, p at next level, right associativity).

(** [try: body except ...: handler]. *)
Fixpoint try_except {A : Type} (body : Prog A) (handler : pyexc -> Prog A) : Prog A :=
  match body with
  | Ret a => Ret a
  | Raise e => handler e
  | Clock k => Clock (fun t => try_except (k t) handler)
  | Post rq k => Post rq (fun r => try_except (k r) handler)
  end.

Definition lift {A : Type} (r : pyres A) : Prog A :=
  match r with
  | Ok a => Ret a
  | Err e => Raise e
  end.

Definition requests_post (rq : Request) : Prog Response := Post rq (fun r => lift r).

Definition API_HOST : pystr := u "https://api.commerce.naver.com".
Definition TOKEN_URL : pystr := API_HOST ++ u "/external/v1/oauth2/token".
Definition REQUEST_TIMEOUT : Z := 30.
Definition MAX_WORKERS : nat := 20.
Definition STORES_SHEET : pystr := u "마켓정보".

Record Market : Type := {
  store_name : pystr;
  client_id : pystr;
  client_secret : pystr
}.

(** The dictionary [check_order_in_market] returns when it finds the order. *)
Record LocateResult : Type := {
  market : Market;
  token : pyval;
  order_data : pyval
}.

(** The dictionary [execute_delay_dispatch] returns. *)
Record DelayOutcome : Type := {
  success : bool;
  message : pystr
}.

(** ** The functions of the source *)

Section Model.

Variable rt : Runtime.

(** [s.encode("utf-8")]. *)
Definition encode_utf8 (s : pystr) : pyres bytes :=
  match utf8_bytes s with
  | Some b => Ok b
  | None => Err (unicode_error rt s)
  end.

(** [v.get(key, default)]: only a [dict] has the method. *)
Definition py_get (v : pyval) (key : pystr) (default : pyval) : pyres pyval :=
  match v with
  | PDict d =>
    Ok (match dict_get d key with Some x => x | None => default end)
  | _ => Err (attribute_error rt v (u "get"))
  end.

(** [len(v)]. *)
Definition py_len (v : pyval) : pyres Z :=
  match v with
  | PStr s => Ok (Z.of_nat (length s))
  | PList l => Ok (Z.of_nat (length l))
  | PDict d => Ok (Z.of_nat (length d))
  | _ => Err (len_error rt v)
  end.

(** [v[:n]]: a [str] and a [list] are sliced, nothing else can be. *)
Definition py_slice (v : pyval) (n : nat) : pyres pyval :=
  match v with
  | PStr s => Ok (PStr (firstn n s))
  | PList l => Ok (PList (firstn n l))
  | _ => Err (subscript_error rt v)
  end.

(** [f"{v}"]. *)
Definition py_format (v : pyval) : pystr :=
  match v with
  | PStr s => s
  | _ => str_of rt v
  end.

(** [r.json()]. *)
Definition resp_json (r : Response) : pyres pyval :=
  match json_body r with
  | Some v => Ok v
  | None => Err (json_error rt (text r))
  end.

Definition sign_client_secret (client_id client_secret : pystr) (ts_ms : Z)
  : pyres pystr :=
  match encode_utf8 (client_id ++ u "_" ++ str_int ts_ms) with
  | Err e => Err e
  | Ok pwd =>
    match encode_utf8 (strip client_secret) with
    | Err e => Err e
    | Ok salt =>
      match hashpw rt pwd salt with
      | Err e => Err e
      | Ok hashed => Ok (utf8_decode (b64encode hashed))
      end
    end
  end.

Definition token_request (client_id : pystr) (ts : Z) (sign : pystr) : Request :=
  {| req_url := TOKEN_URL;
     req_headers :=
       [ (u "Content-Type", u "application/x-www-form-urlencoded");
         (u "Accept", u "application/json") ];
     req_data :=
       Some (PDict [ (u "grant_type", PStr (u "client_credentials"));
                     (u "client_id", PStr client_id);
                     (u "timestamp", PInt ts);
                     (u "client_secret_sign", PStr sign);
                     (u "type", PStr (u "SELF")) ]);
     req_json := None;
     req_timeout := REQUEST_TIMEOUT |}.

(** The signature is computed while the form fields are built, before the
    [try] statement is entered. *)
Definition get_access_token (client_id client_secret : pystr) : Prog pyval :=
  ts <- Clock (fun t => Ret t) ;;
  sign <- lift (sign_client_secret client_id client_secret ts) ;;
  try_except
    (r <- requests_post (token_request client_id ts sign) ;;
     if (status_code r =? 200)%Z then
       body <- lift (resp_json r) ;;
       lift (py_get body (u "access_token") PNone)
     else Ret PNone)
    (fun _ => Ret PNone).

Definition bearer_headers (token : pyval) : list (pystr * pystr) :=
  [ (u "Authorization", u "Bearer " ++ py_format token);
    (u "Accept", u "application/json");
    (u "Content-Type", u "application/json") ].

Definition query_request (token : pyval) (product_order_id : pystr) : Request :=
  {| req_url := API_HOST ++ u "/external/v1/pay-order/seller/product-orders/query";
     req_headers := bearer_headers token;
     req_data := None;
     req_json := Some (PDict [ (u "productOrderIds", PList [PStr product_order_id]) ]);
     req_timeout := REQUEST_TIMEOUT |}.

Definition check_order_in_market (market : Market) (product_order_id : pystr)
  : Prog (option LocateResult) :=
  token <- get_access_token (client_id market) (client_secret market) ;;
  if negb (truthy token) then Ret None
  else
    try_except
      (r <- requests_post (query_request token product_order_id) ;;
       if (status_code r =? 200)%Z then
         response <- lift (resp_json r) ;;
         data <- lift (py_get response (u "data") (PList [])) ;;
         if truthy data then
           n <- lift (py_len data) ;;
           if (n >? 0)%Z then
             Ret (Some {| market := market; token := token; order_data := response |})
           else Ret None
         else Ret None
       else Ret None)
      (fun _ => Ret None).

Definition iso_date (dispatch_due_date : pystr) : pystr :=
  dispatch_due_date ++ u "T23:59:59.000+09:00".

Definition delay_request (token : pyval)
  (product_order_id dispatch_due_date delay_reason : pystr) : Request :=
  {| req_url :=
       API_HOST ++ u "/external/v1/pay-order/seller/product-orders/"
         ++ product_order_id ++ u "/delay";
     req_headers :=
       [ (u "Authorization", u "Bearer " ++ py_format token);
         (u "Content-Type", u "application/json");
         (u "Accept", u "application/json") ];
     req_data := None;
     req_json :=
       Some (PDict [ (u "dispatchDueDate", PStr (iso_date dispatch_due_date));
                     (u "delayedDispatchReason",
                      PStr (get_delay_reason_code delay_reason));
                     (u "dispatchDelayedDetailedReason", PStr delay_reason) ]);
     req_timeout := REQUEST_TIMEOUT |}.

Definition execute_delay_dispatch (token : pyval)
  (product_order_id dispatch_due_date delay_reason : pystr) : Prog DelayOutcome :=
  let reason_code := get_delay_reason_code delay_reason in
  try_except
    (r <- requests_post
            (delay_request token product_order_id dispatch_due_date delay_reason) ;;
     if (status_code r =? 200)%Z then
       Ret {| success := true;
              message := u "발송지연 처리 완료 (" ++ reason_code ++ u ")" |}
     else
       error_msg <-
         try_except
           (error_data <- lift (resp_json r) ;;
            lift (py_get error_data (u "message") (PStr (text r))))
           (fun _ => Ret (PStr (text r))) ;;
       shown <- lift (py_slice error_msg 150) ;;
       Ret {| success := false;
              message := u "API 오류 (" ++ str_int (status_code r) ++ u "): "
                           ++ py_format shown |})
    (fun e => Ret {| success := false; message := u "요청 오류: " ++ exc_str e |}).

End Model.

(** ** The credential sheet ([load_markets]) *)

(** A worksheet is what [get_all_values()] gives (or raises); a spreadsheet
    offers [worksheet(name)] and [get_worksheet(index)]. *)
Definition Worksheet : Type := pyres (list (list pystr)).

Record Spreadsheet : Type := {
  worksheet : pystr -> pyres Worksheet;
  get_worksheet : Z -> pyres Worksheet
}.

(** One turn of the loop over the data rows. *)
Definition load_row (markets : list Market) (row : list pystr) : list Market :=
  if (3 <=? length row)%nat then
    let store_name := S_str (nth 0 row []) in
    let client_id := S_str (nth 1 row []) in
    let client_secret := S_str (nth 2 row []) in
    if truthy_str store_name && truthy_str client_id && truthy_str client_secret
    then markets ++ [ {| store_name := store_name;
                         client_id := client_id;
                         client_secret := client_secret |} ]
    else markets
  else markets.

(** The loop over [values[1:]], starting from the empty list. *)
Definition load_rows (values : list (list pystr)) : list Market :=
  fold_left load_row (tl values) [].

Definition config_get (config : list (pystr * pyval)) (key : pystr) : pyval :=
  match dict_get config key with
  | Some v => v
  | None => PNone
  end.

(** [open_by_key] stands for the service-account authorisation followed by
    [gc.open_by_key(spreadsheet_key)]. *)
Definition load_markets (open_by_key : pyval -> pyval -> pyres Spreadsheet)
  (config : list (pystr * pyval)) : pyres (list Market) :=
  let credentials := config_get config (u "credentials") in
  let spreadsheet_key := config_get config (u "spreadsheet_key") in
  if negb (truthy credentials) || negb (truthy spreadsheet_key) then
    Err (mkExc (u "ValueError") (u "설정이 완료되지 않았습니다."))
  else
    match open_by_key credentials spreadsheet_key with
    | Err e => Err e
    | Ok sh =>
      let ws :=
        match worksheet sh STORES_SHEET with
        | Ok ws => Ok ws
        | Err _ => get_worksheet sh 0
        end in
      match ws with
      | Err e => Err e
      | Ok (Err e) => Err e
      | Ok (Ok values) => Ok (load_rows values)
      end
    end.

(** ** Running programs against the network *)

(** The network and the clock: each answer may depend on, and change, the
    state of the outside world. *)
Record Net (W : Type) : Type := {
  net_clock : W -> Z * W;
  net_post : Request -> W -> pyres Response * W
}.

(** The state of an execution: the outside world and the requests sent so
    far, oldest first. *)
Record Exec (W : Type) : Type := {
  world : W;
  sent : list Request
}.

(** One line of the results table. *)
Record Row : Type := {
  row_order_id : pystr;
  row_market : pystr;
  row_result : pystr;
  row_message : pystr
}.

Section Execution.

Variable rt : Runtime.
Variable W : Type.
Variable net : Net W.

Fixpoint run {A : Type} (p : Prog A) (s : Exec W) : pyres A * Exec W :=
  match p with
  | Ret a => (Ok a, s)
  | Raise e => (Err e, s)
  | Clock k =>
    let (t, w) := net_clock net (world s) in
    run (k t) {| world := w; sent := sent s |}
  | Post rq k =>
    let (r, w) := net_post net rq (world s) in
    run (k r) {| world := w; sent := sent s ++ [rq] |}
  end.

(** *** The thread pool

    A submitted task is its position in the submission order and what is
    left of its program. A worker that is given a turn either finishes its
    task or performs the one effect the task is waiting on. *)
Inductive Turn (R : Type) : Type :=
| Finished (r : pyres R)
| Running (p : Prog R) (s : Exec W).
Arguments Finished {R} r.

Definition turn {R : Type} (p : Prog R) (s : Exec W) : Turn R :=
  match p with
  | Ret a => Finished (Ok a)
  | Raise e => Finished (Err e)
  | Clock k =>
    let (t, w) := net_clock net (world s) in
    Running (k t) {| world := w; sent := sent s |}
  | Post rq k =>
    let (r, w) := net_post net rq (world s) in
    Running (k r) {| world := w; sent := sent s ++ [rq] |}
  end.

Definition remove_at {X : Type} (k : nat) (l : list X) : list X :=
  firstn k l ++ skipn (S k) l.

Definition replace_at {X : Type} (k : nat) (x : X) (l : list X) : list X :=
  firstn k l ++ x :: skipn (S k) l.

(** The tasks that are left run one after the other. *)
Fixpoint drain {R : Type} (live : list (nat * Prog R)) (s : Exec W)
  : list (nat * pyres R) * Exec W :=
  match live with
  | [] => ([], s)
  | (i, p) :: rest =>
    let (r, s1) := run p s in
    let (done, s2) := drain rest s1 in
    ((i, r) :: done, s2)
  end.

(** [sched] lists the scheduler's choices: each names one of the tasks that
    hold a worker, which are the first [MAX_WORKERS] unfinished tasks in
    submission order (the queue is first-in first-out). The result lists the
    futures in the order they finish, each with its outcome. Every task runs
    to its end: leaving the [with] block waits for the pool to shut down. *)
Fixpoint run_pool {R : Type} (sched : list nat) (live : list (nat * Prog R))
  (s : Exec W) : list (nat * pyres R) * Exec W :=
  match sched with
  | [] => drain live s
  | c :: sched' =>
    let k := (c mod (Nat.min MAX_WORKERS (length live)))%nat in
    match nth_error live k with
    | None => drain live s
    | Some (i, p) =>
      match turn p s with
      | Finished r =>
        let (done, s') := run_pool sched' (remove_at k live) s in
        ((i, r) :: done, s')
      | Running p' s1 => run_pool sched' (replace_at k (i, p') live) s1
      end
    end
  end.

(** The loop over [as_completed(futures)]: [future.result()] raises what the
    task raised; the first result that is not [None] is returned. *)
Fixpoint first_result {R : Type} (done : list (nat * pyres (option R)))
  : pyres (option R) :=
  match done with
  | [] => Ok None
  | (_, Err e) :: _ => Err e
  | (_, Ok (Some r)) :: _ => Ok (Some r)
  | (_, Ok None) :: rest => first_result rest
  end.

(** The futures of one lookup, in submission order. *)
Definition probes (markets : list Market) (product_order_id : pystr)
  : list (nat * Prog (option LocateResult)) :=
  combine (seq 0 (length markets))
          (map (fun market => check_order_in_market rt market product_order_id) markets).

Definition find_order_parallel (sched : list nat) (markets : list Market)
  (product_order_id : pystr) (s : Exec W)
  : pyres (option LocateResult) * Exec W :=
  let (done, s') := run_pool sched (probes markets product_order_id) s in
  (first_result done, s').

(** *** The processing loop of [main_app] *)

Definition not_found_row (order_id : pystr) : Row :=
  {| row_order_id := order_id;
     row_market := u "-";
     row_result := u "❌ 실패";
     row_message := u "해당 상품주문번호를 찾을 수 없습니다." |}.

Definition outcome_row (order_id : pystr) (found : LocateResult)
  (delay_result : DelayOutcome) : Row :=
  {| row_order_id := order_id;
     row_market := store_name (market found);
     row_result := if success delay_result then u "✅ 성공" else u "❌ 실패";
     row_message := message delay_result |}.

(** [for i, order_id in enumerate(order_ids)]: [sched i] is the pool
    scheduler's behaviour during the [i]-th lookup. An exception that reaches
    the loop ends it. *)
Fixpoint process_orders (sched : nat -> list nat) (markets : list Market)
  (dispatch_date_str final_reason : pystr) (i : nat) (order_ids : list pystr)
  (results : list Row) (s : Exec W) : pyres (list Row) * Exec W :=
  match order_ids with
  | [] => (Ok results, s)
  | order_id :: rest =>
    match find_order_parallel (sched i) markets order_id s with
    | (Err e, s1) => (Err e, s1)
    | (Ok None, s1) =>
      process_orders sched markets dispatch_date_str final_reason (S i) rest
        (results ++ [not_found_row order_id]) s1
    | (Ok (Some found), s1) =>
      match run (execute_delay_dispatch rt (token found) order_id
                   dispatch_date_str final_reason) s1 with
      | (Err e, s2) => (Err e, s2)
      | (Ok delay_result, s2) =>
        process_orders sched markets dispatch_date_str final_reason (S i) rest
          (results ++ [outcome_row order_id found delay_result]) s2
      end
    end
  end.

(** What pressing the button does: [None] stands for the warning shown when
    no order ID was entered. *)
Definition submit (sched : nat -> list nat) (markets : list Market)
  (order_input dispatch_date_str custom_reason delay_reason : pystr)
  (s : Exec W) : pyres (option (list Row)) * Exec W :=
  match order_ids order_input with
  | [] => (Ok None, s)
  | ids =>
    let final_reason :=
      if truthy_str custom_reason then custom_reason else delay_reason in
    match process_orders sched markets dispatch_date_str final_reason 0 ids [] s with
    | (Ok results, s') => (Ok (Some results), s')
    | (Err e, s') => (Err e, s')
    end
  end.

End Execution.

Arguments Finished {W R} r.
Arguments Running {W R} p s.

(** ** Inputs written as separated segments *)

(** A text made of a first segment followed by (separator, segment) pairs. *)
Definition join_segments (seg0 : pystr) (rest : list (N * pystr)) : pystr :=
  seg0 ++ flat_map (fun p => fst p :: snd p) rest.

Definition is_separator (c : N) : Prop := c = comma \/ c = newline.

Definition separator_free (seg : pystr) : Prop :=
  ~ In comma seg /\ ~ In newline seg.

(** A data row of the sheet that [load_markets] turns into an account. *)
Definition row_qualifies (row : list pystr) : bool :=
  (3 <=? length row)%nat
  && truthy_str (strip (nth 0 row []))
  && truthy_str (strip (nth 1 row []))
  && truthy_str (strip (nth 2 row [])).

Definition market_of_row (row : list pystr) : Market :=
  {| store_name := strip (nth 0 row []);
     client_id := strip (nth 1 row []);
     client_secret := strip (nth 2 row []) |}.

(** ** Example data *)

(** A sheet with a header row and two rows that carry the same store name. *)
Definition example_sheet : list (list pystr) :=
  [ [u "마켓명"; u "client_id"; u "client_secret"];
    [u "스토어A"; u "id-1"; u "secret-1"];
    [u "스토어A "; u "id-2"; u "secret-2"];
    [u "스토어B"; u ""; u "secret-3"];
    [u "스토어C"; u "id-4"] ].

Definition example_open (credentials spreadsheet_key : pyval) : pyres Spreadsheet :=
  Ok {| worksheet := fun _ => Ok (Ok example_sheet);
        get_worksheet := fun _ => Ok (Ok example_sheet) |}.

Definition example_config : list (pystr * pyval) :=
  [ (u "credentials", PDict [(u "client_email", PStr (u "svc@example.iam"))]);
    (u "spreadsheet_key", PStr (u "1eod1Z8sj3nWLmnlsGNP5Hb8gO9NKMaEPCY9rqE09TaI")) ].

(** ** Outcomes as functions of the network's answer *)

(** The token [get_access_token] returns for the answer to its request. *)
Definition token_of_answer (ans : pyres Response) : pyval :=
  match ans with
  | Ok r =>
    if (status_code r =? 200)%Z then
      match json_body r with
      | Some (PDict d) =>
        match dict_get d (u "access_token") with
        | Some v => v
        | None => PNone
        end
      | _ => PNone
      end
    else PNone
  | Err _ => PNone
  end.

(** The error text of a rejected mutation: the body's [message] entry when
    the body is a JSON object that has one, the raw body otherwise. *)
Definition api_error_text (r : Response) : pyval :=
  match json_body r with
  | Some (PDict d) =>
    match dict_get d (u "message") with
    | Some v => v
    | None => PStr (text r)
    end
  | _ => PStr (text r)
  end.

(** A value that has a length, and a positive one. *)
Inductive NonEmpty : pyval -> Prop :=
| NonEmpty_str (s : pystr) : s <> [] -> NonEmpty (PStr s)
| NonEmpty_list (l : list pyval) : l <> [] -> NonEmpty (PList l)
| NonEmpty_dict (d : list (pystr * pyval)) : d <> [] -> NonEmpty (PDict d).

(** The response's [data] entry is present and non-empty. *)
Definition has_data (r : Response) : Prop :=
  exists d v,
    json_body r = Some (PDict d) /\ dict_get d (u "data") = Some v /\ NonEmpty v.

(** What the probe reads off the answer to its query. *)
Definition located (rt : Runtime) (m : Market) (tok : pyval) (ans : pyres Response)
  : option LocateResult :=
  match ans with
  | Ok r =>
    if (status_code r =? 200)%Z then
      match json_body r with
      | Some (PDict d) =>
        let data := match dict_get d (u "data") with
                    | Some v => v
                    | None => PList []
                    end in
        if truthy data then
          match py_len rt data with
          | Ok n =>
            if (n >? 0)%Z then
              Some {| market := m; token := tok; order_data := PDict d |}
            else None
          | Err _ => None
          end
        else None
      | _ => None
      end
    else None
  | Err _ => None
  end.

(** ** An interpreter and a network for the examples *)

Definition type_name (v : pyval) : pystr :=
  match v with
  | PNone => u "NoneType"
  | PBool _ => u "bool"
  | PInt _ => u "int"
  | PFloat _ => u "float"
  | PStr _ => u "str"
  | PList _ => u "list"
  | PDict _ => u "dict"
  end.

Definition is_digit (c : N) : bool := ((48 <=? c) && (c <=? 57))%N.

(** bcrypt accepts a salt of the form [$2b$NN$] followed by at least 22
    characters (version [2a], [2b], [2x] or [2y]). *)
Definition bcrypt_salt_ok (salt : bytes) : bool :=
  match filter truthy_str (split_on 36%N salt) with
  | [version; cost; remainder] =>
    existsb (str_eqb version) [u "2a"; u "2b"; u "2x"; u "2y"]
    && truthy_str cost && forallb is_digit cost
    && (22 <=? length remainder)%nat
  | _ => false
  end.

(** The interpreter of the examples. [hashpw] raises [ValueError] on a
    malformed salt, as bcrypt does; the 31 digest characters of a hash are
    not computed, and [str()] of a float, a list or a dict is not spelled
    out: no example depends on either. *)
Definition example_runtime : Runtime :=
  {| hashpw := fun password salt =>
       if bcrypt_salt_ok salt then Ok (firstn 29 salt ++ repeat 46%N 31)
       else Err (mkExc (u "ValueError") (u "Invalid salt"));
     unicode_error := fun _ =>
       mkExc (u "UnicodeEncodeError") (u "surrogates not allowed");
     json_error := fun _ =>
       mkExc (u "JSONDecodeError") (u "Expecting value: line 1 column 1 (char 0)");
     attribute_error := fun v name =>
       mkExc (u "AttributeError")
             (u "'" ++ type_name v ++ u "' object has no attribute '" ++ name ++ u "'");
     len_error := fun v =>
       mkExc (u "TypeError") (u "object of type '" ++ type_name v ++ u "' has no len()");
     subscript_error := fun v =>
       match v with
       | PDict _ => mkExc (u "TypeError") (u "unhashable type: 'slice'")
       | _ => mkExc (u "TypeError") (u "'" ++ type_name v ++ u "' object is not subscriptable")
       end;
     str_of := fun v =>
       match v with
       | PNone => u "None"
       | PBool true => u "True"
       | PBool false => u "False"
       | PInt z => str_int z
       | PStr s => s
       | PFloat _ => u "<float>"
       | PList _ => u "[...]"
       | PDict _ => u "{...}"
       end |}.

(** A network whose answer depends on the request only; the world is the
    number of clock readings so far. *)
Definition scripted (answer : Request -> pyres Response) : Net nat :=
  {| net_clock := fun w => ((1765432100000 + Z.of_nat w)%Z, S w);
     net_post := fun rq w => (answer rq, w) |}.

Definition start : Exec nat := {| world := 0%nat; sent := [] |}.

(** The double quote. *)
Definition dq : pystr := [34%N].

(** A 404 answer with the body [{"message":"not found"}]. *)
Definition not_found_404 : Response :=
  {| status_code := 404;
     text := u "{" ++ dq ++ u "message" ++ dq ++ u ":" ++ dq ++ u "not found" ++ dq ++ u "}";
     json_body := Some (PDict [(u "message", PStr (u "not found"))]) |}.

(** A 500 answer with the body [{"message":null}]. *)
Definition null_message_500 : Response :=
  {| status_code := 500;
     text := u "{" ++ dq ++ u "message" ++ dq ++ u ":null}";
     json_body := Some (PDict [(u "message", PNone)]) |}.

(** A 502 answer whose body is not JSON. *)
Definition bad_gateway_502 : Response :=
  {| status_code := 502;
     text := u "<html><body>Bad Gateway</body></html>";
     json_body := None |}.

(** A marketplace with two stores: the token endpoint grants [tok-owner] to
    [id-owner], refuses [id-locked] with 401 and is unreachable for anybody
    else; the order query finds order 1001 for [tok-owner] only; the delay
    mutation is accepted. *)
Definition form_field (rq : Request) (key : pystr) : pyval :=
  match req_data rq with
  | Some (PDict d) => match dict_get d key with Some v => v | None => PNone end
  | _ => PNone
  end.

Definition header (rq : Request) (key : pystr) : pystr :=
  match find (fun h => str_eqb (fst h) key) (req_headers rq) with
  | Some h => snd h
  | None => []
  end.

Definition order_1001 : pyval :=
  PDict [ (u "productOrder", PDict [(u "productOrderId", PStr (u "1001"))]) ].

Definition marketplace (rq : Request) : pyres Response :=
  if str_eqb (req_url rq) TOKEN_URL then
    match form_field rq (u "client_id") with
    | PStr cid =>
      if str_eqb cid (u "id-owner") then
        Ok {| status_code := 200; text := [];
              json_body := Some (PDict [ (u "access_token", PStr (u "tok-owner"));
                                         (u "expires_in", PInt 10800) ]) |}
      else if str_eqb cid (u "id-locked") then
        Ok {| status_code := 401; text := [];
              json_body := Some (PDict [(u "message", PStr (u "unauthorized"))]) |}
      else Err (mkExc (u "ConnectionError") (u "connection refused"))
    | _ => Err (mkExc (u "ConnectionError") (u "connection refused"))
    end
  else if py_in (u "/product-orders/query") (req_url rq) then
    if str_eqb (header rq (u "Authorization")) (u "Bearer tok-owner")
       && match req_json rq with
          | Some (PDict [(_, PList [PStr oid])]) => str_eqb oid (u "1001")
          | _ => false
          end
    then Ok {| status_code := 200; text := [];
               json_body := Some (PDict [(u "data", PList [order_1001])]) |}
    else Ok {| status_code := 200; text := [];
               json_body := Some (PDict [(u "data", PList [])]) |}
  else Ok {| status_code := 200; text := []; json_body := Some (PDict []) |}.

Definition salt_1 : pystr := u "$2a$04$abcdefghijklmnopqrstuu".

Definition owner_store : Market :=
  {| store_name := u "스토어A"; client_id := u "id-owner"; client_secret := salt_1 |}.

Definition locked_store : Market :=
  {| store_name := u "스토어B"; client_id := u "id-locked"; client_secret := salt_1 |}.

(** A store whose secret was entered wrongly: not a bcrypt salt. *)
Definition mistyped_store : Market :=
  {| store_name := u "스토어C"; client_id := u "id-owner"; client_secret := u "abc" |}.

(** ** What a program can yield *)

(** [yields ok p r]: the program [p] ends with [r] for some clock readings
    and some answers [ans] to its requests [rq] that satisfy [ok rq ans]. *)
Inductive yields {A : Type} (ok : Request -> pyres Response -> Prop)
  : Prog A -> pyres A -> Prop :=
| yields_ret (a : A) : yields ok (Ret a) (Ok a)
| yields_raise (e : pyexc) : yields ok (Raise e) (Err e)
| yields_clock (k : Z -> Prog A) (t : Z) (r : pyres A) :
    yields ok (k t) r -> yields ok (Clock k) r
| yields_post (rq : Request) (k : pyres Response -> Prog A)
    (ans : pyres Response) (r : pyres A) :
    ok rq ans -> yields ok (k ans) r -> yields ok (Post rq k) r.

(** The answers a network can give to a request. *)
Definition answers (W : Type) (net : Net W) (rq : Request) (ans : pyres Response) : Prop :=
  exists w, fst (net_post net rq w) = ans.

(** The secret of the account can be signed with, at any time. *)
Definition signs (rt : Runtime) (m : Market) : Prop :=
  forall ts, exists sign, sign_client_secret rt (client_id m) (client_secret m) ts = Ok sign.

(** Token issuance always fails for the account: whatever the time and the
    state of the world, the answer to its token request carries no usable
    token. *)
Definition token_always_fails (rt : Runtime) (W : Type) (net : Net W) (m : Market) : Prop :=
  signs rt m
  /\ forall ts sign w,
       truthy (token_of_answer
                 (fst (net_post net (token_request (client_id m) ts sign) w))) = false.

(** Code points below the surrogates, which [utf8_bytes] always encodes. *)
Definition below_surrogates (s : pystr) : bool :=
  forallb (fun c => (c <? 55296)%N) s.

(** Membership in a list of literals, by evaluation. *)
Ltac in_list := vm_compute; repeat (first [left; reflexivity | right]).

(** ** Blank texts *)

(** A text made of whitespace only. *)
Definition all_space (s : pystr) : bool := forallb py_isspace s.

(** A text made of whitespace and commas only. *)
Definition all_blank (s : pystr) : bool :=
  forallb (fun c => py_isspace c || (c =? comma)%N) s.

(** ** The requests a program posts *)

(** [posts P n p]: however the clock and the network answer, the program [p]
    posts at most [n] requests, and each of them satisfies [P]. *)
Inductive posts {A : Type} (P : Request -> Prop) : nat -> Prog A -> Prop :=
| posts_ret (n : nat) (a : A) : posts P n (Ret a)
| posts_raise (n : nat) (e : pyexc) : posts P n (Raise e)
| posts_clock (n : nat) (k : Z -> Prog A) :
    (forall t, posts P n (k t)) -> posts P n (Clock k)
| posts_post (n : nat) (rq : Request) (k : pyres Response -> Prog A) :
    P rq -> (forall ans, posts P n (k ans)) -> posts P (S n) (Post rq k).

(** The tasks of a pool post at most [n] requests together. *)
Inductive pool_posts {R : Type} (P : Request -> Prop)
  : nat -> list (nat * Prog R) -> Prop :=
| pool_posts_nil (n : nat) : pool_posts P n []
| pool_posts_cons (n a b i : nat) (p : Prog R) (live : list (nat * Prog R)) :
    posts P a p -> pool_posts P b live -> (a + b <= n)%nat ->
    pool_posts P n ((i, p) :: live).

(** A request of the token issuer for an account. *)
Definition is_token_request (m : Market) (rq : Request) : Prop :=
  exists ts sign, rq = token_request (client_id m) ts sign.

(** The requests of a lookup: a token request for one of the accounts, or
    the query for the order. *)
Definition lookup_request (rt : Runtime) (markets : list Market) (oid : pystr)
  (rq : Request) : Prop :=
  (exists m, In m markets /\ is_token_request m rq)
  \/ (exists tok, rq = query_request rt tok oid).

(** The requests of the processing loop: the requests of the lookup of one
    of the order IDs, or the delay mutation of one of them with the due date
    and the reason of the form. *)
Definition loop_request (rt : Runtime) (markets : list Market) (ids : list pystr)
  (due reason : pystr) (rq : Request) : Prop :=
  (exists oid, In oid ids /\ lookup_request rt markets oid rq)
  \/ (exists tok oid, In oid ids /\ rq = delay_request rt tok oid due reason).

(** A request that carries a delay mutation. *)
Definition is_mutation (rq : Request) : bool :=
  match req_json rq with
  | Some (PDict d) =>
    match dict_get d (u "dispatchDueDate") with
    | Some _ => true
    | None => false
    end
  | _ => false
  end.

(** ** Rows of the results table *)

Definition not_found_message : pystr := u "해당 상품주문번호를 찾을 수 없습니다.".

(** A row that does not report "not found". *)
Definition located_row (row : Row) : bool :=
  negb (str_eqb (row_message row) not_found_message).

(** The message of a mutation that was accepted. *)
Definition completion_message (reason : pystr) : pystr :=
  u "발송지연 처리 완료 (" ++ get_delay_reason_code reason ++ u ")".

(** The outcomes of the executor for a reason text. *)
Definition executor_outcome (reason : pystr) (out : DelayOutcome) : Prop :=
  (success out = true /\ message out = completion_message reason)
  \/ (success out = false
      /\ ((exists x, message out = u "API 오류 (" ++ x)
          \/ (exists x, message out = u "요청 오류: " ++ x))).

(** The row the loop writes for an order ID. *)
Definition row_of (reason oid : pystr) (row : Row) : Prop :=
  row = not_found_row oid
  \/ exists found out, row = outcome_row oid found out /\ executor_outcome reason out.

(** [sum(1 for r in results if "✅" in r["결과"])] and
    [len(results) - success_count]. *)
Definition success_count (results : list Row) : Z :=
  Z.of_nat (length (filter (fun r => py_in (u "✅") (row_result r)) results)).

Definition fail_count (results : list Row) : Z :=
  Z.of_nat (length results) - success_count results.

(** The rows of the example run: order 1001 is delayed through its owner,
    order 1002 is not found. *)
Definition example_rows : list Row :=
  match fst (process_orders example_runtime (scripted marketplace) (fun _ => [1; 0; 1]%nat)
               [locked_store; owner_store] (u "2025-12-31") (u "기타 사유")
               0 [u "1001"; u "1002"] [] start) with
  | Ok rows => rows
  | Err _ => []
  end.

(** ** The order of the classifier's rules *)

(** The position of the first rule of a table with a term contained in the
    text; the length of the table when no rule has one. *)
Fixpoint rule_index (rules : list (list pystr * pystr)) (text : pystr) : nat :=
  match rules with
  | [] => 0
  | (terms, _) :: rest =>
    if existsb (fun t => py_in t text) terms then 0
    else S (rule_index rest text)
  end.

(** The position of a reason code in the order the source tests for them,
    [ETC] last. *)
Definition code_priority (code : pystr) : nat :=
  if str_eqb code (u "OVERSEA_DELIVERY") then 0
  else if str_eqb code (u "CUSTOM_BUILD") then 1
  else if str_eqb code (u "RESERVED_DISPATCH") then 2
  else if str_eqb code (u "CUSTOMER_REQUEST") then 3
  else if str_eqb code (u "PRODUCT_PREPARE") then 4
  else 5.

(** ** Base64 text *)

(** The characters of the base64 alphabet and the padding character. *)
Definition base64_char (c : N) : bool :=
  ((65 <=? c) && (c <=? 90) || (97 <=? c) && (c <=? 122)
   || (48 <=? c) && (c <=? 57) || (c =? 43) || (c =? 47) || (c =? 61))%N.

(** A field of an account as [load_markets] stores it: not empty, with no
    whitespace at either end, and left unchanged by [strip]. *)
Definition clean_field (field : pystr) : Prop :=
  field <> []
  /\ py_isspace (hd 0%N field) = false
  /\ py_isspace (last field 0%N) = false
  /\ strip field = field.

(** ** The session's configuration ([get_config], [main], the settings page) *)

(** [key in d]. *)
Definition dict_mem (d : list (pystr * pyval)) (key : pystr) : bool :=
  match dict_get d key with
  | Some _ => true
  | None => false
  end.

(** [d.get(key, default)] and, for a key that is in [d], [d[key]]. *)
Definition dict_get_default (d : list (pystr * pyval)) (key : pystr)
  (default : pyval) : pyval :=
  match dict_get d key with
  | Some v => v
  | None => default
  end.

(** [d[key] = v]: the binding is replaced where it stands, and added at the
    end for a new key. *)
Fixpoint dict_set (d : list (pystr * pyval)) (key : pystr) (v : pyval)
  : list (pystr * pyval) :=
  match d with
  | [] => [(key, v)]
  | (k, x) :: d' =>
    if str_eqb k key then (k, v) :: d' else (k, x) :: dict_set d' key v
  end.

(** [del d[key]], for a key that is in [d]. *)
Definition dict_del (d : list (pystr * pyval)) (key : pystr)
  : list (pystr * pyval) :=
  filter (fun kv => negb (str_eqb (fst kv) key)) d.

(** [st.secrets]: the membership test and the subscript; both raise when the
    secrets cannot be read. *)
Record Secrets : Type := {
  secrets_contains : pystr -> pyres bool;
  secrets_getitem : pystr -> pyres pyval
}.

(** The page [main] shows. *)
Inductive Page : Type :=
| MainApp
| SettingsPage.

(** [st.success(text)] and [st.error(text)]. *)
Inductive Notice : Type :=
| st_success (text : pystr)
| st_error (text : pystr).

(** How a run of [show_settings_page] ends: with [st.rerun()], or with the
    page shown; in both cases with the session state it leaves. *)
Inductive SettingsEnd : Type :=
| SettingsRerun (session_state : list (pystr * pyval))
| SettingsShown (session_state : list (pystr * pyval)) (notices : list Notice).

(** How [main_app] goes on after its first part: with [st.rerun()] and the
    session state it leaves, with the notice of a failed load and [return],
    or to the form with the accounts loaded. *)
Inductive AppStart : Type :=
| Restart (session_state : list (pystr * pyval))
| LoadFailed (notice : Notice)
| Ready (markets : list Market).

Section Session.

Variable rt : Runtime.

(** The built-in [dict(v)]. *)
Variable dict_of : pyval -> pyres pyval.

(** [st.secrets], when [hasattr(st, 'secrets')]. *)
Variable secrets : option Secrets.

(** The first [if] of the [try] block of [get_config]. *)
Definition read_credentials (sec : Secrets) (config : list (pystr * pyval))
  : pyres (list (pystr * pyval)) :=
  match secrets_contains sec (u "gcp_service_account") with
  | Err e => Err e
  | Ok false => Ok config
  | Ok true =>
    match secrets_getitem sec (u "gcp_service_account") with
    | Err e => Err e
    | Ok v =>
      match dict_of v with
      | Err e => Err e
      | Ok d => Ok (dict_set config (u "credentials") d)
      end
    end
  end.

(** The second [if] of the [try] block. *)
Definition read_spreadsheet_key (sec : Secrets) (config : list (pystr * pyval))
  : pyres (list (pystr * pyval)) :=
  match secrets_contains sec (u "spreadsheet_key") with
  | Err e => Err e
  | Ok false => Ok config
  | Ok true =>
    match secrets_getitem sec (u "spreadsheet_key") with
    | Err e => Err e
    | Ok v => Ok (dict_set config (u "spreadsheet_key") v)
    end
  end.

(** The [try] block: an exception ends it, and [config] stays as the
    statements before the exception left it. *)
Definition read_secrets (config : list (pystr * pyval)) : list (pystr * pyval) :=
  match secrets with
  | None => config
  | Some sec =>
    match read_credentials sec config with
    | Err _ => config
    | Ok config1 =>
      match read_spreadsheet_key sec config1 with
      | Err _ => config1
      | Ok config2 => config2
      end
    end
  end.

Definition get_config (session_state : list (pystr * pyval))
  : list (pystr * pyval) :=
  let config := read_secrets [] in
  let config :=
    if negb (dict_mem config (u "credentials"))
       && dict_mem session_state (u "user_credentials")
    then dict_set config (u "credentials")
           (dict_get_default session_state (u "user_credentials") PNone)
    else config in
  let config :=
    if negb (dict_mem config (u "spreadsheet_key"))
       && dict_mem session_state (u "user_spreadsheet_key")
    then dict_set config (u "spreadsheet_key")
           (dict_get_default session_state (u "user_spreadsheet_key") PNone)
    else config in
  config.

Definition main (session_state : list (pystr * pyval)) : Page :=
  let config := get_config session_state in
  let has_credentials := dict_mem config (u "credentials") in
  let has_spreadsheet := dict_mem config (u "spreadsheet_key") in
  if has_credentials && has_spreadsheet then MainApp
  else if truthy (dict_get_default session_state (u "config_complete") (PBool false))
  then MainApp
  else SettingsPage.

(** One run of [show_settings_page]: [uploaded_file] is what [json.load]
    gives for the uploaded file, when there is one; [spreadsheet_key] is the
    text of the input field; [pressed] tells whether the button was
    pressed. *)
Definition show_settings_page (uploaded_file : option (pyres pyval))
  (spreadsheet_key : pystr) (pressed : bool)
  (session_state : list (pystr * pyval)) : SettingsEnd :=
  let (session_state, notices) :=
    match uploaded_file with
    | None => (session_state, [])
    | Some (Err e) =>
      (session_state, [st_error (u "❌ JSON 파일 파싱 오류: " ++ exc_str e)])
    | Some (Ok credentials) =>
      let session_state := dict_set session_state (u "user_credentials") credentials in
      match py_get rt credentials (u "client_email") (PStr (u "Unknown")) with
      | Ok email =>
        (session_state, [st_success (u "✅ 서비스 계정: " ++ py_format rt email)])
      | Err e =>
        (session_state, [st_error (u "❌ JSON 파일 파싱 오류: " ++ exc_str e)])
      end
    end in
  let session_state :=
    if truthy_str spreadsheet_key
    then dict_set session_state (u "user_spreadsheet_key") (PStr spreadsheet_key)
    else session_state in
  if pressed then
    let config := get_config session_state in
    if dict_mem config (u "credentials") && dict_mem config (u "spreadsheet_key")
    then SettingsRerun (dict_set session_state (u "config_complete") (PBool true))
    else SettingsShown session_state
           (notices ++
            [st_error (u "❌ credentials.json과 스프레드시트 키를 모두 입력해주세요.")])
  else SettingsShown session_state notices.

(** The first part of [main_app], up to the form: [reset_pressed] and
    [retry_pressed] tell whether the two buttons were pressed. The notice
    written before a rerun is not kept. *)
Definition main_app_start (open_by_key : pyval -> pyval -> pyres Spreadsheet)
  (reset_pressed retry_pressed : bool) (session_state : list (pystr * pyval))
  : AppStart :=
  let config := get_config session_state in
  if reset_pressed then
    let session_state := dict_set session_state (u "config_complete") (PBool false) in
    let session_state :=
      if dict_mem session_state (u "user_credentials")
      then dict_del session_state (u "user_credentials")
      else session_state in
    let session_state :=
      if dict_mem session_state (u "user_spreadsheet_key")
      then dict_del session_state (u "user_spreadsheet_key")
      else session_state in
    Restart session_state
  else
    match load_markets open_by_key config with
    | Ok markets => Ready markets
    | Err e =>
      if retry_pressed
      then Restart (dict_set session_state (u "config_complete") (PBool false))
      else LoadFailed (st_error (u "❌ 마켓 정보 로드 실패: " ++ exc_str e))
    end.

End Session.

(** Secrets of a deployment that hold the service account and the key. *)
Definition example_secrets : Secrets :=
  {| secrets_contains := fun _ => Ok true;
     secrets_getitem := fun key =>
       Ok (dict_get_default example_config
             (if str_eqb key (u "gcp_service_account") then u "credentials" else key)
             PNone) |}.

(** [dict(v)] for the values of the examples. *)
Definition example_dict (v : pyval) : pyres pyval :=
  match v with
  | PDict d => Ok (PDict d)
  | _ => Err (mkExc (u "TypeError") (u "object is not iterable"))
  end.

(** A session in which a service account and a key were entered. *)
Definition example_session : list (pystr * pyval) :=
  [ (u "user_credentials", PDict [(u "client_email", PStr (u "local@example.iam"))]);
    (u "user_spreadsheet_key", PStr (u "1eod1Z8sj3nWLmnlsGNP5Hb8gO9NKMaEPCY9rqE09TaI")) ].

(** ** The data array of an answer *)

(** The response's [data] entry is an array, and a non-empty one. *)
Definition data_array_nonempty (r : Response) : Prop :=
  exists d l,
    json_body r = Some (PDict d)
    /\ dict_get d (u "data") = Some (PList l) /\ l <> [].

(** A 200 answer with the body [{"data":"x"}]: the [data] entry is a string. *)
Definition string_data_200 : Response :=
  {| status_code := 200;
     text := u "{" ++ dq ++ u "data" ++ dq ++ u ":" ++ dq ++ u "x" ++ dq ++ u "}";
     json_body := Some (PDict [(u "data", PStr (u "x"))]) |}.

(** The marketplace of the examples, with an order query that answers
    [string_data_200] to everybody. *)
Definition string_data_marketplace (rq : Request) : pyres Response :=
  if py_in (u "/product-orders/query") (req_url rq) then Ok string_data_200
  else marketplace rq.

(** * Properties *)

(** ** Strings *)

Lemma starts_with_app (p s : pystr) : starts_with p (p ++ s) = true.
Proof.
  induction p as [|a p IH]; simpl.
  - reflexivity.
  - now rewrite N.eqb_refl, IH.
Qed.

Lemma starts_with_inv (p s : pystr) :
  starts_with p s = true -> exists post, s = p ++ post.
Proof.
  revert s; induction p as [|a p IH]; intros s H.
  - now exists s.
  - destruct s as [|b s]; simpl in H; [discriminate|].
    apply andb_prop in H as [Hab Hps].
    apply N.eqb_eq in Hab; subst b.
    destruct (IH _ Hps) as [post ->].
    now exists post.
Qed.

Lemma py_in_starts (sub s : pystr) : starts_with sub s = true -> py_in sub s = true.
Proof. intros H. destruct s; simpl; now rewrite H. Qed.

Lemma py_in_Substring (sub s : pystr) : py_in sub s = true <-> Substring sub s.
Proof.
  split.
  - induction s as [|c s IH]; simpl; intros H.
    + rewrite orb_false_r in H.
      destruct (starts_with_inv _ _ H) as [post ->].
      now exists [], post.
    + apply orb_prop in H as [H|H].
      * destruct (starts_with_inv _ _ H) as [post ->].
        now exists [], post.
      * destruct (IH H) as (pre & post & ->).
        now exists (c :: pre), post.
  - intros (pre & post & ->).
    induction pre as [|c pre IH]; simpl.
    + apply py_in_starts, starts_with_app.
    + rewrite IH. apply orb_true_r.
Qed.

Lemma py_in_middle (a x b : pystr) : py_in x (a ++ x ++ b) = true.
Proof. apply py_in_Substring. now exists a, b. Qed.

Lemma py_in_app_r (x a b : pystr) : py_in x b = true -> py_in x (a ++ b) = true.
Proof.
  rewrite !py_in_Substring. intros (pre & post & ->).
  exists (a ++ pre), post. now rewrite app_assoc.
Qed.

Lemma py_in_refl (x : pystr) : py_in x x = true.
Proof. apply py_in_Substring. exists [], []. now rewrite app_nil_r. Qed.

(** ** The classifier *)

Lemma first_match_in_codes (rules : list (list pystr * pystr)) (text : pystr) :
  Forall (fun rule => In (snd rule) reason_codes) rules ->
  In (first_match rules text) reason_codes.
Proof.
  induction 1 as [|[terms code] rules Hcode _ IH]; simpl.
  - in_list.
  - destruct (existsb _ terms); [exact Hcode | exact IH].
Qed.

Lemma get_delay_reason_code_table (s : pystr) :
  get_delay_reason_code s = first_match rule_table s.
Proof.
  unfold get_delay_reason_code, rule_table, rule1_terms, rule4_terms.
  cbn [first_match existsb].
  now rewrite !orb_false_r, !orb_assoc.
Qed.

(** C2: the classifier is the first-match evaluation of the ordered rule
    table under substring containment; a text that contains a rule-1 term is
    classified OVERSEA_DELIVERY whatever else it contains (a rule-4 term
    included); every text is mapped to one of the six pairwise distinct
    reason codes, ETC when no rule applies. *)
Theorem get_delay_reason_code_first_match :
  (forall s, get_delay_reason_code s = first_match rule_table s)
  /\ (forall s t, In t rule1_terms -> Substring t s ->
        get_delay_reason_code s = u "OVERSEA_DELIVERY")
  /\ (forall s t1 t4, In t1 rule1_terms -> In t4 rule4_terms ->
        Substring t1 s -> Substring t4 s ->
        get_delay_reason_code s = u "OVERSEA_DELIVERY")
  /\ (forall s, (forall terms code t, In (terms, code) rule_table -> In t terms ->
                   ~ Substring t s) ->
        get_delay_reason_code s = u "ETC")
  /\ (forall s, In (get_delay_reason_code s) reason_codes)
  /\ NoDup reason_codes
  /\ get_delay_reason_code (u "고객 요청으로 해외 배송") = u "OVERSEA_DELIVERY".
Proof.
  assert (R1 : forall s t, In t rule1_terms -> Substring t s ->
                 get_delay_reason_code s = u "OVERSEA_DELIVERY").
  { intros s t Ht Hs. apply py_in_Substring in Hs.
    unfold get_delay_reason_code.
    destruct Ht as [<-|[<-|[<-|[]]]]; rewrite Hs, ?orb_true_r; reflexivity. }
  split; [exact get_delay_reason_code_table|].
  split; [exact R1|].
  split; [intros s t1 t4 H1 _ Hs _; exact (R1 s t1 H1 Hs)|].
  split.
  { intros s Hnone. rewrite get_delay_reason_code_table.
    assert (G : forall rules, incl rules rule_table -> first_match rules s = u "ETC").
    { induction rules as [|[terms code] rules IH]; intros Hincl; simpl.
      - reflexivity.
      - destruct (existsb (fun t => py_in t s) terms) eqn:E.
        + apply existsb_exists in E as (t & Ht & Hin).
          apply py_in_Substring in Hin.
          exfalso. apply (Hnone terms code t); auto. apply Hincl. now left.
        + apply IH. intros r Hr. apply Hincl. now right. }
    apply G, incl_refl. }
  split.
  { intros s. rewrite get_delay_reason_code_table.
    apply first_match_in_codes.
    unfold rule_table.
    repeat (apply Forall_cons; [in_list|]). apply Forall_nil. }
  split.
  { unfold reason_codes.
    repeat (constructor; [vm_compute; intuition discriminate|]).
    constructor. }
  vm_compute. reflexivity.
Qed.

(** ** The order-ID form field *)

Lemma fold_left_collect {X Y : Type} (f : X -> bool) (g : X -> Y) (l : list X) (acc : list Y) :
  fold_left (fun acc x => if f x then acc ++ [g x] else acc) l acc
  = acc ++ map g (filter f l).
Proof.
  revert acc; induction l as [|x l IH]; intros acc; simpl.
  - now rewrite app_nil_r.
  - rewrite IH. destruct (f x); simpl; [|reflexivity].
    now rewrite <- app_assoc.
Qed.

Lemma map_filter_comm {X Y : Type} (f : Y -> bool) (g : X -> Y) (l : list X) :
  map g (filter (fun x => f (g x)) l) = filter f (map g l).
Proof.
  induction l as [|x l IH]; simpl; [reflexivity|].
  destruct (f (g x)); simpl; now rewrite IH.
Qed.

Lemma replace_char_free (old new : N) (s : pystr) :
  ~ In old s -> replace_char old new s = s.
Proof.
  induction s as [|c s IH]; simpl; intros H; [reflexivity|].
  destruct (N.eqb_spec c old) as [->|_].
  - exfalso. apply H. now left.
  - f_equal. apply IH. intros Hin. apply H. now right.
Qed.

Lemma split_on_free (sep : N) (s : pystr) :
  ~ In sep s -> split_on sep s = [s].
Proof.
  induction s as [|c s IH]; simpl; intros H; [reflexivity|].
  destruct (N.eqb_spec c sep) as [->|_].
  - exfalso. apply H. now left.
  - rewrite IH; [reflexivity|]. intros Hin. apply H. now right.
Qed.

Lemma split_on_cons (sep : N) (seg t : pystr) :
  ~ In sep seg -> split_on sep (seg ++ sep :: t) = seg :: split_on sep t.
Proof.
  induction seg as [|c seg IH]; simpl; intros H.
  - now rewrite N.eqb_refl.
  - destruct (N.eqb_spec c sep) as [->|_].
    + exfalso. apply H. now left.
    + rewrite IH; [reflexivity|]. intros Hin. apply H. now right.
Qed.

(** Splitting a text written as separated segments gives the segments back. *)
Lemma split_join_segments (seg0 : pystr) (rest : list (N * pystr)) :
  Forall separator_free (seg0 :: map snd rest) ->
  Forall is_separator (map fst rest) ->
  split_on newline (replace_char comma newline (join_segments seg0 rest))
  = seg0 :: map snd rest.
Proof.
  unfold join_segments.
  revert seg0; induction rest as [|[c seg] rest IH]; intros seg0 Hfree Hsep.
  - simpl. rewrite app_nil_r.
    apply Forall_inv in Hfree as [Hc Hn].
    rewrite replace_char_free by exact Hc.
    now apply split_on_free.
  - cbn [flat_map fst snd map app] in *.
    pose proof (Forall_inv Hfree) as [Hc Hn].
    apply Forall_inv_tail in Hfree.
    pose proof (Forall_inv Hsep) as Hcsep.
    apply Forall_inv_tail in Hsep.
    unfold replace_char. rewrite map_app. cbn [map].
    fold (replace_char comma newline seg0).
    fold (replace_char comma newline (seg ++ flat_map (fun p => fst p :: snd p) rest)).
    rewrite replace_char_free by exact Hc.
    assert (E : (if (c =? comma)%N then newline else c) = newline).
    { destruct Hcsep as [->| ->]; reflexivity. }
    rewrite E.
    rewrite split_on_cons by exact Hn.
    f_equal.
    exact (IH seg Hfree Hsep).
Qed.

Lemma order_ids_filter (order_input : pystr) :
  order_ids order_input
  = filter truthy_str
      (map strip (split_on newline (replace_char comma newline order_input))).
Proof.
  unfold order_ids, S_str.
  rewrite (fold_left_collect (fun x => truthy_str (strip x)) strip).
  simpl. apply map_filter_comm.
Qed.

(** Every text is a sequence of segments separated by commas and newlines. *)
Lemma text_segments (text : pystr) :
  exists seg0 rest,
    text = join_segments seg0 rest
    /\ Forall separator_free (seg0 :: map snd rest)
    /\ Forall is_separator (map fst rest).
Proof.
  induction text as [|c text (seg0 & rest & -> & Hfree & Hsep)].
  - exists [], []. repeat split; auto. constructor; [|constructor].
    split; intros [].
  - destruct (N.eqb_spec c comma) as [Hc|Hc];
      [|destruct (N.eqb_spec c newline) as [Hn|Hn]].
    + exists [], ((c, seg0) :: rest). split; [reflexivity|]. split.
      * constructor; [split; intros []|exact Hfree].
      * constructor; [now left | exact Hsep].
    + exists [], ((c, seg0) :: rest). split; [reflexivity|]. split.
      * constructor; [split; intros []|exact Hfree].
      * constructor; [now right | exact Hsep].
    + exists (c :: seg0), rest. split; [reflexivity|]. split; [|exact Hsep].
      pose proof (Forall_inv Hfree) as [H1 H2].
      constructor; [|exact (Forall_inv_tail Hfree)].
      split; intros [E|Hin]; auto.
Qed.

(** C3 (as the code has it): every text is a sequence of segments separated
    by commas and newlines, and its order IDs are the stripped segments that
    are not blank, in input order; equal IDs are all kept. The input
    "1001, 1002\n1003" gives the three IDs 1001, 1002, 1003. *)
Theorem order_ids_segments :
  (forall seg0 rest,
      Forall separator_free (seg0 :: map snd rest) ->
      Forall is_separator (map fst rest) ->
      order_ids (join_segments seg0 rest)
      = filter truthy_str (map strip (seg0 :: map snd rest)))
  /\ (forall text, exists seg0 rest,
        text = join_segments seg0 rest
        /\ order_ids text = filter truthy_str (map strip (seg0 :: map snd rest)))
  /\ order_ids (u "1001, 1002" ++ [newline] ++ u "1003")
     = [u "1001"; u "1002"; u "1003"].
Proof.
  assert (G : forall seg0 rest,
             Forall separator_free (seg0 :: map snd rest) ->
             Forall is_separator (map fst rest) ->
             order_ids (join_segments seg0 rest)
             = filter truthy_str (map strip (seg0 :: map snd rest))).
  { intros seg0 rest Hfree Hsep.
    rewrite order_ids_filter.
    now rewrite split_join_segments. }
  split; [exact G|]. split.
  - intros text. destruct (text_segments text) as (seg0 & rest & -> & Hfree & Hsep).
    exists seg0, rest. split; [reflexivity | exact (G seg0 rest Hfree Hsep)].
  - vm_compute. reflexivity.
Qed.

Lemma order_ids_segments_witness :
  order_ids (join_segments (u "1001") [(comma, u " 1001 "); (newline, u "  "); (comma, u "1003")])
  = filter truthy_str (map strip [u "1001"; u " 1001 "; u "  "; u "1003"]).
Proof.
  apply (proj1 order_ids_segments (u "1001")
           [(comma, u " 1001 "); (newline, u "  "); (comma, u "1003")]).
  - repeat (apply Forall_cons; [vm_compute; intuition discriminate|]).
    apply Forall_nil.
  - repeat (apply Forall_cons; [vm_compute; auto|]). apply Forall_nil.
Defined.

(** C3 as stated fails: an order ID entered twice is returned twice. *)
Lemma order_ids_keeps_duplicates :
  order_ids (u "1001,1001") = [u "1001"; u "1001"]
  /\ ~ NoDup (order_ids (u "1001,1001")).
Proof.
  assert (E : order_ids (u "1001,1001") = [u "1001"; u "1001"])
    by (vm_compute; reflexivity).
  split; [exact E|].
  rewrite E. intros H. inversion H as [|x l Hnotin _]; subst.
  apply Hnotin. now left.
Qed.

(** ** The credential sheet *)

Lemma load_row_fold (rows : list (list pystr)) (acc : list Market) :
  fold_left load_row rows acc
  = acc ++ map market_of_row (filter row_qualifies rows).
Proof.
  revert acc; induction rows as [|row rows IH]; intros acc; simpl.
  - now rewrite app_nil_r.
  - rewrite IH. unfold load_row, row_qualifies, S_str.
    destruct (3 <=? length row)%nat; simpl; [|reflexivity].
    destruct (truthy_str (strip (nth 0 row []))
              && truthy_str (strip (nth 1 row []))
              && truthy_str (strip (nth 2 row []))); simpl; [|reflexivity].
    now rewrite <- app_assoc.
Qed.

Lemma load_rows_filter (values : list (list pystr)) :
  load_rows values = map market_of_row (filter row_qualifies (tl values)).
Proof. unfold load_rows. now rewrite load_row_fold. Qed.

Lemma truthy_str_nonempty (s : pystr) : truthy_str s = true -> s <> [].
Proof. destruct s; [discriminate | discriminate]. Qed.

(** C9 (as the code has it): the list holds, in sheet order, one account for
    every row after the header that has at least three cells and whose first
    three cells are non-empty once stripped; the names are not made unique,
    so they are pairwise distinct exactly when the stripped names of those
    rows are. *)
Theorem load_markets_rows :
  (forall values,
      load_rows values = map market_of_row (filter row_qualifies (tl values)))
  /\ (forall values,
        NoDup (map store_name (load_rows values))
        <-> NoDup (map (fun row => strip (nth 0 row []))
                       (filter row_qualifies (tl values))))
  /\ (forall values m, In m (load_rows values) ->
        store_name m <> [] /\ client_id m <> [] /\ client_secret m <> [])
  /\ (forall open_by_key config markets,
        load_markets open_by_key config = Ok markets ->
        exists sh values,
          open_by_key (config_get config (u "credentials"))
                      (config_get config (u "spreadsheet_key")) = Ok sh
          /\ (worksheet sh STORES_SHEET = Ok (Ok values)
              \/ (exists e, worksheet sh STORES_SHEET = Err e)
                 /\ get_worksheet sh 0 = Ok (Ok values))
          /\ markets = load_rows values).
Proof.
  split; [exact load_rows_filter|].
  split.
  { intros values. rewrite load_rows_filter, map_map. simpl. reflexivity. }
  split.
  { intros values m. rewrite load_rows_filter.
    intros Hin. apply in_map_iff in Hin as (row & <- & Hrow).
    apply filter_In in Hrow as [_ Hq].
    unfold row_qualifies in Hq.
    apply andb_prop in Hq as [Hq H2].
    apply andb_prop in Hq as [Hq H1].
    apply andb_prop in Hq as [_ H0].
    simpl. auto using truthy_str_nonempty. }
  intros open_by_key config markets.
  unfold load_markets.
  destruct (negb (truthy (config_get config (u "credentials")))
            || negb (truthy (config_get config (u "spreadsheet_key"))));
    [discriminate|].
  destruct (open_by_key _ _) as [sh|e]; [|discriminate].
  destruct (worksheet sh STORES_SHEET) as [ws|e] eqn:Ews.
  - destruct ws as [values|e]; [|discriminate].
    intros [= <-]. exists sh, values. auto.
  - destruct (get_worksheet sh 0) as [[values|e']|e'] eqn:Eg; try discriminate.
    intros [= <-]. exists sh, values. split; [reflexivity|].
    split; [right; split; [now exists e | exact Eg] | reflexivity].
Qed.

(** C9 as stated fails: two rows with the same name give two accounts with
    that name. *)
Lemma load_markets_duplicate_names :
  exists a b,
    load_markets example_open example_config = Ok [a; b]
    /\ a <> b /\ store_name a = store_name b.
Proof.
  exists (market_of_row [u "스토어A"; u "id-1"; u "secret-1"]).
  exists (market_of_row [u "스토어A "; u "id-2"; u "secret-2"]).
  split; [vm_compute; reflexivity|].
  split; [|vm_compute; reflexivity].
  intros H. apply (f_equal client_id) in H. vm_compute in H. discriminate.
Qed.

(** ** Running programs *)

Section RunFacts.

Variable rt : Runtime.
Variable W : Type.
Variable net : Net W.

Lemma run_bind {A B : Type} (p : Prog A) (f : A -> Prog B) (s : Exec W) :
  run net (bind p f) s
  = match run net p s with
    | (Ok a, s1) => run net (f a) s1
    | (Err e, s1) => (Err e, s1)
    end.
Proof.
  revert s; induction p as [a|e|k IH|rq k IH]; intros s; simpl.
  - reflexivity.
  - reflexivity.
  - destruct (net_clock net (world s)) as [t w]. apply IH.
  - destruct (net_post net rq (world s)) as [r w]. apply IH.
Qed.

Lemma run_try_except {A : Type} (p : Prog A) (h : pyexc -> Prog A) (s : Exec W) :
  run net (try_except p h) s
  = match run net p s with
    | (Ok a, s1) => (Ok a, s1)
    | (Err e, s1) => run net (h e) s1
    end.
Proof.
  revert s; induction p as [a|e|k IH|rq k IH]; intros s; simpl.
  - reflexivity.
  - reflexivity.
  - destruct (net_clock net (world s)) as [t w]. apply IH.
  - destruct (net_post net rq (world s)) as [r w]. apply IH.
Qed.

Lemma run_lift {A : Type} (r : pyres A) (s : Exec W) : run net (lift r) s = (r, s).
Proof. destruct r; reflexivity. Qed.

Lemma run_requests_post (rq : Request) (s : Exec W) :
  run net (requests_post rq) s
  = (fst (net_post net rq (world s)),
     {| world := snd (net_post net rq (world s)); sent := sent s ++ [rq] |}).
Proof.
  unfold requests_post. simpl.
  destruct (net_post net rq (world s)) as [r w]. simpl.
  apply run_lift.
Qed.

(** The executor in one step: one request, and an outcome that depends on
    its answer only. *)
Lemma execute_delay_dispatch_run (tok : pyval) (oid due reason : pystr) (s : Exec W) :
  run net (execute_delay_dispatch rt tok oid due reason) s
  = (Ok match fst (net_post net (delay_request rt tok oid due reason) (world s)) with
        | Err e => {| success := false; message := u "요청 오류: " ++ exc_str e |}
        | Ok r =>
          if (status_code r =? 200)%Z then
            {| success := true;
               message := u "발송지연 처리 완료 (" ++ get_delay_reason_code reason ++ u ")" |}
          else
            match py_slice rt (api_error_text r) 150 with
            | Ok shown =>
              {| success := false;
                 message := u "API 오류 (" ++ str_int (status_code r) ++ u "): "
                              ++ py_format rt shown |}
            | Err e => {| success := false; message := u "요청 오류: " ++ exc_str e |}
            end
        end,
     {| world := snd (net_post net (delay_request rt tok oid due reason) (world s));
        sent := sent s ++ [delay_request rt tok oid due reason] |}).
Proof.
  unfold execute_delay_dispatch.
  rewrite run_try_except, run_bind, run_requests_post.
  destruct (net_post net _ (world s)) as [[r|e] w]; cbn [fst snd]; [|reflexivity].
  destruct (status_code r =? 200)%Z; [reflexivity|].
  rewrite run_bind, run_try_except, run_bind, run_lift.
  unfold api_error_text, resp_json.
  destruct (json_body r) as [body|]; [|cbn [run]].
  - rewrite run_lift.
    destruct body; cbn [py_get run];
      try (rewrite run_bind, run_lift;
           destruct (py_slice rt (PStr (text r)) 150); reflexivity).
    destruct (dict_get d (u "message")) as [v|];
      rewrite run_bind, run_lift;
      match goal with |- context [py_slice rt ?x 150] =>
        destruct (py_slice rt x 150) end; reflexivity.
  - rewrite run_bind, run_lift.
    destruct (py_slice rt (PStr (text r)) 150); reflexivity.
Qed.

End RunFacts.

(** ** The token issuer and the prober *)

Section ProbeFacts.

Variable rt : Runtime.
Variable W : Type.
Variable net : Net W.

Lemma get_access_token_run (cid sec : pystr) (s : Exec W) :
  run net (get_access_token rt cid sec) s
  = let ts := fst (net_clock net (world s)) in
    let w1 := snd (net_clock net (world s)) in
    match sign_client_secret rt cid sec ts with
    | Err e => (Err e, {| world := w1; sent := sent s |})
    | Ok sign =>
      (Ok (token_of_answer (fst (net_post net (token_request cid ts sign) w1))),
       {| world := snd (net_post net (token_request cid ts sign) w1);
          sent := sent s ++ [token_request cid ts sign] |})
    end.
Proof.
  unfold get_access_token. cbn [bind run].
  destruct (net_clock net (world s)) as [ts w1]. cbn [fst snd run bind].
  rewrite run_bind, run_lift.
  destruct (sign_client_secret rt cid sec ts) as [sign|e]; [|reflexivity].
  rewrite run_try_except, run_bind, run_requests_post. cbn [world sent].
  destruct (net_post net (token_request cid ts sign) w1) as [[r|e] w2];
    cbn [fst snd token_of_answer]; [|reflexivity].
  destruct (status_code r =? 200)%Z; [|reflexivity].
  rewrite run_bind, run_lift. unfold resp_json.
  destruct (json_body r) as [body|]; [|reflexivity].
  rewrite run_lift.
  destruct body; reflexivity.
Qed.

Lemma check_order_in_market_run (m : Market) (oid : pystr) (s : Exec W) :
  run net (check_order_in_market rt m oid) s
  = match run net (get_access_token rt (client_id m) (client_secret m)) s with
    | (Err e, s1) => (Err e, s1)
    | (Ok tok, s1) =>
      if truthy tok then
        (Ok (located rt m tok (fst (net_post net (query_request rt tok oid) (world s1)))),
         {| world := snd (net_post net (query_request rt tok oid) (world s1));
            sent := sent s1 ++ [query_request rt tok oid] |})
      else (Ok None, s1)
    end.
Proof.
  unfold check_order_in_market. rewrite run_bind.
  destruct (run net (get_access_token rt (client_id m) (client_secret m)) s)
    as [[tok|e] s1]; [|reflexivity].
  destruct (truthy tok); [|reflexivity]. cbn [negb].
  rewrite run_try_except, run_bind, run_requests_post.
  destruct (net_post net (query_request rt tok oid) (world s1)) as [[r|e] w2];
    cbn [fst snd located]; [|reflexivity].
  destruct (status_code r =? 200)%Z; [|reflexivity].
  rewrite run_bind, run_lift. unfold resp_json.
  destruct (json_body r) as [body|]; [|reflexivity].
  rewrite run_bind, run_lift.
  destruct body; try reflexivity.
  cbn [py_get].
  set (data := match dict_get d (u "data") with Some v => v | None => PList [] end).
  destruct (truthy data); [|reflexivity].
  rewrite run_bind, run_lift.
  destruct (py_len rt data) as [n|e]; [|reflexivity].
  destruct (n >? 0)%Z; reflexivity.
Qed.

Lemma length_cons_pos {X : Type} (x : X) (l : list X) :
  (Z.of_nat (length (x :: l)) >? 0)%Z = true.
Proof. apply Z.gtb_lt. cbn [length]. lia. Qed.

Lemma located_Some (m : Market) (tok : pyval) (ans : pyres Response) (lr : LocateResult) :
  located rt m tok ans = Some lr
  <-> exists r d,
        ans = Ok r /\ status_code r = 200%Z /\ json_body r = Some (PDict d)
        /\ has_data r
        /\ lr = {| market := m; token := tok; order_data := PDict d |}.
Proof.
  unfold located, has_data. split.
  - destruct ans as [r|e]; [|discriminate].
    destruct (Z.eqb_spec (status_code r) 200) as [E200|_]; [|discriminate].
    destruct (json_body r) as [[| | | | | |d]|] eqn:Ej; try discriminate.
    destruct (dict_get d (u "data")) as [v|] eqn:Ed; [|discriminate].
    destruct (truthy v) eqn:Et; [|discriminate].
    destruct v as [| | | |str|l|d']; cbn [py_len]; try discriminate.
    + destruct str; [discriminate|]. intros [= <-].
      exists r, d. repeat split; auto.
      exists d, (PStr (n :: str)). repeat split; auto.
      constructor. discriminate.
    + destruct l; [discriminate|]. intros [= <-].
      exists r, d. repeat split; auto.
      exists d, (PList (p :: l)). repeat split; auto.
      constructor. discriminate.
    + destruct d'; [discriminate|]. intros [= <-].
      exists r, d. repeat split; auto.
      exists d, (PDict (p :: d')). repeat split; auto.
      constructor. discriminate.
  - intros (r & d & -> & E200 & Ej & (d0 & v & Ej0 & Ed & Hne) & ->).
    rewrite Ej in Ej0. injection Ej0 as <-.
    rewrite E200, Z.eqb_refl, Ej, Ed.
    destruct Hne as [str Hs|l Hl|d' Hd'].
    + destruct str; [contradiction|]. cbn [truthy truthy_str py_len].
      now rewrite length_cons_pos.
    + destruct l; [contradiction|]. cbn [truthy py_len].
      now rewrite length_cons_pos.
    + destruct d'; [contradiction|]. cbn [truthy py_len].
      now rewrite length_cons_pos.
Qed.

End ProbeFacts.

(** ** Examples, by evaluation *)

Example token_for_owner :
  fst (run (scripted marketplace)
           (get_access_token example_runtime (u "id-owner") salt_1) start)
  = Ok (PStr (u "tok-owner")).
Proof. vm_compute. reflexivity. Qed.

Example token_for_locked :
  fst (run (scripted marketplace)
           (get_access_token example_runtime (u "id-locked") salt_1) start)
  = Ok PNone.
Proof. vm_compute. reflexivity. Qed.

Example probe_owner :
  fst (run (scripted marketplace)
           (check_order_in_market example_runtime owner_store (u "1001")) start)
  = Ok (Some {| market := owner_store;
                token := PStr (u "tok-owner");
                order_data := PDict [(u "data", PList [order_1001])] |}).
Proof. vm_compute. reflexivity. Qed.

Example probe_other_order :
  fst (run (scripted marketplace)
           (check_order_in_market example_runtime owner_store (u "1002")) start)
  = Ok None.
Proof. vm_compute. reflexivity. Qed.

(** ** The dispatch-delay executor *)

Section ExecutorFacts.

Variable rt : Runtime.
Variable W : Type.
Variable net : Net W.

(** X3: for every answer of the network, the executor never raises and
    sends exactly one request; a 200 gives a success whose message
    names the reason code; any other status gives a failure, and when the
    body's [message] entry is a string, the message carries the status code
    and the first 150 characters of that string; an exception of the
    transport gives a failure that carries its description. *)
Lemma execute_delay_dispatch_outcomes (tok : pyval) (oid due reason : pystr) (s : Exec W) :
  let rq := delay_request rt tok oid due reason in
  let ans := fst (net_post net rq (world s)) in
  exists out,
    run net (execute_delay_dispatch rt tok oid due reason) s
    = (Ok out, {| world := snd (net_post net rq (world s)); sent := sent s ++ [rq] |})
    /\ (forall r, ans = Ok r -> status_code r = 200%Z ->
          success out = true
          /\ message out = u "발송지연 처리 완료 (" ++ get_delay_reason_code reason ++ u ")"
          /\ py_in (get_delay_reason_code reason) (message out) = true)
    /\ (forall r, ans = Ok r -> status_code r <> 200%Z -> success out = false)
    /\ (forall r d m, ans = Ok r -> status_code r <> 200%Z ->
          json_body r = Some (PDict d) -> dict_get d (u "message") = Some (PStr m) ->
          message out = u "API 오류 (" ++ str_int (status_code r) ++ u "): " ++ firstn 150 m
          /\ py_in (str_int (status_code r)) (message out) = true
          /\ py_in (firstn 150 m) (message out) = true
          /\ (length (firstn 150 m) <= 150)%nat)
    /\ (forall e, ans = Err e ->
          success out = false /\ message out = u "요청 오류: " ++ exc_str e).
Proof.
  intros rq ans. rewrite execute_delay_dispatch_run. fold rq. fold ans.
  eexists. split; [reflexivity|].
  split.
  { intros r -> E200. rewrite E200. cbn [Z.eqb Pos.eqb success message].
    repeat split. apply py_in_middle. }
  split.
  { intros r -> Hne. apply Z.eqb_neq in Hne. rewrite Hne.
    destruct (py_slice rt (api_error_text r) 150); reflexivity. }
  split.
  { intros r d m -> Hne Ej Em. apply Z.eqb_neq in Hne. rewrite Hne.
    unfold api_error_text. rewrite Ej, Em. cbn [py_slice py_format message].
    split; [reflexivity|].
    split; [apply py_in_middle|].
    split.
    - do 3 apply py_in_app_r. apply py_in_refl.
    - apply firstn_le_length. }
  intros e ->. split; reflexivity.
Qed.

(** C10: a rejected mutation whose body is not JSON, or is a JSON object
    without a [message] entry, gives a failure outcome (no exception) whose
    message is the status code followed by the first 150 characters of the
    raw body. *)
Theorem execute_delay_dispatch_raw_body
  (tok : pyval) (oid due reason : pystr) (s : Exec W) (r : Response) :
  fst (net_post net (delay_request rt tok oid due reason) (world s)) = Ok r ->
  status_code r <> 200%Z ->
  (json_body r = None
   \/ exists d, json_body r = Some (PDict d) /\ dict_get d (u "message") = None) ->
  run net (execute_delay_dispatch rt tok oid due reason) s
  = (Ok {| success := false;
           message := u "API 오류 (" ++ str_int (status_code r) ++ u "): "
                        ++ firstn 150 (text r) |},
     {| world := snd (net_post net (delay_request rt tok oid due reason) (world s));
        sent := sent s ++ [delay_request rt tok oid due reason] |}).
Proof.
  intros Hans Hne Hbody. rewrite execute_delay_dispatch_run, Hans.
  apply Z.eqb_neq in Hne. rewrite Hne.
  assert (E : api_error_text r = PStr (text r)).
  { unfold api_error_text.
    destruct Hbody as [-> | (d & -> & ->)]; reflexivity. }
  rewrite E. reflexivity.
Qed.

(** C8: the one request the executor sends carries, as [dispatchDueDate],
    the due date followed by the literal T23:59:59.000+09:00; for
    2025-12-31 that is 2025-12-31T23:59:59.000+09:00. *)
Theorem dispatch_due_date_sent (tok : pyval) (oid due reason : pystr) (s : Exec W) :
  sent (snd (run net (execute_delay_dispatch rt tok oid due reason) s))
  = sent s ++ [delay_request rt tok oid due reason]
  /\ (exists d,
         req_json (delay_request rt tok oid due reason) = Some (PDict d)
         /\ dict_get d (u "dispatchDueDate")
            = Some (PStr (due ++ u "T23:59:59.000+09:00")))
  /\ iso_date (u "2025-12-31") = u "2025-12-31T23:59:59.000+09:00".
Proof.
  split; [now rewrite execute_delay_dispatch_run|].
  split; [|vm_compute; reflexivity].
  eexists. split; [reflexivity|].
  reflexivity.
Qed.

End ExecutorFacts.

Lemma execute_delay_dispatch_raw_body_witness :
  run (scripted (fun _ => Ok bad_gateway_502))
      (execute_delay_dispatch example_runtime (PStr (u "tok-owner")) (u "1001")
         (u "2025-12-31") (u "기타 사유")) start
  = (Ok {| success := false;
           message := u "API 오류 (" ++ str_int 502 ++ u "): "
                        ++ firstn 150 (text bad_gateway_502) |},
     {| world := 0%nat;
        sent := [delay_request example_runtime (PStr (u "tok-owner")) (u "1001")
                   (u "2025-12-31") (u "기타 사유")] |}).
Proof.
  apply (@execute_delay_dispatch_raw_body example_runtime nat
           (scripted (fun _ => Ok bad_gateway_502))
           (PStr (u "tok-owner")) (u "1001") (u "2025-12-31") (u "기타 사유")
           start bad_gateway_502).
  - reflexivity.
  - discriminate.
  - left. reflexivity.
Defined.

(** The 404 example of the specification. *)
Example execute_not_found :
  fst (run (scripted (fun _ => Ok not_found_404))
           (execute_delay_dispatch example_runtime (PStr (u "tok-owner")) (u "1001")
              (u "2025-12-31") (u "기타 사유")) start)
  = Ok {| success := false; message := u "API 오류 (404): not found" |}.
Proof. vm_compute. reflexivity. Qed.

(** C5 fails on a rejected mutation whose [message] entry is not a string:
    slicing [None] raises outside the inner [try], the outer handler reports
    a request error, and the status code is not in the message. *)
Theorem execute_delay_dispatch_null_message :
  fst (run (scripted (fun _ => Ok null_message_500))
           (execute_delay_dispatch example_runtime (PStr (u "tok-owner")) (u "1001")
              (u "2025-12-31") (u "기타 사유")) start)
  = Ok {| success := false;
          message := u "요청 오류: 'NoneType' object is not subscriptable" |}
  /\ py_in (u "500") (u "요청 오류: 'NoneType' object is not subscriptable") = false
  /\ py_in (u "API 오류") (u "요청 오류: 'NoneType' object is not subscriptable") = false.
Proof. vm_compute. repeat split. Qed.

(** For any interpreter: a [message] entry that cannot be sliced makes the
    outcome the request-error one, built from the exception alone. *)
Lemma execute_delay_dispatch_unsliceable (rt : Runtime) (W : Type) (net : Net W)
  (tok : pyval) (oid due reason : pystr) (s : Exec W) (r : Response)
  (d : list (pystr * pyval)) (v : pyval) (e : pyexc) :
  fst (net_post net (delay_request rt tok oid due reason) (world s)) = Ok r ->
  status_code r <> 200%Z ->
  json_body r = Some (PDict d) ->
  dict_get d (u "message") = Some v ->
  py_slice rt v 150 = Err e ->
  fst (run net (execute_delay_dispatch rt tok oid due reason) s)
  = Ok {| success := false; message := u "요청 오류: " ++ exc_str e |}.
Proof.
  intros Hans Hne Ej Em Hslice. rewrite execute_delay_dispatch_run, Hans.
  apply Z.eqb_neq in Hne. rewrite Hne.
  unfold api_error_text. rewrite Ej, Em, Hslice. reflexivity.
Qed.

(** ** The token issuer *)

(** C7 fails when bcrypt rejects the secret: the signature is computed
    before the [try] statement, and the [ValueError] reaches the caller; no
    request is sent. *)
Theorem get_access_token_raises_on_bad_secret :
  run (scripted marketplace)
      (get_access_token example_runtime (u "id-owner") (u "abc")) start
  = (Err (mkExc (u "ValueError") (u "Invalid salt")),
     {| world := 1%nat; sent := [] |}).
Proof. vm_compute. reflexivity. Qed.

(** X4: an exception of the signing step leaves [get_access_token] as it
    is, and nothing is sent; once the signature is computed, the function
    sends its one token request and returns, whatever the network answers:
    the [access_token] entry of a 200 answer that is a JSON object (or
    [None] without that entry), and [None] for any other status and for a
    failure of the transport. *)
Lemma get_access_token_outcomes (rt : Runtime) (W : Type) (net : Net W)
  (cid sec : pystr) (s : Exec W) :
  (forall e, sign_client_secret rt cid sec (fst (net_clock net (world s))) = Err e ->
     fst (run net (get_access_token rt cid sec) s) = Err e
     /\ sent (snd (run net (get_access_token rt cid sec) s)) = sent s)
  /\ (forall sign,
        sign_client_secret rt cid sec (fst (net_clock net (world s))) = Ok sign ->
        let rq := token_request cid (fst (net_clock net (world s))) sign in
        let ans := fst (net_post net rq (snd (net_clock net (world s)))) in
        fst (run net (get_access_token rt cid sec) s) = Ok (token_of_answer ans)
        /\ sent (snd (run net (get_access_token rt cid sec) s)) = sent s ++ [rq]
        /\ (forall r d, ans = Ok r -> status_code r = 200%Z ->
              json_body r = Some (PDict d) ->
              token_of_answer ans
              = match dict_get d (u "access_token") with Some v => v | None => PNone end)
        /\ (forall r, ans = Ok r -> status_code r <> 200%Z -> token_of_answer ans = PNone)
        /\ (forall e, ans = Err e -> token_of_answer ans = PNone)).
Proof.
  split.
  - intros e He. rewrite get_access_token_run. cbv zeta. rewrite He. now split.
  - intros sign Hs rq ans. rewrite get_access_token_run. cbv zeta. rewrite Hs.
    fold rq. fold ans. cbn [fst snd sent].
    repeat split.
    + intros r d -> E200 Ej. cbn [token_of_answer]. now rewrite E200, Ej.
    + intros r -> Hne. cbn [token_of_answer].
      apply Z.eqb_neq in Hne. now rewrite Hne.
    + now intros e ->.
Qed.

(** ** The account prober *)

(** C6 (as the code has it): the probe returns a populated result exactly
    when the token issuer returns a truthy token, the query is answered with
    status 200 and a JSON object, and the [data] entry of that object has a
    positive length: a non-empty array, and as well a non-empty string or
    object, since the code tests the truth value and the length of the entry
    and never its type. The result then holds the account, the token and the
    answer. When the issuer returns no truthy token the probe returns [None]
    at once: nothing is sent after the token request. A 200 answer with an
    empty [data] array gives [None]. Once the issuer has returned, the probe
    raises nothing. *)
Theorem check_order_in_market_spec (rt : Runtime) (W : Type) (net : Net W)
  (m : Market) (oid : pystr) (s : Exec W) :
  let issue := run net (get_access_token rt (client_id m) (client_secret m)) s in
  let probe := run net (check_order_in_market rt m oid) s in
  let after tok s1 :=
    {| world := snd (net_post net (query_request rt tok oid) (world s1));
       sent := sent s1 ++ [query_request rt tok oid] |} in
  (forall lr s',
      probe = (Ok (Some lr), s')
      <-> exists tok s1 r d,
            issue = (Ok tok, s1) /\ truthy tok = true
            /\ fst (net_post net (query_request rt tok oid) (world s1)) = Ok r
            /\ status_code r = 200%Z
            /\ json_body r = Some (PDict d) /\ has_data r
            /\ lr = {| market := m; token := tok; order_data := PDict d |}
            /\ s' = after tok s1)
  /\ (forall tok s1,
        issue = (Ok tok, s1) -> truthy tok = false -> probe = (Ok None, s1))
  /\ (forall tok s1 r d,
        issue = (Ok tok, s1) -> truthy tok = true ->
        fst (net_post net (query_request rt tok oid) (world s1)) = Ok r ->
        status_code r = 200%Z -> json_body r = Some (PDict d) ->
        dict_get d (u "data") = Some (PList []) ->
        probe = (Ok None, after tok s1))
  /\ (forall tok s1, issue = (Ok tok, s1) -> exists res, fst probe = Ok res).
Proof.
  intros issue probe after. subst issue probe.
  rewrite check_order_in_market_run.
  destruct (run net (get_access_token rt (client_id m) (client_secret m)) s)
    as [[tok|e] s1].
  - split.
    { intros lr s'. destruct (truthy tok) eqn:Et.
      - split.
        + intros [= Hloc <-]. apply located_Some in Hloc as (r & d & Hloc).
          exists tok, s1, r, d. intuition.
        + intros (tok' & s1' & r & d & [= <- <-] & _ & Hans & E200 & Ej & Hd & Hlr & ->).
          assert (Hloc : located rt m tok
                           (fst (net_post net (query_request rt tok oid) (world s1)))
                         = Some lr).
          { apply located_Some. exists r, d. auto. }
          now rewrite Hloc.
      - split; [discriminate|].
        intros (tok' & s1' & r & d & [= <- <-] & Ht & _). congruence. }
    split; [intros tok' s1' [= <- <-] Ht; now rewrite Ht|].
    split.
    { intros tok' s1' r d [= <- <-] Ht Hans E200 Ej Ed. rewrite Ht, Hans.
      cbn [located]. rewrite E200, Ej, Ed. reflexivity. }
    intros tok' s1' _. destruct (truthy tok); eexists; reflexivity.
  - split.
    { intros lr s'. split; [discriminate|].
      intros (tok' & s1' & r & d & [=] & _). }
    split; [intros tok' s1' [=]|].
    split; [intros tok' s1' r d [=]|].
    intros tok' s1' [=].
Qed.

Lemma check_order_in_market_spec_witness :
  run (scripted marketplace)
      (check_order_in_market example_runtime locked_store (u "1001")) start
  = (Ok None,
     snd (run (scripted marketplace)
              (get_access_token example_runtime (u "id-locked") salt_1) start)).
Proof.
  refine (proj1 (proj2
    (@check_order_in_market_spec example_runtime nat (scripted marketplace)
       locked_store (u "1001") start)) PNone _ _ _).
  - vm_compute. reflexivity.
  - reflexivity.
Defined.

(** C6 as stated fails: to a 200 answer whose [data] entry is the string
    ["x"], which is no array, the probe returns a populated result. *)
Lemma check_order_in_market_data_not_array :
  exists tok s1 lr,
    run (scripted string_data_marketplace)
        (get_access_token example_runtime (client_id owner_store)
           (client_secret owner_store)) start = (Ok tok, s1)
    /\ fst (net_post (scripted string_data_marketplace)
              (query_request example_runtime tok (u "1001")) (world s1))
       = Ok string_data_200
    /\ status_code string_data_200 = 200%Z
    /\ ~ data_array_nonempty string_data_200
    /\ fst (run (scripted string_data_marketplace)
              (check_order_in_market example_runtime owner_store (u "1001")) start)
       = Ok (Some lr)
    /\ order_data lr = PDict [(u "data", PStr (u "x"))].
Proof.
  eexists. eexists. eexists.
  split; [vm_compute; reflexivity|].
  split; [vm_compute; reflexivity|].
  split; [reflexivity|].
  split.
  { intros (d & l & Ej & Ed & _).
    vm_compute in Ej. injection Ej as <-.
    vm_compute in Ed. discriminate. }
  split; vm_compute; reflexivity.
Qed.

(** ** What programs yield *)

Section YieldFacts.

Variable ok : Request -> pyres Response -> Prop.

Lemma yields_ret_inv {A : Type} (a : A) (r : pyres A) :
  yields ok (Ret a) r -> r = Ok a.
Proof. intros H. inversion H. reflexivity. Qed.

Lemma yields_raise_inv {A : Type} (e : pyexc) (r : pyres A) :
  yields ok (Raise e) r -> r = Err e.
Proof. intros H. inversion H. reflexivity. Qed.

Lemma yields_clock_inv {A : Type} (k : Z -> Prog A) (r : pyres A) :
  yields ok (Clock k) r -> exists t, yields ok (k t) r.
Proof. intros H. inversion H; subst. eauto. Qed.

Lemma yields_post_inv {A : Type} (rq : Request) (k : pyres Response -> Prog A)
  (r : pyres A) :
  yields ok (Post rq k) r -> exists ans, ok rq ans /\ yields ok (k ans) r.
Proof. intros H. inversion H; subst. eauto. Qed.

Lemma yields_lift_inv {A : Type} (x r : pyres A) : yields ok (lift x) r -> r = x.
Proof.
  destruct x; simpl; intros H.
  - now apply yields_ret_inv in H.
  - now apply yields_raise_inv in H.
Qed.

Lemma yields_bind_inv {A B : Type} (p : Prog A) (f : A -> Prog B) (r : pyres B) :
  yields ok (bind p f) r ->
  (exists a, yields ok p (Ok a) /\ yields ok (f a) r)
  \/ (exists e, yields ok p (Err e) /\ r = Err e).
Proof.
  induction p as [a|e|k IH|rq k IH]; simpl; intros H.
  - left. exists a. split; [constructor | exact H].
  - right. exists e. split; [constructor | now apply yields_raise_inv in H].
  - apply yields_clock_inv in H as [t H].
    destruct (IH t H) as [(a & Ha & Hf)|(e & He & ->)].
    + left. exists a. split; [econstructor; eassumption | exact Hf].
    + right. exists e. split; [econstructor; eassumption | reflexivity].
  - apply yields_post_inv in H as (ans & Hok & H).
    destruct (IH ans H) as [(a & Ha & Hf)|(e & He & ->)].
    + left. exists a. split; [econstructor; eassumption | exact Hf].
    + right. exists e. split; [econstructor; eassumption | reflexivity].
Qed.

Lemma yields_try_except_inv {A : Type} (p : Prog A) (h : pyexc -> Prog A) (r : pyres A) :
  yields ok (try_except p h) r ->
  (exists a, yields ok p (Ok a) /\ r = Ok a)
  \/ (exists e, yields ok p (Err e) /\ yields ok (h e) r).
Proof.
  induction p as [a|e|k IH|rq k IH]; simpl; intros H.
  - left. exists a. split; [constructor | now apply yields_ret_inv in H].
  - right. exists e. split; [constructor | exact H].
  - apply yields_clock_inv in H as [t H].
    destruct (IH t H) as [(a & Ha & ->)|(e & He & Hh)].
    + left. exists a. split; [econstructor; eassumption | reflexivity].
    + right. exists e. split; [econstructor; eassumption | exact Hh].
  - apply yields_post_inv in H as (ans & Hok & H).
    destruct (IH ans H) as [(a & Ha & ->)|(e & He & Hh)].
    + left. exists a. split; [econstructor; eassumption | reflexivity].
    + right. exists e. split; [econstructor; eassumption | exact Hh].
Qed.

(** A [try] whose handler returns a value yields a value. *)
Lemma yields_try_except_total {A : Type} (p : Prog A) (d : A) (r : pyres A) :
  yields ok (try_except p (fun _ => Ret d)) r -> exists a, r = Ok a.
Proof.
  intros H. apply yields_try_except_inv in H as [(a & _ & ->)|(e & _ & H)].
  - now exists a.
  - apply yields_ret_inv in H. now exists d.
Qed.

End YieldFacts.

Section ProbeYields.

Variable ok : Request -> pyres Response -> Prop.
Variable rt : Runtime.

(** Evaluation of the monadic plumbing inside a hypothesis [H : yields ...]. *)
Ltac plumb H := cbn [lift bind try_except requests_post negb] in H.

Lemma get_access_token_yields (cid sec : pystr) (r : pyres pyval) :
  yields ok (get_access_token rt cid sec) r ->
  exists ts,
    (exists e, sign_client_secret rt cid sec ts = Err e /\ r = Err e)
    \/ (exists sign ans,
           sign_client_secret rt cid sec ts = Ok sign
           /\ ok (token_request cid ts sign) ans
           /\ r = Ok (token_of_answer ans)).
Proof.
  unfold get_access_token. intros H. plumb H.
  apply yields_clock_inv in H as [ts H]. exists ts.
  destruct (sign_client_secret rt cid sec ts) as [sign|e]; plumb H.
  - right. apply yields_post_inv in H as (ans & Hok & H).
    exists sign, ans. split; [reflexivity|]. split; [exact Hok|].
    destruct ans as [resp|e]; plumb H; cbn [token_of_answer].
    + destruct (status_code resp =? 200)%Z; plumb H;
        [|now apply yields_ret_inv in H].
      unfold resp_json in H.
      destruct (json_body resp) as [body|]; plumb H;
        [|now apply yields_ret_inv in H].
      destruct body; cbn [py_get] in H; plumb H;
        now apply yields_ret_inv in H.
    + now apply yields_ret_inv in H.
  - left. exists e. split; [reflexivity|]. now apply yields_raise_inv in H.
Qed.

Lemma query_yields (m : Market) (tok : pyval) (oid : pystr)
  (ans : pyres Response) (r : pyres (option LocateResult)) :
  yields ok
    (try_except
       (bind (lift ans) (fun r =>
          if (status_code r =? 200)%Z then
            response <- lift (resp_json rt r) ;;
            data <- lift (py_get rt response (u "data") (PList [])) ;;
            if truthy data then
              n <- lift (py_len rt data) ;;
              if (n >? 0)%Z then
                Ret (Some {| market := m; token := tok; order_data := response |})
              else Ret None
            else Ret None
          else Ret None))
       (fun _ => Ret None)) r ->
  r = Ok (located rt m tok ans).
Proof.
  intros H. destruct ans as [resp|e]; plumb H; cbn [located];
    [|now apply yields_ret_inv in H].
  destruct (status_code resp =? 200)%Z; plumb H;
    [|now apply yields_ret_inv in H].
  unfold resp_json in H.
  destruct (json_body resp) as [body|]; plumb H;
    [|now apply yields_ret_inv in H].
  destruct body; cbn [py_get] in H; plumb H;
    try (now apply yields_ret_inv in H).
  set (data := match dict_get d (u "data") with Some v => v | None => PList [] end) in *.
  destruct (truthy data); plumb H; [|now apply yields_ret_inv in H].
  destruct (py_len rt data) as [n|e]; plumb H;
    [|now apply yields_ret_inv in H].
  destruct (n >? 0)%Z; now apply yields_ret_inv in H.
Qed.

Lemma check_order_in_market_yields (m : Market) (oid : pystr)
  (r : pyres (option LocateResult)) :
  yields ok (check_order_in_market rt m oid) r ->
  exists ts,
    (exists e,
        sign_client_secret rt (client_id m) (client_secret m) ts = Err e /\ r = Err e)
    \/ (exists sign ans,
           sign_client_secret rt (client_id m) (client_secret m) ts = Ok sign
           /\ ok (token_request (client_id m) ts sign) ans
           /\ ((truthy (token_of_answer ans) = false /\ r = Ok None)
               \/ (truthy (token_of_answer ans) = true
                   /\ exists ans2,
                       ok (query_request rt (token_of_answer ans) oid) ans2
                       /\ r = Ok (located rt m (token_of_answer ans) ans2)))).
Proof.
  unfold check_order_in_market. intros H.
  apply yields_bind_inv in H as [(tok & Htok & H)|(e & Htok & ->)];
    apply get_access_token_yields in Htok as [ts Htok]; exists ts.
  - destruct Htok as [(e & _ & [=])|(sign & ans & Hs & Hok & [= ->])].
    right. exists sign, ans. split; [exact Hs|]. split; [exact Hok|].
    destruct (truthy (token_of_answer ans)); plumb H.
    + right. split; [reflexivity|].
      apply yields_post_inv in H as (ans2 & Hok2 & H).
      exists ans2. split; [exact Hok2|].
      now apply query_yields in H.
    + left. split; [reflexivity|]. now apply yields_ret_inv in H.
  - destruct Htok as [(e' & Hs & [= ->])|(sign & ans & _ & _ & [=])].
    left. now exists e'.
Qed.

(** A populated result names the probed account. *)
Lemma check_order_in_market_names_account (m : Market) (oid : pystr) (lr : LocateResult) :
  yields ok (check_order_in_market rt m oid) (Ok (Some lr)) -> market lr = m.
Proof.
  intros H. apply check_order_in_market_yields in H as [ts H].
  destruct H as [(e & _ & [=])|(sign & ans & _ & _ & H)].
  destruct H as [[_ [=]]|(_ & ans2 & _ & [= Hloc])].
  symmetry in Hloc. apply located_Some in Hloc as (r & d & _ & _ & _ & _ & ->).
  reflexivity.
Qed.

(** With a secret that can be signed with, the probe raises nothing. *)
Lemma check_order_in_market_returns (m : Market) (oid : pystr)
  (r : pyres (option LocateResult)) :
  signs rt m ->
  yields ok (check_order_in_market rt m oid) r -> exists res, r = Ok res.
Proof.
  intros Hsigns H. apply check_order_in_market_yields in H as [ts H].
  destruct H as [(e & Hs & _)|(sign & ans & _ & _ & H)].
  - destruct (Hsigns ts) as [sign Hsign]. congruence.
  - destruct H as [[_ ->]|(_ & ans2 & _ & ->)]; eexists; reflexivity.
Qed.

End ProbeYields.

(** ** The thread pool *)

Lemma remove_at_In {X : Type} (k : nat) (l : list X) (x : X) :
  In x (remove_at k l) -> In x l.
Proof.
  unfold remove_at. revert k; induction l as [|y l IH]; intros k H.
  - destruct k; simpl in H; contradiction.
  - destruct k; cbn [firstn skipn app] in H.
    + now right.
    + destruct H as [<-|H]; [now left | right; exact (IH k H)].
Qed.

Lemma replace_at_In {X : Type} (k : nat) (y : X) (l : list X) (x : X) :
  In x (replace_at k y l) -> x = y \/ In x l.
Proof.
  unfold replace_at. revert k; induction l as [|z l IH]; intros k H.
  - destruct k; cbn [firstn skipn app] in H; destruct H as [<-|[]]; now left.
  - destruct k; cbn [firstn skipn app] in H.
    + destruct H as [<-|H]; [now left | right; now right].
    + destruct H as [<-|H]; [right; now left|].
      destruct (IH k H) as [->|Hin]; [now left | right; now right].
Qed.

Lemma remove_at_Permutation {X : Type} (k : nat) (l : list X) (x : X) :
  nth_error l k = Some x -> Permutation l (x :: remove_at k l).
Proof.
  unfold remove_at. revert k; induction l as [|y l IH]; intros k H.
  - destruct k; discriminate.
  - destruct k; cbn [nth_error firstn skipn app] in *.
    + injection H as ->. apply Permutation_refl.
    + eapply Permutation_trans; [apply perm_skip, (IH k H)|]. apply perm_swap.
Qed.

Lemma replace_at_fst {X Y : Type} (k : nat) (i : X) (p p' : Y) (l : list (X * Y)) :
  nth_error l k = Some (i, p) ->
  map fst (replace_at k (i, p') l) = map fst l.
Proof.
  unfold replace_at. revert k; induction l as [|y l IH]; intros k H.
  - destruct k; discriminate.
  - destruct k; cbn [nth_error firstn skipn app map] in *.
    + injection H as ->. reflexivity.
    + f_equal. exact (IH k H).
Qed.

Section PoolFacts.

Variable W : Type.
Variable net : Net W.

Lemma run_yields {A : Type} (p : Prog A) (s : Exec W) :
  yields (answers net) p (fst (run net p s)).
Proof.
  revert s; induction p as [a|e|k IH|rq k IH]; intros s; simpl.
  - constructor.
  - constructor.
  - destruct (net_clock net (world s)) as [t w]. econstructor. apply IH.
  - destruct (net_post net rq (world s)) as [r w] eqn:E.
    econstructor; [|apply IH].
    exists (world s). now rewrite E.
Qed.

Lemma turn_finished {R : Type} (p : Prog R) (s : Exec W) (r : pyres R) :
  turn net p s = Finished r -> yields (answers net) p r.
Proof.
  destruct p as [a|e|k|rq k]; simpl.
  - intros [= <-]. constructor.
  - intros [= <-]. constructor.
  - destruct (net_clock net (world s)). discriminate.
  - destruct (net_post net rq (world s)). discriminate.
Qed.

Lemma turn_running {R : Type} (p p' : Prog R) (s s1 : Exec W) (r : pyres R) :
  turn net p s = Running p' s1 ->
  yields (answers net) p' r -> yields (answers net) p r.
Proof.
  destruct p as [a|e|k|rq k]; simpl; try discriminate.
  - destruct (net_clock net (world s)) as [t w]. intros [= <- _] H.
    econstructor. exact H.
  - destruct (net_post net rq (world s)) as [ans w] eqn:E. intros [= <- _] H.
    econstructor; [|exact H]. exists (world s). now rewrite E.
Qed.

Lemma drain_spec {R : Type} (live : list (nat * Prog R)) (s : Exec W) :
  map fst (fst (drain net live s)) = map fst live
  /\ forall i r, In (i, r) (fst (drain net live s)) ->
       exists p, In (i, p) live /\ yields (answers net) p r.
Proof.
  revert s; induction live as [|[i0 p0] live IH]; intros s; cbn [drain].
  - split; [reflexivity | intros i r []].
  - pose proof (run_yields p0 s) as Hy.
    destruct (run net p0 s) as [r0 s1]. cbn [fst] in Hy.
    specialize (IH s1). destruct (drain net live s1) as [done s2].
    cbn [fst map] in *. destruct IH as [IH1 IH2].
    split; [now rewrite IH1|].
    intros i r [[= <- <-]|Hin].
    + exists p0. split; [now left | exact Hy].
    + destruct (IH2 i r Hin) as (p & Hp & Hyp).
      exists p. split; [now right | exact Hyp].
Qed.

(** Every submitted task finishes exactly once, and with an outcome its
    program can yield on this network. *)
Lemma run_pool_spec {R : Type} (sched : list nat) (live : list (nat * Prog R))
  (s : Exec W) :
  Permutation (map fst (fst (run_pool net sched live s))) (map fst live)
  /\ forall i r, In (i, r) (fst (run_pool net sched live s)) ->
       exists p, In (i, p) live /\ yields (answers net) p r.
Proof.
  revert live s; induction sched as [|c sched IH]; intros live s; cbn [run_pool].
  - destruct (drain_spec live s) as [H1 H2]. rewrite H1. split; [reflexivity | exact H2].
  - set (k := (c mod Nat.min MAX_WORKERS (length live))%nat).
    destruct (nth_error live k) as [[i0 p0]|] eqn:Enth.
    + destruct (turn net p0 s) as [r0|p' s1] eqn:Eturn.
      * specialize (IH (remove_at k live) s).
        destruct (run_pool net sched (remove_at k live) s) as [done s'].
        cbn [fst map] in *. destruct IH as [IH1 IH2]. split.
        -- eapply Permutation_trans; [apply perm_skip, IH1|].
           apply Permutation_sym.
           exact (Permutation_map fst (remove_at_Permutation k live Enth)).
        -- intros i r [[= <- <-]|Hin].
           ++ exists p0. split; [exact (nth_error_In _ _ Enth)|].
              exact (turn_finished _ _ Eturn).
           ++ destruct (IH2 i r Hin) as (p & Hp & Hy).
              exists p. split; [exact (remove_at_In _ _ _ Hp) | exact Hy].
      * specialize (IH (replace_at k (i0, p') live) s1).
        destruct IH as [IH1 IH2]. split.
        -- now rewrite (replace_at_fst k p' live Enth) in IH1.
        -- intros i r Hin. destruct (IH2 i r Hin) as (p & Hp & Hy).
           apply replace_at_In in Hp as [[= -> ->]|Hp].
           ++ exists p0. split; [exact (nth_error_In _ _ Enth)|].
              exact (turn_running _ _ Eturn Hy).
           ++ exists p. split; [exact Hp | exact Hy].
    + destruct (drain_spec live s) as [H1 H2]. rewrite H1.
      split; [reflexivity | exact H2].
Qed.

End PoolFacts.

(** ** The locator *)

Lemma combine_seq_fst {X Y : Type} (f : X -> Y) (l : list X) (a : nat) :
  map fst (combine (seq a (length l)) (map f l)) = seq a (length l).
Proof.
  revert a; induction l as [|x l IH]; intros a; cbn [length seq map combine fst].
  - reflexivity.
  - now rewrite IH.
Qed.

Lemma combine_seq_In {X Y : Type} (f : X -> Y) (l : list X) (a i : nat) (y : Y) :
  In (i, y) (combine (seq a (length l)) (map f l)) ->
  exists x, nth_error l (i - a) = Some x /\ (a <= i)%nat /\ y = f x.
Proof.
  revert a; induction l as [|x l IH]; intros a; cbn [length seq map combine].
  - intros [].
  - intros [[= <- <-]|H].
    + exists x. rewrite Nat.sub_diag. auto.
    + destruct (IH (S a) H) as (x' & Hnth & Hle & ->).
      exists x'. split; [|split; [lia | reflexivity]].
      replace (i - a)%nat with (S (i - S a)) by lia. exact Hnth.
Qed.

Lemma probes_In (rt : Runtime) (markets : list Market) (oid : pystr)
  (i : nat) (p : Prog (option LocateResult)) :
  In (i, p) (probes rt markets oid) ->
  exists m, nth_error markets i = Some m /\ p = check_order_in_market rt m oid.
Proof.
  unfold probes. intros H.
  apply (combine_seq_In (fun market => check_order_in_market rt market oid)) in H
    as (m & Hnth & _ & ->).
  rewrite Nat.sub_0_r in Hnth. now exists m.
Qed.

Lemma first_result_none {R : Type} (done : list (nat * pyres (option R))) :
  (forall j x, In (j, x) done -> x = Ok None) -> first_result done = Ok None.
Proof.
  induction done as [|[j x] done IH]; intros H; cbn [first_result].
  - reflexivity.
  - rewrite (H j x) by now left.
    apply IH. intros j' x' Hin. apply (H j' x'). now right.
Qed.

Lemma first_result_owner {R : Type} (done : list (nat * pyres (option R)))
  (owner : nat) (lr : R) :
  NoDup (map fst done) ->
  In (owner, Ok (Some lr)) done ->
  (forall j x, In (j, x) done -> j <> owner -> x = Ok None) ->
  first_result done = Ok (Some lr).
Proof.
  induction done as [|[j x] done IH]; intros Hnd Hin Hothers; [contradiction|].
  cbn [map fst] in Hnd. inversion Hnd as [|? ? Hnotin Hnd']; subst.
  cbn [first_result].
  destruct Hin as [[= -> ->]|Hin]; [reflexivity|].
  assert (Hj : j <> owner).
  { intros ->. apply Hnotin. apply (in_map fst) in Hin. exact Hin. }
  rewrite (Hothers j x) by (now left || exact Hj).
  apply IH; [exact Hnd' | exact Hin|].
  intros j' x' Hin' Hne. apply (Hothers j' x'); [now right | exact Hne].
Qed.

Lemma first_result_all_ok {R : Type} (done : list (nat * pyres (option R))) :
  (forall j x, In (j, x) done -> exists res, x = Ok res) ->
  exists res, first_result done = Ok res.
Proof.
  induction done as [|[j x] done IH]; intros H; cbn [first_result].
  - now exists None.
  - destruct (H j x) as [[lr|] ->]; [now left | now exists (Some lr) |].
    apply IH. intros j' x' Hin. apply (H j' x'). now right.
Qed.

Section LocatorFacts.

Variable rt : Runtime.
Variable W : Type.
Variable net : Net W.

(** The outcome of a probe of the pool is one its account's probe yields. *)
Lemma pool_outcome (sched : list nat) (markets : list Market) (oid : pystr)
  (s : Exec W) (j : nat) (x : pyres (option LocateResult)) :
  In (j, x) (fst (run_pool net sched (probes rt markets oid) s)) ->
  exists m, nth_error markets j = Some m
            /\ yields (answers net) (check_order_in_market rt m oid) x.
Proof.
  intros Hin.
  destruct (run_pool_spec net sched (probes rt markets oid) s) as [_ Hy].
  destruct (Hy j x Hin) as (p & Hp & Hyp).
  apply probes_In in Hp as (m & Hnth & ->). now exists m.
Qed.

(** Every submitted probe finishes exactly once. *)
Lemma pool_finishes_each_once (sched : list nat) (markets : list Market)
  (oid : pystr) (s : Exec W) :
  Permutation (map fst (fst (run_pool net sched (probes rt markets oid) s)))
              (seq 0 (length markets)).
Proof.
  destruct (run_pool_spec net sched (probes rt markets oid) s) as [Hp _].
  unfold probes in Hp at 2.
  now rewrite (combine_seq_fst (fun market => check_order_in_market rt market oid))
    in Hp.
Qed.

Lemma token_always_fails_none (m : Market) (oid : pystr)
  (x : pyres (option LocateResult)) :
  token_always_fails rt net m ->
  yields (answers net) (check_order_in_market rt m oid) x -> x = Ok None.
Proof.
  intros [Hsigns Hfails] Hy.
  apply check_order_in_market_yields in Hy as [ts Hy].
  destruct Hy as [(e & Hs & _)|(sign & ans & _ & [w Hans] & Hy)].
  - destruct (Hsigns ts) as [sign Hsign]. congruence.
  - destruct Hy as [[_ ->]|(Htruthy & _)]; [reflexivity|].
    rewrite <- Hans, Hfails in Htruthy. discriminate.
Qed.

(** X1: whatever the scheduler does and however the accounts are listed, every
    probe finishes once; when the probe of one account yields a populated
    result and every other probe yields none (in particular the probe of an
    account whose token request is never granted), the locator returns that
    result, and its account is the owner; when every probe yields none, the
    locator returns none. Nothing is said of a probe that raises. *)
Lemma find_order_parallel_owner (sched : list nat) (markets : list Market)
  (oid : pystr) (s : Exec W) :
  let done := fst (run_pool net sched (probes rt markets oid) s) in
  let s' := snd (run_pool net sched (probes rt markets oid) s) in
  Permutation (map fst done) (seq 0 (length markets))
  /\ (forall owner lr,
        In (owner, Ok (Some lr)) done ->
        (forall j x, In (j, x) done -> j <> owner ->
           x = Ok None
           \/ exists mj, nth_error markets j = Some mj
                         /\ token_always_fails rt net mj) ->
        find_order_parallel rt net sched markets oid s = (Ok (Some lr), s')
        /\ nth_error markets owner = Some (market lr))
  /\ ((forall j x, In (j, x) done -> x = Ok None) ->
        find_order_parallel rt net sched markets oid s = (Ok None, s'))
  /\ (forall j mj x,
        nth_error markets j = Some mj -> token_always_fails rt net mj ->
        In (j, x) done -> x = Ok None).
Proof.
  intros done s'.
  assert (Hperm : Permutation (map fst done) (seq 0 (length markets)))
    by apply pool_finishes_each_once.
  assert (Hfail : forall j mj x,
             nth_error markets j = Some mj -> token_always_fails rt net mj ->
             In (j, x) done -> x = Ok None).
  { intros j mj x Hnth Hf Hin.
    apply pool_outcome in Hin as (m & Hnth' & Hy).
    rewrite Hnth in Hnth'. injection Hnth' as <-.
    exact (token_always_fails_none Hf Hy). }
  assert (Hfind : find_order_parallel rt net sched markets oid s
                  = (first_result done, s')).
  { unfold find_order_parallel, done, s'.
    now destruct (run_pool net sched (probes rt markets oid) s). }
  split; [exact Hperm|].
  split.
  { intros owner lr Hin Hothers. rewrite Hfind. split.
    - f_equal. apply first_result_owner with (owner := owner).
      + apply (Permutation_NoDup (Permutation_sym Hperm)), seq_NoDup.
      + exact Hin.
      + intros j x Hjx Hne.
        destruct (Hothers j x Hjx Hne) as [->|(mj & Hnth & Hf)]; [reflexivity|].
        exact (Hfail j mj x Hnth Hf Hjx).
    - apply pool_outcome in Hin as (m & Hnth & Hy).
      apply check_order_in_market_names_account in Hy. now rewrite Hy. }
  split; [|exact Hfail].
  intros Hnone. rewrite Hfind. f_equal. now apply first_result_none.
Qed.

End LocatorFacts.

(** ** Signing in the example interpreter *)

Lemma utf8_bytes_small (s : pystr) :
  below_surrogates s = true -> exists b, utf8_bytes s = Some b.
Proof.
  unfold below_surrogates.
  induction s as [|c s IH]; cbn [utf8_bytes forallb]; intros H.
  - now exists [].
  - apply andb_prop in H as [Hc Hs]. destruct (IH Hs) as [b ->].
    destruct (c <? 128)%N; [eexists; reflexivity|].
    destruct (c <? 2048)%N; [eexists; reflexivity|].
    assert (E : (55296 <=? c)%N = false)
      by (apply N.leb_gt; apply N.ltb_lt; exact Hc).
    rewrite E. cbn [andb].
    destruct (c <? 65536)%N; eexists; reflexivity.
Qed.

Lemma below_surrogates_app (a b : pystr) :
  below_surrogates a = true -> below_surrogates b = true ->
  below_surrogates (a ++ b) = true.
Proof.
  unfold below_surrogates. intros Ha Hb. rewrite forallb_app, Ha, Hb. reflexivity.
Qed.

Lemma str_int_small (z : Z) : below_surrogates (str_int z) = true.
Proof.
  unfold below_surrogates, str_int. apply forallb_forall. intros c Hin.
  apply in_map_iff in Hin as (a & <- & _).
  pose proof (N_ascii_bounded a). apply N.ltb_lt. lia.
Qed.

(** In the example interpreter, signing depends on the secret only: it
    succeeds exactly when the stripped secret is a well-formed salt. *)
Lemma sign_client_secret_example (cid sec : pystr) (ts : Z) (salt : bytes) :
  below_surrogates cid = true ->
  utf8_bytes (strip sec) = Some salt ->
  sign_client_secret example_runtime cid sec ts
  = if bcrypt_salt_ok salt
    then Ok (utf8_decode (b64encode (firstn 29 salt ++ repeat 46%N 31)))
    else Err (mkExc (u "ValueError") (u "Invalid salt")).
Proof.
  intros Hcid Esalt.
  assert (Hpwd : below_surrogates (cid ++ u "_" ++ str_int ts) = true).
  { apply below_surrogates_app; [exact Hcid|].
    apply below_surrogates_app; [reflexivity | apply str_int_small]. }
  destruct (utf8_bytes_small _ Hpwd) as [pwd Epwd].
  unfold sign_client_secret, encode_utf8. rewrite Epwd, Esalt.
  cbn [hashpw example_runtime].
  destruct (bcrypt_salt_ok salt); reflexivity.
Qed.

(** Signing with a store of the examples, by evaluation of the salt check. *)
Ltac sign_example :=
  eapply eq_trans;
  [ eapply sign_client_secret_example; vm_compute; reflexivity
  | vm_compute; reflexivity ].

Lemma mistyped_store_unsigned (ts : Z) :
  sign_client_secret example_runtime (client_id mistyped_store)
    (client_secret mistyped_store) ts
  = Err (mkExc (u "ValueError") (u "Invalid salt")).
Proof. sign_example. Qed.

Lemma owner_store_signs : signs example_runtime owner_store.
Proof. intros ts. eexists. sign_example. Qed.

Lemma locked_store_token_fails :
  token_always_fails example_runtime (scripted marketplace) locked_store.
Proof.
  split.
  - intros ts. eexists. sign_example.
  - intros ts sign w. vm_compute. reflexivity.
Qed.

Example find_order_parallel_example :
  find_order_parallel example_runtime (scripted marketplace) [1; 0; 1; 1; 0; 0; 0; 1]%nat
    [locked_store; owner_store] (u "1001") start
  = (Ok (Some {| market := owner_store;
                 token := PStr (u "tok-owner");
                 order_data := PDict [(u "data", PList [order_1001])] |}),
     snd (run_pool (scripted marketplace) [1; 0; 1; 1; 0; 0; 0; 1]%nat
            (probes example_runtime [locked_store; owner_store] (u "1001")) start))
  /\ nth_error [locked_store; owner_store] 1 = Some owner_store.
Proof.
  refine (proj1 (proj2
    (@find_order_parallel_owner example_runtime nat (scripted marketplace)
       [1; 0; 1; 1; 0; 0; 0; 1]%nat [locked_store; owner_store] (u "1001") start))
    1%nat _ _ _).
  - vm_compute. right. left. reflexivity.
  - intros j x Hin Hne.
    right. exists locked_store. split; [|exact locked_store_token_fails].
    vm_compute in Hin.
    destruct Hin as [[= <- _]|[[= <- _]|[]]]; [reflexivity | now elim Hne].
Defined.

(** C1 fails when an account's secret is not a bcrypt salt: its token
    issuance always fails, by raising; with the probes finishing in
    submission order, the probe of the owner yields the populated result, it
    is the only one that does, and the locator raises the [ValueError]
    instead of returning it. *)
Theorem find_order_parallel_raises_on_bad_secret :
  fst (run_pool (scripted marketplace) []
         (probes example_runtime [mistyped_store; owner_store] (u "1001")) start)
  = [ (0%nat, Err (mkExc (u "ValueError") (u "Invalid salt")));
      (1%nat, Ok (Some {| market := owner_store;
                          token := PStr (u "tok-owner");
                          order_data := PDict [(u "data", PList [order_1001])] |})) ]
  /\ fst (find_order_parallel example_runtime (scripted marketplace) []
            [mistyped_store; owner_store] (u "1001") start)
     = Err (mkExc (u "ValueError") (u "Invalid salt")).
Proof. vm_compute. split; reflexivity. Qed.

(** ** The processing loop *)

Lemma first_result_raises {R : Type} (done : list (nat * pyres (option R))) (e : pyexc) :
  (exists j, In (j, Err e) done) ->
  (forall j x, In (j, x) done -> x = Err e \/ x = Ok None) ->
  first_result done = Err e.
Proof.
  induction done as [|[j x] done IH]; intros [j0 Hin] Hall; [contradiction|].
  cbn [first_result].
  destruct (Hall j x (or_introl eq_refl)) as [-> | ->]; [reflexivity|].
  apply IH.
  - destruct Hin as [[=]|Hin]. now exists j0.
  - intros j' x' Hin'. apply (Hall j' x'). now right.
Qed.

Lemma find_order_parallel_first_result (rt : Runtime) (W : Type) (net : Net W)
  (sched : list nat) (markets : list Market) (oid : pystr) (s : Exec W) :
  find_order_parallel rt net sched markets oid s
  = (first_result (fst (run_pool net sched (probes rt markets oid) s)),
     snd (run_pool net sched (probes rt markets oid) s)).
Proof.
  unfold find_order_parallel.
  now destruct (run_pool net sched (probes rt markets oid) s).
Qed.

(** X2: when every account's secret can be signed with, the loop raises
    nothing and appends exactly one row per order ID, in the order of the
    IDs. *)
Lemma process_orders_rows (rt : Runtime) (W : Type) (net : Net W)
  (sched : nat -> list nat) (markets : list Market) (due reason : pystr) :
  Forall (signs rt) markets ->
  forall (ids : list pystr) (i : nat) (results : list Row) (s : Exec W),
  exists rows,
    fst (process_orders rt net sched markets due reason i ids results s)
    = Ok (results ++ rows)
    /\ map row_order_id rows = ids.
Proof.
  intros Hsigns. induction ids as [|oid ids IH]; intros i results s; cbn [process_orders].
  - exists []. now rewrite app_nil_r.
  - rewrite find_order_parallel_first_result.
    destruct (@first_result_all_ok LocateResult
                (fst (run_pool net (sched i) (probes rt markets oid) s))) as [res Hres].
    { intros j x Hin. apply pool_outcome in Hin as (m & Hnth & Hy).
      apply (check_order_in_market_returns (ok := answers net) (rt := rt) (m := m) (oid := oid));
        [|exact Hy].
      rewrite Forall_forall in Hsigns. apply Hsigns.
      exact (nth_error_In _ _ Hnth). }
    rewrite Hres. destruct res as [found|].
    + rewrite execute_delay_dispatch_run.
      match goal with
      | |- context [process_orders _ _ _ _ _ _ _ _ (results ++ [?row]) ?s2] =>
        destruct (IH (S i) (results ++ [row]) s2) as (rows & Hrows & Hids);
        exists (row :: rows)
      end.
      rewrite Hrows, <- app_assoc. split; [reflexivity|].
      cbn [map app outcome_row row_order_id]. now rewrite Hids.
    + destruct (IH (S i) (results ++ [not_found_row oid])
                   (snd (run_pool net (sched i) (probes rt markets oid) s)))
        as (rows & Hrows & Hids).
      exists (not_found_row oid :: rows).
      rewrite Hrows, <- app_assoc. split; [reflexivity|].
      cbn [map app not_found_row row_order_id]. now rewrite Hids.
Qed.

(** C4 fails when one account's secret is not a bcrypt salt: whatever the
    scheduler does, looking up an order that no account owns raises the
    [ValueError] of the signing step out of the loop, and no row is
    produced; with the probes finishing in submission order, the lookup of
    an order the other account owns raises as well. *)
Theorem process_orders_raises_on_bad_secret :
  (forall sched : nat -> list nat,
      fst (process_orders example_runtime (scripted marketplace) sched
             [mistyped_store; owner_store] (u "2025-12-31") (u "기타 사유")
             0 [u "1002"] [] start)
      = Err (mkExc (u "ValueError") (u "Invalid salt")))
  /\ fst (process_orders example_runtime (scripted marketplace) (fun _ => [])
            [mistyped_store; owner_store] (u "2025-12-31") (u "기타 사유")
            0 [u "1001"; u "1002"] [] start)
     = Err (mkExc (u "ValueError") (u "Invalid salt")).
Proof.
  split; [|vm_compute; reflexivity].
  intros sched. cbn [process_orders].
  rewrite find_order_parallel_first_result.
  set (markets := [mistyped_store; owner_store]).
  set (done := fst (run_pool (scripted marketplace) (sched 0%nat)
                      (probes example_runtime markets (u "1002")) start)).
  assert (Hall : forall j x, In (j, x) done ->
            (j = 0%nat /\ x = Err (mkExc (u "ValueError") (u "Invalid salt")))
            \/ (j = 1%nat /\ x = Ok None)).
  { intros j x Hin. apply pool_outcome in Hin as (m & Hnth & Hy).
    apply check_order_in_market_yields in Hy as [ts Hy].
    destruct j as [|[|j]]; cbn [nth_error markets] in Hnth.
    - injection Hnth as <-. left. split; [reflexivity|].
      rewrite mistyped_store_unsigned in Hy.
      destruct Hy as [(e & [= <-] & ->)|(sign & ans & [=] & _)]. reflexivity.
    - injection Hnth as <-. right. split; [reflexivity|].
      destruct Hy as [(e & Hs & _)|(sign & ans & _ & [w Hans] & Hy)].
      + destruct (owner_store_signs ts) as [sign Hsign]. congruence.
      + assert (Etok : token_of_answer ans = PStr (u "tok-owner")).
        { rewrite <- Hans. vm_compute. reflexivity. }
        rewrite Etok in Hy.
        destruct Hy as [[_ ->]|(_ & ans2 & [w2 Hans2] & ->)]; [reflexivity|].
        rewrite <- Hans2. vm_compute. reflexivity.
    - destruct j; discriminate. }
  assert (E : first_result done = Err (mkExc (u "ValueError") (u "Invalid salt"))).
  { apply first_result_raises.
    - pose proof (pool_finishes_each_once example_runtime (scripted marketplace)
                    (sched 0%nat) markets (u "1002") start) as Hperm.
      fold done in Hperm.
      assert (H0 : In 0%nat (map fst done)).
      { apply (Permutation_in _ (Permutation_sym Hperm)). now left. }
      apply in_map_iff in H0 as ([j x] & Hj & Hin). cbn [fst] in Hj. subst j.
      exists 0%nat.
      destruct (Hall _ _ Hin) as [[_ ->] | [[=] _]]. exact Hin.
    - intros j x Hin. destruct (Hall j x Hin) as [[_ ->] | [_ ->]]; auto. }
  rewrite E. reflexivity.
Qed.

(** * Further properties *)

(** ** Stripping *)

Lemma lstrip_split (s : pystr) :
  exists pre, s = pre ++ lstrip s /\ all_space pre = true.
Proof.
  induction s as [|c s (pre & E & Hpre)]; cbn [lstrip].
  - now exists [].
  - destruct (py_isspace c) eqn:Ec.
    + exists (c :: pre). split; [cbn [app]; now rewrite <- E|].
      unfold all_space in *. cbn [forallb]. now rewrite Ec, Hpre.
    + now exists [].
Qed.

Lemma lstrip_head (s : pystr) :
  lstrip s = [] \/ py_isspace (hd 0%N (lstrip s)) = false.
Proof.
  induction s as [|c s IH]; cbn [lstrip]; [now left|].
  destruct (py_isspace c) eqn:Ec; [exact IH | now right].
Qed.

Lemma lstrip_id (s : pystr) :
  s = [] \/ py_isspace (hd 0%N s) = false -> lstrip s = s.
Proof.
  intros [->|H]; [reflexivity|].
  destruct s as [|c s]; [reflexivity|]. cbn [lstrip hd] in *. now rewrite H.
Qed.

Lemma lstrip_all_space (s : pystr) : all_space s = true -> lstrip s = [].
Proof.
  unfold all_space. induction s as [|c s IH]; cbn [lstrip forallb]; [reflexivity|].
  intros H. apply andb_prop in H as [-> Hs]. exact (IH Hs).
Qed.

Lemma all_space_rev (s : pystr) : all_space (rev s) = all_space s.
Proof.
  unfold all_space. induction s as [|c s IH]; [reflexivity|].
  cbn [rev forallb]. rewrite forallb_app, IH. cbn [forallb].
  rewrite andb_true_r. apply andb_comm.
Qed.

(** What [strip] removes is whitespace before and after. *)
Lemma strip_split (s : pystr) :
  exists pre post,
    s = pre ++ strip s ++ post /\ all_space pre = true /\ all_space post = true.
Proof.
  unfold strip, rstrip.
  destruct (lstrip_split s) as (pre & E1 & Hpre).
  destruct (lstrip_split (rev (lstrip s))) as (post & E2 & Hpost).
  exists pre, (rev post). split; [|split; [exact Hpre | now rewrite all_space_rev]].
  rewrite <- rev_app_distr, <- E2, rev_involutive. exact E1.
Qed.

(** What [strip] leaves is empty, or starts and ends with a character that
    is not whitespace. *)
Lemma strip_ends (s : pystr) :
  strip s = []
  \/ (py_isspace (hd 0%N (strip s)) = false
      /\ py_isspace (last (strip s) 0%N) = false).
Proof.
  unfold strip, rstrip.
  destruct (lstrip_split (rev (lstrip s))) as (post & E & _).
  destruct (lstrip_head (rev (lstrip s))) as [->|Hlast]; [now left|].
  destruct (lstrip (rev (lstrip s))) as [|c r] eqn:Er; [now left|].
  right. cbn [hd] in Hlast. cbn [rev]. split.
  - assert (Et : lstrip s = (rev r ++ [c]) ++ rev post).
    { rewrite <- (rev_involutive (lstrip s)), E, rev_app_distr. reflexivity. }
    destruct (lstrip_head s) as [E0|Hhd].
    + rewrite E0 in Et. destruct (rev r); discriminate.
    + rewrite Et in Hhd. destruct (rev r); exact Hhd.
  - now rewrite last_last.
Qed.

Lemma strip_fixed (t : pystr) :
  t = [] \/ (py_isspace (hd 0%N t) = false /\ py_isspace (last t 0%N) = false) ->
  strip t = t.
Proof.
  intros [->|[Hhd Hlast]]; [reflexivity|].
  unfold strip, rstrip.
  rewrite (@lstrip_id t) by now right.
  rewrite lstrip_id; [apply rev_involutive|].
  destruct t as [|c t _] using rev_ind; [now left|]. right.
  rewrite rev_app_distr. cbn [rev app hd]. now rewrite last_last in Hlast.
Qed.

Lemma strip_idempotent (s : pystr) : strip (strip s) = strip s.
Proof. apply strip_fixed, strip_ends. Qed.

Lemma strip_In (c : N) (s : pystr) : In c (strip s) -> In c s.
Proof.
  intros H. destruct (strip_split s) as (pre & post & E & _).
  rewrite E. apply in_or_app. right. apply in_or_app. now left.
Qed.

Lemma strip_all_space (s : pystr) : all_space s = true -> strip s = [].
Proof.
  intros H. unfold strip, rstrip. now rewrite (lstrip_all_space s H).
Qed.

(** ** Order IDs *)

Lemma split_on_nonempty (sep : N) (s : pystr) : split_on sep s <> [].
Proof.
  destruct s as [|c s]; cbn [split_on]; [discriminate|].
  destruct (c =? sep)%N; [discriminate|].
  destruct (split_on sep s); discriminate.
Qed.

Lemma split_on_app (sep : N) (x y : pystr) :
  split_on sep (x ++ sep :: y) = split_on sep x ++ split_on sep y.
Proof.
  induction x as [|c x IH]; cbn [app split_on].
  - now rewrite N.eqb_refl.
  - destruct (c =? sep)%N; rewrite IH; [reflexivity|].
    pose proof (split_on_nonempty sep x) as Hne.
    destruct (split_on sep x); [contradiction | reflexivity].
Qed.

(** The segments of a split hold no separator, and only characters of the
    text. *)
Lemma split_on_segments (sep : N) (s seg : pystr) :
  In seg (split_on sep s) -> ~ In sep seg /\ forall c, In c seg -> In c s.
Proof.
  revert seg; induction s as [|c s IH]; cbn [split_on]; intros seg Hin.
  - destruct Hin as [<-|[]]. split; [intros [] | intros c []].
  - destruct (N.eqb_spec c sep) as [->|Hne].
    + destruct Hin as [<-|Hin]; [split; [intros [] | intros c []]|].
      destruct (IH seg Hin) as [H1 H2]. split; [exact H1|].
      intros c Hc. right. now apply H2.
    + pose proof (split_on_nonempty sep s) as Hnil.
      destruct (split_on sep s) as [|seg0 segs]; [contradiction|].
      destruct Hin as [<-|Hin].
      * destruct (IH seg0 (or_introl eq_refl)) as [H1 H2]. split.
        -- intros [E|Hin]; [now apply Hne | now apply H1].
        -- intros c' [<-|Hc]; [now left | right; now apply H2].
      * destruct (IH seg (or_intror Hin)) as [H1 H2]. split; [exact H1|].
        intros c' Hc. right. now apply H2.
Qed.

Lemma replace_char_In (old new c : N) (s : pystr) :
  In c (replace_char old new s) -> (c = new /\ In old s) \/ (c <> old /\ In c s).
Proof.
  unfold replace_char. intros H. apply in_map_iff in H as (c0 & E & Hin).
  destruct (N.eqb_spec c0 old) as [Heq|Hne].
  - left. subst c0 c. now split.
  - right. subst c. now split.
Qed.

Lemma replace_char_app (old new : N) (a b : pystr) :
  replace_char old new (a ++ b) = replace_char old new a ++ replace_char old new b.
Proof. apply map_app. Qed.

(** X5: every order ID taken from the form is non-empty, starts and ends
    with a character that is not whitespace, holds no comma and no newline,
    and is left unchanged by the helper [S]. *)
Theorem order_ids_clean (text id : pystr) :
  In id (order_ids text) ->
  id <> []
  /\ py_isspace (hd 0%N id) = false
  /\ py_isspace (last id 0%N) = false
  /\ ~ In comma id /\ ~ In newline id
  /\ S_str id = id.
Proof.
  rewrite order_ids_filter. intros Hin.
  apply filter_In in Hin as [Hin Htruthy].
  apply in_map_iff in Hin as (seg & <- & Hseg).
  apply split_on_segments in Hseg as [Hnl Hchars].
  assert (Hne : strip seg <> []) by (destruct (strip seg); discriminate).
  destruct (strip_ends seg) as [E|[Hhd Hlast]]; [contradiction|].
  split; [exact Hne|]. split; [exact Hhd|]. split; [exact Hlast|].
  split; [|split].
  - intros Hc. apply strip_In, Hchars, replace_char_In in Hc.
    destruct Hc as [[E _]|[E _]]; [discriminate | now apply E].
  - intros Hc. apply Hnl. now apply strip_In.
  - apply strip_idempotent.
Qed.

Lemma order_ids_clean_witness :
  u "1002" <> []
  /\ py_isspace (hd 0%N (u "1002")) = false
  /\ py_isspace (last (u "1002") 0%N) = false
  /\ ~ In comma (u "1002") /\ ~ In newline (u "1002")
  /\ S_str (u "1002") = u "1002".
Proof.
  apply (@order_ids_clean (u " 1001 ,, 1002 ") (u "1002")).
  vm_compute. right. left. reflexivity.
Defined.

Lemma all_blank_segments (text seg : pystr) :
  all_blank text = true ->
  In seg (split_on newline (replace_char comma newline text)) ->
  all_space seg = true.
Proof.
  unfold all_blank, all_space. intros Hblank Hseg.
  apply split_on_segments in Hseg as [_ Hchars].
  apply forallb_forall. intros c Hc.
  apply Hchars, replace_char_In in Hc.
  destruct Hc as [[-> _]|[Hne Hc]]; [reflexivity|].
  rewrite forallb_forall in Hblank. specialize (Hblank c Hc).
  apply orb_prop in Hblank as [H|H]; [exact H|].
  apply N.eqb_eq in H. contradiction.
Qed.

(** X6: the order IDs of two texts joined by a comma or a newline are the
    IDs of the first followed by the IDs of the second; a text of whitespace
    and commas only has no ID, and pressing the button with it returns
    without sending anything. *)
Theorem order_ids_compose :
  (forall a b sep, is_separator sep ->
     order_ids (a ++ sep :: b) = order_ids a ++ order_ids b)
  /\ (forall text, all_blank text = true -> order_ids text = [])
  /\ (forall rt W (net : Net W) sched markets text due custom reason (s : Exec W),
        all_blank text = true ->
        submit rt net sched markets text due custom reason s = (Ok None, s)).
Proof.
  assert (Hblank : forall text, all_blank text = true -> order_ids text = []).
  { intros text H. rewrite order_ids_filter.
    assert (G : forall segs,
               (forall seg, In seg segs -> all_space seg = true) ->
               filter truthy_str (map strip segs) = []).
    { induction segs as [|seg segs IH]; intros Hall; [reflexivity|].
      cbn [map filter]. rewrite (strip_all_space seg) by (apply Hall; now left).
      cbn [truthy_str]. apply IH. intros seg' Hin. apply Hall. now right. }
    apply G. intros seg. now apply all_blank_segments. }
  split; [|split; [exact Hblank|]].
  - intros a b sep Hsep. rewrite !order_ids_filter.
    rewrite replace_char_app. cbn [replace_char map].
    fold (replace_char comma newline b).
    assert (E : (if (sep =? comma)%N then newline else sep) = newline)
      by (destruct Hsep as [->| ->]; reflexivity).
    rewrite E, split_on_app, map_app, filter_app. reflexivity.
  - intros rt W net sched markets text due custom reason s H.
    unfold submit. now rewrite (Hblank text H).
Qed.

Lemma order_ids_compose_witness :
  order_ids (u "1001, 1002" ++ newline :: u "1003")
  = order_ids (u "1001, 1002") ++ order_ids (u "1003").
Proof.
  apply (proj1 order_ids_compose (u "1001, 1002") (u "1003") newline).
  right. reflexivity.
Defined.

(** ** What the locator returns and raises *)

Lemma first_result_err_in {R : Type} (done : list (nat * pyres (option R))) (e : pyexc) :
  first_result done = Err e -> exists j, In (j, Err e) done.
Proof.
  induction done as [|[j [[r|]|e']] done IH]; cbn [first_result]; try discriminate.
  - intros H. destruct (IH H) as [j' Hin]. exists j'. now right.
  - intros [= ->]. exists j. now left.
Qed.

Lemma first_result_some_in {R : Type} (done : list (nat * pyres (option R))) (r : R) :
  first_result done = Ok (Some r) -> exists j, In (j, Ok (Some r)) done.
Proof.
  induction done as [|[j [[r'|]|e']] done IH]; cbn [first_result]; try discriminate.
  - intros [= ->]. exists j. now left.
  - intros H. destruct (IH H) as [j' Hin]. exists j'. now right.
Qed.

(** An exception of the locator is the exception the signing step raised
    for one of the accounts. *)
Lemma find_order_parallel_err (rt : Runtime) (W : Type) (net : Net W)
  (sched : list nat) (markets : list Market) (oid : pystr) (s : Exec W) (e : pyexc) :
  fst (find_order_parallel rt net sched markets oid s) = Err e ->
  exists m ts,
    In m markets
    /\ sign_client_secret rt (client_id m) (client_secret m) ts = Err e.
Proof.
  rewrite find_order_parallel_first_result. cbn [fst]. intros H.
  apply first_result_err_in in H as [j Hin].
  apply pool_outcome in Hin as (m & Hnth & Hy).
  apply check_order_in_market_yields in Hy as [ts Hy].
  exists m, ts. split; [exact (nth_error_In _ _ Hnth)|].
  destruct Hy as [(e' & Hs & [= ->])|(sign & ans & _ & _ & Hy)]; [exact Hs|].
  destruct Hy as [[_ [=]]|(_ & ans2 & _ & [=])].
Qed.

(** X7: an exception leaves the locator, and the processing loop, only as
    the exception the signing step raised for one of the listed accounts;
    no answer or failure of the network makes either of them raise. *)
Theorem only_signing_raises (rt : Runtime) (W : Type) (net : Net W)
  (markets : list Market) :
  (forall sched oid (s : Exec W) e,
      fst (find_order_parallel rt net sched markets oid s) = Err e ->
      exists m ts,
        In m markets
        /\ sign_client_secret rt (client_id m) (client_secret m) ts = Err e)
  /\ (forall sched due reason ids i results (s : Exec W) e,
        fst (process_orders rt net sched markets due reason i ids results s) = Err e ->
        exists m ts,
          In m markets
          /\ sign_client_secret rt (client_id m) (client_secret m) ts = Err e).
Proof.
  split; [intros sched oid s e; apply find_order_parallel_err|].
  intros sched due reason ids.
  induction ids as [|oid ids IH]; intros i results s e; cbn [process_orders].
  - discriminate.
  - destruct (find_order_parallel rt net (sched i) markets oid s)
      as [[[found|]|e'] s1] eqn:Efind.
    + rewrite execute_delay_dispatch_run. apply IH.
    + apply IH.
    + cbn [fst]. intros [= ->].
      apply (@find_order_parallel_err rt W net (sched i) markets oid s e).
      now rewrite Efind.
Qed.

Lemma only_signing_raises_witness :
  exists m ts,
    In m [mistyped_store; owner_store]
    /\ sign_client_secret example_runtime (client_id m) (client_secret m) ts
       = Err (mkExc (u "ValueError") (u "Invalid salt")).
Proof.
  apply (proj1 (@only_signing_raises example_runtime nat (scripted marketplace)
                  [mistyped_store; owner_store]) [] (u "1001") start).
  vm_compute. reflexivity.
Defined.

(** X8: a result the locator returns names an account of the list, carries
    a usable token, and its payload is a JSON object whose [data] entry is
    non-empty. *)
Theorem find_order_parallel_result (rt : Runtime) (W : Type) (net : Net W)
  (sched : list nat) (markets : list Market) (oid : pystr) (s : Exec W)
  (lr : LocateResult) :
  fst (find_order_parallel rt net sched markets oid s) = Ok (Some lr) ->
  In (market lr) markets
  /\ truthy (token lr) = true
  /\ exists d v,
       order_data lr = PDict d /\ dict_get d (u "data") = Some v /\ NonEmpty v.
Proof.
  rewrite find_order_parallel_first_result. cbn [fst]. intros H.
  apply first_result_some_in in H as [j Hin].
  apply pool_outcome in Hin as (m & Hnth & Hy).
  apply check_order_in_market_yields in Hy as [ts Hy].
  destruct Hy as [(e' & _ & [=])|(sign & ans & _ & _ & Hy)].
  destruct Hy as [[_ [=]]|(Htruthy & ans2 & _ & [= Hloc])].
  symmetry in Hloc.
  apply located_Some in Hloc as (r & d & _ & _ & Ej & (d0 & v & Ej0 & Ed & Hne) & ->).
  rewrite Ej in Ej0. injection Ej0 as <-.
  cbn [market token order_data].
  split; [exact (nth_error_In _ _ Hnth)|]. split; [exact Htruthy|].
  now exists d, v.
Qed.

Lemma find_order_parallel_result_witness :
  In owner_store [locked_store; owner_store]
  /\ truthy (PStr (u "tok-owner")) = true
  /\ exists d v,
       PDict [(u "data", PList [order_1001])] = PDict d
       /\ dict_get d (u "data") = Some v /\ NonEmpty v.
Proof.
  apply (@find_order_parallel_result example_runtime nat (scripted marketplace)
           [1; 0; 1]%nat [locked_store; owner_store] (u "1001") start
           {| market := owner_store;
              token := PStr (u "tok-owner");
              order_data := PDict [(u "data", PList [order_1001])] |}).
  vm_compute. reflexivity.
Defined.

(** ** The requests that are sent *)

Section PostsFacts.

Variable P : Request -> Prop.

Lemma posts_mono {A : Type} (n m : nat) (p : Prog A) :
  (n <= m)%nat -> posts P n p -> posts P m p.
Proof.
  intros Hle H. revert m Hle.
  induction H as [n a|n e|n k _ IH|n rq k HP _ IH]; intros m Hle.
  - constructor.
  - constructor.
  - constructor. intros t. now apply IH.
  - destruct m as [|m]; [lia|].
    constructor; [exact HP|]. intros ans. apply IH. lia.
Qed.

Lemma posts_lift {A : Type} (n : nat) (r : pyres A) : posts P n (lift r).
Proof. destruct r; constructor. Qed.

Lemma posts_bind {A B : Type} (n m k : nat) (p : Prog A) (f : A -> Prog B) :
  posts P n p -> (forall a, posts P m (f a)) -> (n + m <= k)%nat ->
  posts P k (bind p f).
Proof.
  intros H Hf. revert k.
  induction H as [n a|n e|n c _ IH|n rq c HP _ IH]; intros k Hle; cbn [bind].
  - apply posts_mono with (n := m); [lia | apply Hf].
  - constructor.
  - constructor. intros t. now apply IH.
  - destruct k as [|k]; [lia|].
    constructor; [exact HP|]. intros ans. apply IH. lia.
Qed.

Lemma posts_try_except {A : Type} (n m k : nat) (p : Prog A) (h : pyexc -> Prog A) :
  posts P n p -> (forall e, posts P m (h e)) -> (n + m <= k)%nat ->
  posts P k (try_except p h).
Proof.
  intros H Hh. revert k.
  induction H as [n a|n e|n c _ IH|n rq c HP _ IH]; intros k Hle; cbn [try_except].
  - constructor.
  - apply posts_mono with (n := m); [lia | apply Hh].
  - constructor. intros t. now apply IH.
  - destruct k as [|k]; [lia|].
    constructor; [exact HP|]. intros ans. apply IH. lia.
Qed.

Lemma posts_requests_post (rq : Request) : P rq -> posts P 1 (requests_post rq).
Proof. intros H. constructor; [exact H|]. intros ans. apply posts_lift. Qed.

Variable W : Type.
Variable net : Net W.

Lemma run_posts {A : Type} (n : nat) (p : Prog A) (s : Exec W) :
  posts P n p ->
  exists l, sent (snd (run net p s)) = sent s ++ l
            /\ (length l <= n)%nat /\ Forall P l.
Proof.
  intros H. revert s.
  induction H as [n a|n e|n k _ IH|n rq k HP _ IH]; intros s; cbn [run].
  - exists []. rewrite app_nil_r. split; [reflexivity|]. split; [cbn [length]; lia | constructor].
  - exists []. rewrite app_nil_r. split; [reflexivity|]. split; [cbn [length]; lia | constructor].
  - destruct (net_clock net (world s)) as [t w].
    destruct (IH t {| world := w; sent := sent s |}) as (l & E & Hlen & Hall).
    now exists l.
  - destruct (net_post net rq (world s)) as [ans w].
    destruct (IH ans {| world := w; sent := sent s ++ [rq] |}) as (l & E & Hlen & Hall).
    exists (rq :: l). cbn [sent] in E. rewrite E, <- app_assoc.
    split; [reflexivity|]. split; [cbn [length]; lia | now constructor].
Qed.

Lemma turn_posts {R : Type} (p p' : Prog R) (s s1 : Exec W) :
  turn net p s = Running p' s1 ->
  exists l, sent s1 = sent s ++ l
            /\ forall n, posts P n p ->
                 Forall P l
                 /\ exists n', posts P n' p' /\ (length l + n' <= n)%nat.
Proof.
  destruct p as [a|e|k|rq k]; cbn [turn]; try discriminate.
  - destruct (net_clock net (world s)) as [t w]. intros [= <- <-].
    exists []. cbn [sent]. rewrite app_nil_r. split; [reflexivity|].
    intros n H. inversion H; subst. split; [constructor|].
    exists n. split; [auto | cbn [length]; lia].
  - destruct (net_post net rq (world s)) as [ans w]. intros [= <- <-].
    exists [rq]. split; [reflexivity|].
    intros n H. inversion H; subst. split; [now repeat constructor|].
    eexists. split; [eauto | cbn [length]; lia].
Qed.

Lemma pool_posts_mono {R : Type} (n m : nat) (live : list (nat * Prog R)) :
  (n <= m)%nat -> pool_posts P n live -> pool_posts P m live.
Proof.
  intros Hle H. destruct H as [n|n a b i p live Hp Hl Hab].
  - constructor.
  - econstructor; [exact Hp | exact Hl | lia].
Qed.

Lemma pool_posts_remove {R : Type} (n k i : nat) (p : Prog R)
  (live : list (nat * Prog R)) :
  pool_posts P n live -> nth_error live k = Some (i, p) ->
  pool_posts P n (remove_at k live).
Proof.
  unfold remove_at. intros H. revert k.
  induction H as [n|n a b j q live Hq Hl IH Hab]; intros k Hnth.
  - destruct k; discriminate.
  - destruct k as [|k]; cbn [nth_error firstn skipn app] in *.
    + apply pool_posts_mono with (n := b); [lia | exact Hl].
    + econstructor; [exact Hq | exact (IH k Hnth) | exact Hab].
Qed.

Lemma pool_posts_replace {R : Type} (n k i c : nat) (p p' : Prog R)
  (live : list (nat * Prog R)) :
  pool_posts P n live -> nth_error live k = Some (i, p) ->
  (forall a, posts P a p -> exists a', posts P a' p' /\ (c + a' <= a)%nat) ->
  (c <= n)%nat /\ pool_posts P (n - c) (replace_at k (i, p') live).
Proof.
  unfold replace_at. intros H. revert k.
  induction H as [n|n a b j q live Hq Hl IH Hab]; intros k Hnth Hstep.
  - destruct k; discriminate.
  - destruct k as [|k]; cbn [nth_error firstn skipn app] in *.
    + injection Hnth as -> ->.
      destruct (Hstep a Hq) as (a' & Hp' & Hle).
      split; [lia|]. econstructor; [exact Hp' | exact Hl | lia].
    + destruct (IH k Hnth Hstep) as [Hc Hrep].
      split; [lia|]. econstructor; [exact Hq | exact Hrep | lia].
Qed.

Lemma pool_posts_nth {R : Type} (n k i : nat) (p : Prog R)
  (live : list (nat * Prog R)) :
  pool_posts P n live -> nth_error live k = Some (i, p) -> exists a, posts P a p.
Proof.
  intros H. revert k.
  induction H as [n|n a b j q live Hq Hl IHl Hab]; intros k Enth.
  - destruct k; discriminate.
  - destruct k as [|k]; cbn [nth_error] in Enth.
    + injection Enth as -> ->. now exists a.
    + exact (IHl k Enth).
Qed.

Lemma drain_posts {R : Type} (n : nat) (live : list (nat * Prog R)) (s : Exec W) :
  pool_posts P n live ->
  exists l, sent (snd (drain net live s)) = sent s ++ l
            /\ (length l <= n)%nat /\ Forall P l.
Proof.
  intros H. revert s.
  induction H as [n|n a b i p live Hp Hl IH Hab]; intros s; cbn [drain].
  - exists []. rewrite app_nil_r. split; [reflexivity|]. split; [cbn [length]; lia | constructor].
  - destruct (run_posts s Hp) as (l1 & E1 & Hlen1 & Hall1).
    destruct (run net p s) as [r s1]. cbn [snd] in E1.
    destruct (IH s1) as (l2 & E2 & Hlen2 & Hall2).
    destruct (drain net live s1) as [done s2]. cbn [snd] in *.
    exists (l1 ++ l2). rewrite E2, E1, <- app_assoc.
    split; [reflexivity|]. split; [rewrite length_app; lia|].
    apply Forall_app. now split.
Qed.

(** Whatever the scheduler does, a pool sends no more than its tasks can
    post, and nothing else. *)
Lemma run_pool_posts {R : Type} (sched : list nat) (n : nat)
  (live : list (nat * Prog R)) (s : Exec W) :
  pool_posts P n live ->
  exists l, sent (snd (run_pool net sched live s)) = sent s ++ l
            /\ (length l <= n)%nat /\ Forall P l.
Proof.
  revert n live s; induction sched as [|c sched IH]; intros n live s H;
    cbn [run_pool].
  - now apply drain_posts.
  - set (k := (c mod Nat.min MAX_WORKERS (length live))%nat).
    destruct (nth_error live k) as [[i p]|] eqn:Enth; [|now apply drain_posts].
    destruct (turn net p s) as [r|p' s1] eqn:Eturn.
    + assert (Hrem : pool_posts P n (remove_at k live))
        by (eapply pool_posts_remove; eassumption).
      destruct (IH n (remove_at k live) s Hrem) as (l & E & Hlen & Hall).
      destruct (run_pool net sched (remove_at k live) s) as [done s'].
      now exists l.
    + destruct (turn_posts _ _ Eturn) as (l1 & E1 & Hstep).
      assert (Hrep : (length l1 <= n)%nat
                     /\ pool_posts P (n - length l1) (replace_at k (i, p') live)).
      { eapply pool_posts_replace; [exact H | exact Enth|].
        intros a Ha. destruct (Hstep a Ha) as (_ & a' & Ha' & Hle). eauto. }
      destruct Hrep as [Hc Hrep].
      destruct (IH _ _ s1 Hrep) as (l2 & E2 & Hlen2 & Hall2).
      exists (l1 ++ l2). rewrite E2, E1, <- app_assoc.
      split; [reflexivity|]. split; [rewrite length_app; lia|].
      apply Forall_app. split; [|exact Hall2].
      destruct (pool_posts_nth _ H Enth) as [a Ha]. exact (proj1 (Hstep a Ha)).
Qed.

End PostsFacts.

Section LookupTraffic.

Variable rt : Runtime.

(** The token issuer posts at most one request, its token request. *)
Lemma get_access_token_posts (P : Request -> Prop) (cid sec : pystr) :
  (forall ts sign, P (token_request cid ts sign)) ->
  posts P 1 (get_access_token rt cid sec).
Proof.
  intros HP. unfold get_access_token. cbn [bind].
  constructor. intros ts. cbn [bind].
  destruct (sign_client_secret rt cid sec ts) as [sign|e]; cbn [lift bind];
    [|constructor].
  apply posts_try_except with (n := 1%nat) (m := 0%nat); [|constructor | lia].
  apply posts_bind with (n := 1%nat) (m := 0%nat);
    [apply posts_requests_post, HP | | lia].
  intros r. destruct (status_code r =? 200)%Z; [|constructor].
  apply posts_bind with (n := 0%nat) (m := 0%nat);
    [apply posts_lift | intros body; apply posts_lift | lia].
Qed.

(** The probe posts at most two requests: the token request of its account
    and the query for the order. *)
Lemma check_order_in_market_posts (P : Request -> Prop) (m : Market) (oid : pystr) :
  (forall ts sign, P (token_request (client_id m) ts sign)) ->
  (forall tok, P (query_request rt tok oid)) ->
  posts P 2 (check_order_in_market rt m oid).
Proof.
  intros HPt HPq. unfold check_order_in_market.
  apply posts_bind with (n := 1%nat) (m := 1%nat);
    [now apply get_access_token_posts | | lia].
  intros tok. destruct (negb (truthy tok)); [constructor|].
  apply posts_try_except with (n := 1%nat) (m := 0%nat); [|constructor | lia].
  apply posts_bind with (n := 1%nat) (m := 0%nat);
    [apply posts_requests_post, HPq | | lia].
  intros r. destruct (status_code r =? 200)%Z; [|constructor].
  apply posts_bind with (n := 0%nat) (m := 0%nat); [apply posts_lift | | lia].
  intros response.
  apply posts_bind with (n := 0%nat) (m := 0%nat); [apply posts_lift | | lia].
  intros data. destruct (truthy data); [|constructor].
  apply posts_bind with (n := 0%nat) (m := 0%nat); [apply posts_lift | | lia].
  intros n. destruct (n >? 0)%Z; constructor.
Qed.

Lemma probes_pool_posts (P : Request -> Prop) (oid : pystr)
  (markets : list Market) (a : nat) :
  (forall m, In m markets -> posts P 2 (check_order_in_market rt m oid)) ->
  pool_posts P (2 * length markets)
    (combine (seq a (length markets))
             (map (fun market => check_order_in_market rt market oid) markets)).
Proof.
  revert a; induction markets as [|m markets IH]; intros a H;
    cbn [length seq map combine].
  - constructor.
  - apply pool_posts_cons with (a := 2%nat) (b := (2 * length markets)%nat).
    + apply H. now left.
    + apply IH. intros m' Hin. apply H. now right.
    + lia.
Qed.

Variable W : Type.
Variable net : Net W.

Lemma find_order_parallel_posts (sched : list nat) (markets : list Market)
  (oid : pystr) (s : Exec W) :
  exists l,
    sent (snd (find_order_parallel rt net sched markets oid s)) = sent s ++ l
    /\ (length l <= 2 * length markets)%nat
    /\ Forall (lookup_request rt markets oid) l.
Proof.
  rewrite find_order_parallel_first_result. cbn [snd].
  apply run_pool_posts. unfold probes. apply probes_pool_posts.
  intros m Hin. apply check_order_in_market_posts.
  - intros ts sign. left. exists m. split; [exact Hin|]. now exists ts, sign.
  - intros tok. right. now exists tok.
Qed.

(** X9: whatever the scheduler and the network do, a lookup keeps the
    requests sent before it and adds at most two per account, each a token
    request of one of the accounts or the query for the order; with no
    account it sends nothing and returns none. *)
Theorem find_order_parallel_traffic (sched : list nat) (markets : list Market)
  (oid : pystr) (s : Exec W) :
  (exists l,
      sent (snd (find_order_parallel rt net sched markets oid s)) = sent s ++ l
      /\ (length l <= 2 * length markets)%nat
      /\ Forall (lookup_request rt markets oid) l
      /\ Forall (fun rq => is_mutation rq = false) l)
  /\ find_order_parallel rt net sched [] oid s = (Ok None, s).
Proof.
  split.
  - destruct (find_order_parallel_posts sched markets oid s) as (l & E & Hlen & Hall).
    exists l. repeat split; try assumption.
    eapply Forall_impl; [|exact Hall].
    intros rq [(m & _ & ts & sign & ->)|(tok & ->)]; reflexivity.
  - unfold find_order_parallel, probes. cbn [length seq map combine].
    destruct sched as [|c sched]; [reflexivity|]. cbn [run_pool].
    destruct (c mod Nat.min MAX_WORKERS (length (@nil (nat * Prog (option LocateResult)))))%nat;
      reflexivity.
Qed.

End LookupTraffic.

(** ** The requests and the rows of the processing loop *)

Lemma str_eqb_refl (a : pystr) : str_eqb a a = true.
Proof.
  induction a as [|c a IH]; cbn [str_eqb]; [reflexivity|].
  now rewrite N.eqb_refl, IH.
Qed.

Lemma is_mutation_delay_request (rt : Runtime) (tok : pyval) (oid due reason : pystr) :
  is_mutation (delay_request rt tok oid due reason) = true.
Proof.
  unfold is_mutation, delay_request. cbn [req_json dict_get].
  now rewrite str_eqb_refl.
Qed.

Lemma execute_delay_dispatch_outcome (rt : Runtime) (W : Type) (net : Net W)
  (tok : pyval) (oid due reason : pystr) (s : Exec W) :
  exists out,
    run net (execute_delay_dispatch rt tok oid due reason) s
    = (Ok out,
       {| world := snd (net_post net (delay_request rt tok oid due reason) (world s));
          sent := sent s ++ [delay_request rt tok oid due reason] |})
    /\ executor_outcome reason out.
Proof.
  rewrite execute_delay_dispatch_run. eexists. split; [reflexivity|].
  unfold executor_outcome, completion_message.
  destruct (fst (net_post net (delay_request rt tok oid due reason) (world s)))
    as [r|e]; [|right; split; [reflexivity | right; eexists; reflexivity]].
  destruct (status_code r =? 200)%Z; [left; now split|].
  destruct (py_slice rt (api_error_text r) 150); right;
    (split; [reflexivity|]); [left | right]; eexists; reflexivity.
Qed.

Lemma located_row_not_found (oid : pystr) : located_row (not_found_row oid) = false.
Proof.
  unfold located_row, not_found_row, not_found_message. cbn [row_message].
  now rewrite str_eqb_refl.
Qed.

Lemma located_row_outcome (reason oid : pystr) (found : LocateResult) (out : DelayOutcome) :
  executor_outcome reason out -> located_row (outcome_row oid found out) = true.
Proof.
  unfold located_row, outcome_row, completion_message. cbn [row_message].
  intros [[_ ->]|[_ [[x ->]|[x ->]]]].
  - generalize (get_delay_reason_code reason ++ u ")"). intros x.
    vm_compute. reflexivity.
  - vm_compute. reflexivity.
  - vm_compute. reflexivity.
Qed.

Lemma loop_request_cons (rt : Runtime) (markets : list Market) (oid : pystr)
  (ids : list pystr) (due reason : pystr) (l : list Request) :
  Forall (loop_request rt markets ids due reason) l ->
  Forall (loop_request rt markets (oid :: ids) due reason) l.
Proof.
  apply Forall_impl. intros rq [(o & Ho & H)|(tok & o & Ho & H)].
  - left. exists o. split; [now right | exact H].
  - right. exists tok, o. split; [now right | exact H].
Qed.

Lemma lookup_no_mutation (rt : Runtime) (markets : list Market) (oid : pystr)
  (l : list Request) :
  Forall (lookup_request rt markets oid) l -> filter is_mutation l = [].
Proof.
  induction 1 as [|rq l Hrq _ IH]; [reflexivity|]. cbn [filter].
  destruct Hrq as [(m & _ & ts & sign & ->)|(tok & ->)]; exact IH.
Qed.

Section LoopTrace.

Variable rt : Runtime.
Variable W : Type.
Variable net : Net W.
Variable sched : nat -> list nat.
Variable markets : list Market.
Variable due reason : pystr.

(** The loop, read as a whole: what it sends, and how the rows it returns
    relate to the order IDs and to the mutations sent. *)
Lemma process_orders_trace (ids : list pystr) :
  forall (i : nat) (results : list Row) (s : Exec W),
  exists l,
    sent (snd (process_orders rt net sched markets due reason i ids results s))
    = sent s ++ l
    /\ Forall (loop_request rt markets ids due reason) l
    /\ (length l <= (2 * length markets + 1) * length ids)%nat
    /\ (length (filter is_mutation l) <= length ids)%nat
    /\ forall rows,
         fst (process_orders rt net sched markets due reason i ids results s) = Ok rows ->
         exists new,
           rows = results ++ new
           /\ Forall2 (row_of reason) ids new
           /\ Forall2 (fun rq row =>
                         exists tok, rq = delay_request rt tok (row_order_id row) due reason)
                      (filter is_mutation l) (filter located_row new).
Proof.
  induction ids as [|oid ids IH]; intros i results s; cbn [process_orders].
  - exists []. rewrite app_nil_r. split; [reflexivity|]. split; [constructor|].
    split; [cbn [length]; lia|]. split; [cbn [filter length]; lia|].
    intros rows [= <-]. exists []. rewrite app_nil_r.
    split; [reflexivity|]. split; constructor.
  - destruct (find_order_parallel_posts rt net (sched i) markets oid s)
      as (l1 & E1 & Hlen1 & Hall1).
    pose proof (lookup_no_mutation Hall1) as Hnomut.
    assert (Hloop1 : Forall (loop_request rt markets (oid :: ids) due reason) l1).
    { eapply Forall_impl; [|exact Hall1].
      intros rq H. left. exists oid. split; [now left | exact H]. }
    destruct (find_order_parallel rt net (sched i) markets oid s)
      as [[[found|]|e] s1]; cbn [snd] in E1.
    + destruct (execute_delay_dispatch_outcome rt net (token found) oid due reason s1)
        as (out & Erun & Hout).
      rewrite Erun.
      match goal with
      | |- context [process_orders _ _ _ _ _ _ _ _ ?res ?s2] =>
        destruct (IH (S i) res s2) as (l2 & E2 & Hall2 & Hlen2 & Hmut2 & Hrows2)
      end.
      cbn [sent] in E2.
      exists (l1 ++ delay_request rt (token found) oid due reason :: l2).
      split; [rewrite E2, E1, <- !app_assoc; reflexivity|].
      split.
      { apply Forall_app. split; [exact Hloop1|]. constructor.
        - right. exists (token found), oid. split; [now left | reflexivity].
        - now apply loop_request_cons. }
      split; [rewrite length_app; cbn [length]; lia|].
      split.
      { rewrite filter_app, Hnomut. cbn [app filter].
        rewrite is_mutation_delay_request. cbn [length]. lia. }
      intros rows Hrows. destruct (Hrows2 rows Hrows) as (new & -> & Hnew & Hmuts).
      exists (outcome_row oid found out :: new).
      split; [now rewrite <- app_assoc|].
      split; [constructor; [right; now exists found, out | exact Hnew]|].
      rewrite filter_app, Hnomut. cbn [app filter].
      rewrite is_mutation_delay_request, (located_row_outcome oid found Hout).
      constructor; [now exists (token found) | exact Hmuts].
    + destruct (IH (S i) (results ++ [not_found_row oid]) s1)
        as (l2 & E2 & Hall2 & Hlen2 & Hmut2 & Hrows2).
      exists (l1 ++ l2).
      split; [rewrite E2, E1, <- app_assoc; reflexivity|].
      split; [apply Forall_app; split; [exact Hloop1 | now apply loop_request_cons]|].
      split; [rewrite length_app; cbn [length]; lia|].
      split; [rewrite filter_app, Hnomut; cbn [app length]; lia|].
      intros rows Hrows. destruct (Hrows2 rows Hrows) as (new & -> & Hnew & Hmuts).
      exists (not_found_row oid :: new).
      split; [now rewrite <- app_assoc|].
      split; [constructor; [now left | exact Hnew]|].
      rewrite filter_app, Hnomut. cbn [app filter].
      now rewrite located_row_not_found.
    + exists l1. split; [exact E1|]. split; [exact Hloop1|].
      split; [cbn [length]; lia|].
      split; [rewrite Hnomut; cbn [length]; lia|].
      intros rows [=].
Qed.

End LoopTrace.


(** X11: when the loop ends, the delay mutations it sent are, in order, one
    for each returned row that does not report "not found", for that row's
    order ID with the due date and the reason of the form: an order reported
    as not found was sent no mutation. *)
Theorem mutations_match_rows (rt : Runtime) (W : Type) (net : Net W)
  (sched : nat -> list nat) (markets : list Market) (due reason : pystr)
  (ids : list pystr) (s : Exec W) (rows : list Row) :
  fst (process_orders rt net sched markets due reason 0 ids [] s) = Ok rows ->
  exists l,
    sent (snd (process_orders rt net sched markets due reason 0 ids [] s))
    = sent s ++ l
    /\ Forall2 (fun rq row =>
                  exists tok, rq = delay_request rt tok (row_order_id row) due reason)
               (filter is_mutation l) (filter located_row rows).
Proof.
  intros Hrows.
  destruct (process_orders_trace rt net sched markets due reason ids 0 [] s)
    as (l & E & _ & _ & _ & Hnew).
  destruct (Hnew rows Hrows) as (new & -> & _ & Hmuts).
  exists l. split; [exact E | exact Hmuts].
Qed.

Lemma str_eqb_false (a b : pystr) : str_eqb a b = false -> a <> b.
Proof. intros H ->. now rewrite str_eqb_refl in H. Qed.

(** The result column, the message column and the test for a success agree
    on every row the loop writes. *)
Lemma row_of_columns (reason oid : pystr) (row : Row) :
  row_of reason oid row ->
  row_order_id row = oid
  /\ py_in (u "✅") (row_result row)
     = str_eqb (row_message row) (completion_message reason)
  /\ ((row_result row = u "✅ 성공" /\ row_message row = completion_message reason)
      \/ (row_result row = u "❌ 실패" /\ row_message row <> completion_message reason)).
Proof.
  assert (Hnf : str_eqb (u "해당 상품주문번호를 찾을 수 없습니다.")
                        (completion_message reason) = false).
  { unfold completion_message.
    generalize (get_delay_reason_code reason ++ u ")"). intros x.
    vm_compute. reflexivity. }
  assert (Hapi : forall x, str_eqb (u "API 오류 (" ++ x) (completion_message reason) = false).
  { unfold completion_message.
    generalize (get_delay_reason_code reason ++ u ")"). intros y x.
    vm_compute. reflexivity. }
  assert (Hreq : forall x, str_eqb (u "요청 오류: " ++ x) (completion_message reason) = false).
  { unfold completion_message.
    generalize (get_delay_reason_code reason ++ u ")"). intros y x.
    vm_compute. reflexivity. }
  intros [->|(found & out & -> & Hout)].
  - cbn [not_found_row row_order_id row_result row_message].
    rewrite Hnf.
    split; [reflexivity|]. split; [vm_compute; reflexivity|].
    right. split; [reflexivity | now apply str_eqb_false].
  - cbn [outcome_row row_order_id row_result row_message].
    split; [reflexivity|].
    destruct Hout as [[-> ->]|[-> [[x ->]|[x ->]]]].
    + rewrite str_eqb_refl. split; [vm_compute; reflexivity|]. now left.
    + rewrite Hapi. split; [vm_compute; reflexivity|].
      right. split; [reflexivity | now apply str_eqb_false].
    + rewrite Hreq. split; [vm_compute; reflexivity|].
      right. split; [reflexivity | now apply str_eqb_false].
Qed.

(** X12: when the loop ends, every row shows the result "✅ 성공" together
    with the completion message of the classified reason, or "❌ 실패" with
    another message; the summary counts as successes exactly the rows with
    the completion message, neither count is negative, and the two add up to
    the number of order IDs. *)
Theorem summary_counts (rt : Runtime) (W : Type) (net : Net W)
  (sched : nat -> list nat) (markets : list Market) (due reason : pystr)
  (ids : list pystr) (s : Exec W) (rows : list Row) :
  fst (process_orders rt net sched markets due reason 0 ids [] s) = Ok rows ->
  Forall (fun row =>
            (row_result row = u "✅ 성공"
             /\ row_message row = completion_message reason)
            \/ (row_result row = u "❌ 실패"
                /\ row_message row <> completion_message reason)) rows
  /\ success_count rows
     = Z.of_nat (length (filter (fun row =>
                           str_eqb (row_message row) (completion_message reason)) rows))
  /\ (0 <= success_count rows)%Z
  /\ (0 <= fail_count rows)%Z
  /\ (success_count rows + fail_count rows = Z.of_nat (length ids))%Z.
Proof.
  intros Hrows.
  destruct (process_orders_trace rt net sched markets due reason ids 0 [] s)
    as (l & _ & _ & _ & _ & Hnew).
  destruct (Hnew rows Hrows) as (new & E & Hrow & _).
  cbn [app] in E. subst new.
  assert (Hcols : Forall (fun row => exists oid, row_of reason oid row) rows).
  { clear - Hrow. induction Hrow; constructor; eauto. }
  assert (Hlen : length rows = length ids)
    by (symmetry; exact (Forall2_length Hrow)).
  assert (Hfilter : filter (fun r => py_in (u "✅") (row_result r)) rows
                    = filter (fun row =>
                                str_eqb (row_message row) (completion_message reason)) rows).
  { apply filter_ext_in. intros row Hin.
    rewrite Forall_forall in Hcols. destruct (Hcols row Hin) as [oid Hoid].
    exact (proj1 (proj2 (row_of_columns Hoid))). }
  split.
  { eapply Forall_impl; [|exact Hcols].
    intros row [oid Hoid]. exact (proj2 (proj2 (row_of_columns Hoid))). }
  unfold fail_count, success_count. rewrite Hfilter, Hlen.
  pose proof (filter_length_le
                (fun row => str_eqb (row_message row) (completion_message reason)) rows).
  repeat split; lia.
Qed.

Lemma example_rows_run :
  fst (process_orders example_runtime (scripted marketplace) (fun _ => [1; 0; 1]%nat)
         [locked_store; owner_store] (u "2025-12-31") (u "기타 사유")
         0 [u "1001"; u "1002"] [] start)
  = Ok example_rows.
Proof. vm_compute. reflexivity. Qed.

Lemma mutations_match_rows_witness :
  exists l,
    sent (snd (process_orders example_runtime (scripted marketplace)
                 (fun _ => [1; 0; 1]%nat) [locked_store; owner_store]
                 (u "2025-12-31") (u "기타 사유") 0 [u "1001"; u "1002"] [] start))
    = sent start ++ l
    /\ Forall2 (fun rq row =>
                  exists tok,
                    rq = delay_request example_runtime tok (row_order_id row)
                           (u "2025-12-31") (u "기타 사유"))
               (filter is_mutation l) (filter located_row example_rows).
Proof.
  exact (@mutations_match_rows example_runtime nat (scripted marketplace)
           (fun _ => [1; 0; 1]%nat) [locked_store; owner_store]
           (u "2025-12-31") (u "기타 사유") [u "1001"; u "1002"] start
           example_rows example_rows_run).
Defined.

Lemma summary_counts_witness :
  (success_count example_rows + fail_count example_rows
   = Z.of_nat (length [u "1001"; u "1002"]))%Z.
Proof.
  exact (proj2 (proj2 (proj2 (proj2
    (@summary_counts example_runtime nat (scripted marketplace)
       (fun _ => [1; 0; 1]%nat) [locked_store; owner_store]
       (u "2025-12-31") (u "기타 사유") [u "1001"; u "1002"] start
       example_rows example_rows_run))))).
Defined.

Lemma process_orders_rows_witness :
  exists rows,
    fst (process_orders example_runtime (scripted marketplace) (fun _ => [1; 0; 1]%nat)
           [locked_store; owner_store] (u "2025-12-31") (u "기타 사유")
           0 [u "1001"; u "1002"] [] start)
    = Ok ([] ++ rows)
    /\ map row_order_id rows = [u "1001"; u "1002"].
Proof.
  apply (@process_orders_rows example_runtime nat (scripted marketplace)
           (fun _ => [1; 0; 1]%nat) [locked_store; owner_store]
           (u "2025-12-31") (u "기타 사유")).
  repeat constructor.
  - exact (proj1 locked_store_token_fails).
  - exact owner_store_signs.
Defined.

(** ** The rows of the credential sheet *)

Lemma row_firstn3 (row : list pystr) :
  row_qualifies (firstn 3 row) = row_qualifies row
  /\ market_of_row (firstn 3 row) = market_of_row row.
Proof.
  destruct row as [|a [|b [|c r]]]; split; reflexivity.
Qed.

Lemma load_rows_firstn3 (rows : list (list pystr)) :
  map market_of_row (filter row_qualifies (map (firstn 3) rows))
  = map market_of_row (filter row_qualifies rows).
Proof.
  induction rows as [|row rows IH]; [reflexivity|].
  cbn [map filter]. destruct (row_firstn3 row) as [-> E].
  destruct (row_qualifies row); cbn [map]; now rewrite ?E, IH.
Qed.

Lemma load_markets_ok_rows (open_by_key : pyval -> pyval -> pyres Spreadsheet)
  (config : list (pystr * pyval)) (markets : list Market) :
  load_markets open_by_key config = Ok markets ->
  exists values, markets = load_rows values.
Proof.
  unfold load_markets.
  destruct (negb (truthy (config_get config (u "credentials")))
            || negb (truthy (config_get config (u "spreadsheet_key"))));
    [discriminate|].
  destruct (open_by_key _ _) as [sh|e]; [|discriminate].
  destruct (worksheet sh STORES_SHEET) as [[values|e]|e]; try discriminate.
  - intros [= <-]. now exists values.
  - destruct (get_worksheet sh 0) as [[values|e']|e']; try discriminate.
    intros [= <-]. now exists values.
Qed.

Lemma strip_clean (s : pystr) : truthy_str (strip s) = true -> clean_field (strip s).
Proof.
  intros H. apply truthy_str_nonempty in H.
  destruct (strip_ends s) as [E|[Hhd Hlast]]; [contradiction|].
  repeat split; auto using strip_idempotent.
Qed.

Lemma load_rows_clean (values : list (list pystr)) (m : Market) :
  In m (load_rows values) ->
  clean_field (store_name m) /\ clean_field (client_id m)
  /\ clean_field (client_secret m).
Proof.
  rewrite load_rows_filter. intros Hin.
  apply in_map_iff in Hin as (row & <- & Hrow).
  apply filter_In in Hrow as [_ Hq].
  unfold row_qualifies in Hq.
  apply andb_prop in Hq as [Hq H2].
  apply andb_prop in Hq as [Hq H1].
  apply andb_prop in Hq as [_ H0].
  cbn [market_of_row store_name client_id client_secret].
  auto using strip_clean.
Qed.

(** X13: the first row of the sheet is never read, whatever it holds; the
    accounts of a sheet are those of its first rows followed by those of its
    later rows; cells after the third are ignored; there is at most one
    account per data row; and every field of an account [load_markets]
    returns is not empty, has no whitespace at either end, and is what [S]
    gives for a cell of a row with at least three cells. *)
Theorem load_markets_sheet :
  (forall header header' rows,
      load_rows (header :: rows) = load_rows (header' :: rows))
  /\ (forall header a b,
        load_rows (header :: a ++ b)
        = load_rows (header :: a) ++ load_rows (header :: b))
  /\ (forall header rows,
        load_rows (header :: map (firstn 3) rows) = load_rows (header :: rows))
  /\ (forall values, (length (load_rows values) <= length values - 1)%nat)
  /\ (forall open_by_key config markets m,
        load_markets open_by_key config = Ok markets -> In m markets ->
        clean_field (store_name m) /\ clean_field (client_id m)
        /\ clean_field (client_secret m))
  /\ (forall values m, In m (load_rows values) ->
        exists row, In row (tl values) /\ (3 <= length row)%nat
                    /\ store_name m = S_str (nth 0 row [])
                    /\ client_id m = S_str (nth 1 row [])
                    /\ client_secret m = S_str (nth 2 row [])).
Proof.
  split; [reflexivity|].
  split.
  { intros header a b. rewrite !load_rows_filter. cbn [tl].
    now rewrite filter_app, map_app. }
  split.
  { intros header rows. rewrite !load_rows_filter. cbn [tl].
    apply load_rows_firstn3. }
  split.
  { intros values. rewrite load_rows_filter, length_map.
    etransitivity; [apply filter_length_le|].
    destruct values; cbn [tl length]; lia. }
  split.
  { intros open_by_key config markets m Hload Hin.
    apply load_markets_ok_rows in Hload as [values ->].
    exact (load_rows_clean values m Hin). }
  intros values m. rewrite load_rows_filter. intros Hin.
  apply in_map_iff in Hin as (row & <- & Hrow).
  apply filter_In in Hrow as [Hrow Hq].
  exists row. split; [exact Hrow|]. split; [|repeat split].
  unfold row_qualifies in Hq.
  apply andb_prop in Hq as [Hq _].
  apply andb_prop in Hq as [Hq _].
  apply andb_prop in Hq as [Hq _].
  now apply Nat.leb_le.
Qed.

Lemma load_markets_sheet_witness :
  clean_field (u "스토어A") /\ clean_field (u "id-2") /\ clean_field (u "secret-2").
Proof.
  apply (proj1 (proj2 (proj2 (proj2 (proj2 load_markets_sheet))))
           example_open example_config
           [market_of_row [u "스토어A"; u "id-1"; u "secret-1"];
            market_of_row [u "스토어A "; u "id-2"; u "secret-2"]]
           (market_of_row [u "스토어A "; u "id-2"; u "secret-2"])).
  - vm_compute. reflexivity.
  - right. left. reflexivity.
Defined.

(** ** The signature *)

Lemma lstrip_app_space (a t : pystr) :
  all_space a = true -> lstrip (a ++ t) = lstrip t.
Proof.
  unfold all_space. induction a as [|c a IH]; cbn [app lstrip forallb];
    [reflexivity|].
  intros H. apply andb_prop in H as [-> Ha]. exact (IH Ha).
Qed.

Lemma lstrip_app (s b : pystr) :
  lstrip (s ++ b) = if all_space s then lstrip b else lstrip s ++ b.
Proof.
  unfold all_space. induction s as [|c s IH]; cbn [app lstrip forallb];
    [reflexivity|].
  destruct (py_isspace c); cbn [andb]; [exact IH | reflexivity].
Qed.

Lemma rstrip_app_space (t b : pystr) :
  all_space b = true -> rstrip (t ++ b) = rstrip t.
Proof.
  intros H. unfold rstrip. rewrite rev_app_distr, lstrip_app_space; [reflexivity|].
  now rewrite all_space_rev.
Qed.

(** Whitespace around a text does not change what [strip] gives. *)
Lemma strip_context (a s b : pystr) :
  all_space a = true -> all_space b = true -> strip (a ++ s ++ b) = strip s.
Proof.
  intros Ha Hb. unfold strip. rewrite (@lstrip_app_space a (s ++ b) Ha), lstrip_app.
  destruct (all_space s) eqn:Es.
  - now rewrite (@lstrip_all_space b Hb), (@lstrip_all_space s Es).
  - now apply rstrip_app_space.
Qed.

Lemma list_ind3 {X : Type} (P : list X -> Prop) :
  P [] -> (forall a, P [a]) -> (forall a b, P [a; b]) ->
  (forall a b c r, P r -> P (a :: b :: c :: r)) ->
  forall l, P l.
Proof.
  intros H0 H1 H2 H3.
  assert (G : forall n l, (length l <= n)%nat -> P l).
  { induction n as [|n IH]; intros l Hlen.
    - destruct l; [exact H0 | cbn [length] in Hlen; lia].
    - destruct l as [|a [|b [|c r]]]; auto.
      apply H3, IH. cbn [length] in Hlen. lia. }
  intros l. now apply (G (length l)).
Qed.

Lemma b64encode_length (bs : bytes) :
  length (b64encode bs) = (4 * ((length bs + 2) / 3))%nat.
Proof.
  induction bs as [|a|a b|a b c r IH] using list_ind3; try reflexivity.
  cbn [b64encode length]. rewrite IH.
  replace (S (S (S (length r))) + 2)%nat with ((length r + 2) + 1 * 3)%nat by lia.
  rewrite Nat.div_add by lia. lia.
Qed.

Lemma base64_char_spec (c : N) :
  base64_char c = true
  <-> (65 <= c <= 90 \/ 97 <= c <= 122 \/ 48 <= c <= 57
       \/ c = 43 \/ c = 47 \/ c = 61)%N.
Proof.
  unfold base64_char.
  rewrite !orb_true_iff, !andb_true_iff, !N.leb_le, !N.eqb_eq. tauto.
Qed.

Lemma b64char_base64 (n : N) : base64_char (b64char n) = true.
Proof.
  apply base64_char_spec. unfold b64char.
  destruct (N.ltb_spec n 26); [lia|].
  destruct (N.ltb_spec n 52); [lia|].
  destruct (N.ltb_spec n 62); [lia|].
  destruct (N.eqb_spec n 62); lia.
Qed.

Lemma b64encode_base64 (bs : bytes) : forallb base64_char (b64encode bs) = true.
Proof.
  induction bs as [|a|a b|a b c r IH] using list_ind3;
    cbn [b64encode forallb]; rewrite ?b64char_base64, ?IH; reflexivity.
Qed.

Lemma utf8_decode_base64 (bs : bytes) :
  forallb base64_char bs = true -> utf8_decode bs = bs.
Proof.
  induction bs as [|c bs IH]; cbn [forallb utf8_decode]; [reflexivity|].
  intros H. apply andb_prop in H as [Hc Hbs].
  apply base64_char_spec in Hc.
  destruct (N.ltb_spec c 128); [|lia]. now rewrite (IH Hbs).
Qed.

(** X14: whitespace around the secret does not change what
    [sign_client_secret] returns or raises; a signature it returns is the
    base64 text of the hash bcrypt computed from [client_id_timestamp] with
    the stripped secret as the salt: four characters of the base64 alphabet
    (or padding) for every three bytes of the hash, which decoding leaves as
    they are. *)
Theorem sign_client_secret_text (rt : Runtime) (cid sec : pystr) (ts : Z) :
  (forall a b, all_space a = true -> all_space b = true ->
     sign_client_secret rt cid (a ++ sec ++ b) ts
     = sign_client_secret rt cid sec ts)
  /\ (forall sig, sign_client_secret rt cid sec ts = Ok sig ->
        exists pwd salt hashed,
          utf8_bytes (cid ++ u "_" ++ str_int ts) = Some pwd
          /\ utf8_bytes (strip sec) = Some salt
          /\ hashpw rt pwd salt = Ok hashed
          /\ sig = b64encode hashed
          /\ length sig = (4 * ((length hashed + 2) / 3))%nat
          /\ forallb base64_char sig = true).
Proof.
  split.
  - intros a b Ha Hb. unfold sign_client_secret.
    now rewrite (@strip_context a sec b Ha Hb).
  - intros sig. unfold sign_client_secret, encode_utf8.
    destruct (utf8_bytes (cid ++ u "_" ++ str_int ts)) as [pwd|]; [|discriminate].
    destruct (utf8_bytes (strip sec)) as [salt|]; [|discriminate].
    destruct (hashpw rt pwd salt) as [hashed|e] eqn:Eh; [|discriminate].
    intros [= <-]. exists pwd, salt, hashed.
    rewrite (@utf8_decode_base64 _ (b64encode_base64 hashed)).
    repeat split; auto using b64encode_length, b64encode_base64.
Qed.

Lemma sign_client_secret_text_witness :
  sign_client_secret example_runtime (client_id owner_store)
    (u "  " ++ client_secret owner_store ++ [newline]) 0
  = sign_client_secret example_runtime (client_id owner_store)
      (client_secret owner_store) 0.
Proof.
  apply (proj1 (sign_client_secret_text example_runtime (client_id owner_store)
                  (client_secret owner_store) 0)); vm_compute; reflexivity.
Defined.

(** ** The classifier and the text around a term *)

Lemma py_in_context (t a s b : pystr) :
  py_in t s = true -> py_in t (a ++ s ++ b) = true.
Proof.
  rewrite !py_in_Substring. intros (pre & post & ->).
  exists (a ++ pre), (post ++ b). now rewrite <- !app_assoc.
Qed.

Lemma rule_index_context (rules : list (list pystr * pystr)) (a s b : pystr) :
  (rule_index rules (a ++ s ++ b) <= rule_index rules s)%nat.
Proof.
  induction rules as [|[terms code] rules IH]; cbn [rule_index]; [lia|].
  destruct (existsb (fun t => py_in t s) terms) eqn:E.
  - apply existsb_exists in E as (t & Ht & Hin).
    assert (E' : existsb (fun t => py_in t (a ++ s ++ b)) terms = true).
    { apply existsb_exists. exists t. split; [exact Ht|]. now apply py_in_context. }
    rewrite E'. lia.
  - destruct (existsb (fun t => py_in t (a ++ s ++ b)) terms); lia.
Qed.

Lemma rule_index_bound (rules : list (list pystr * pystr)) (text : pystr) :
  (rule_index rules text <= length rules)%nat.
Proof.
  induction rules as [|[terms code] rules IH]; cbn [rule_index length]; [lia|].
  destruct (existsb _ terms); lia.
Qed.

Lemma first_match_index (rules : list (list pystr * pystr)) (text : pystr) :
  first_match rules text = nth (rule_index rules text) (map snd rules) (u "ETC").
Proof.
  induction rules as [|[terms code] rules IH]; cbn [first_match rule_index map];
    [reflexivity|].
  destruct (existsb _ terms); [reflexivity | exact IH].
Qed.

Lemma rule_index_none (rules : list (list pystr * pystr)) (text : pystr) :
  rule_index rules text = length rules ->
  forall terms code t, In (terms, code) rules -> In t terms -> ~ Substring t text.
Proof.
  induction rules as [|[terms0 code0] rules IH]; cbn [rule_index length];
    intros Hidx terms code t Hrule Ht Hsub; [destruct Hrule|].
  destruct (existsb (fun t => py_in t text) terms0) eqn:E; [discriminate|].
  destruct Hrule as [[= <- <-]|Hrule].
  - apply py_in_Substring in Hsub.
    assert (E' : existsb (fun t => py_in t text) terms0 = true)
      by (apply existsb_exists; now exists t).
    congruence.
  - injection Hidx as Hidx. exact (IH Hidx terms code t Hrule Ht Hsub).
Qed.

Lemma code_priority_index (s : pystr) :
  code_priority (get_delay_reason_code s) = rule_index rule_table s.
Proof.
  rewrite get_delay_reason_code_table, first_match_index.
  pose proof (rule_index_bound rule_table s) as Hb.
  change (length rule_table) with 5%nat in Hb.
  destruct (rule_index rule_table s) as [|[|[|[|[|[|i]]]]]];
    [vm_compute; reflexivity .. | lia].
Qed.

Lemma code_priority_etc (s : pystr) :
  rule_index rule_table s = 5%nat <-> get_delay_reason_code s = u "ETC".
Proof.
  split.
  - intros E. now rewrite get_delay_reason_code_table, first_match_index, E.
  - intros E. rewrite <- code_priority_index, E. vm_compute. reflexivity.
Qed.

(** X15: text added before or after a reason never moves it to a rule the
    source tests later: the code of the longer text comes at the same place
    or earlier in the order OVERSEA_DELIVERY, CUSTOM_BUILD,
    RESERVED_DISPATCH, CUSTOMER_REQUEST, PRODUCT_PREPARE, ETC; so a text
    classified ETC has only parts classified ETC, and it is classified ETC
    exactly when it contains none of the terms of the five rules. *)
Theorem get_delay_reason_code_context (a s b : pystr) :
  (code_priority (get_delay_reason_code (a ++ s ++ b))
   <= code_priority (get_delay_reason_code s))%nat
  /\ (get_delay_reason_code (a ++ s ++ b) = u "ETC" ->
      get_delay_reason_code s = u "ETC")
  /\ (get_delay_reason_code s = u "ETC"
      <-> forall terms code t,
            In (terms, code) rule_table -> In t terms -> ~ Substring t s).
Proof.
  split; [rewrite !code_priority_index; apply rule_index_context|].
  split.
  - intros E. apply code_priority_etc. apply code_priority_etc in E.
    pose proof (rule_index_context rule_table a s b).
    pose proof (rule_index_bound rule_table s) as Hb.
    change (length rule_table) with 5%nat in Hb. lia.
  - split.
    + intros E. apply code_priority_etc in E. now apply rule_index_none.
    + intros Hnone. rewrite get_delay_reason_code_table.
      assert (G : forall rules, incl rules rule_table -> first_match rules s = u "ETC").
      { induction rules as [|[terms code] rules IH]; intros Hincl;
          cbn [first_match]; [reflexivity|].
        destruct (existsb (fun t => py_in t s) terms) eqn:E.
        - apply existsb_exists in E as (t & Ht & Hin).
          apply py_in_Substring in Hin.
          exfalso. apply (Hnone terms code t); auto. apply Hincl. now left.
        - apply IH. intros r Hr. apply Hincl. now right. }
      apply G, incl_refl.
Qed.

Lemma get_delay_reason_code_context_witness :
  get_delay_reason_code (u "기타 사유") = u "ETC".
Proof.
  apply (proj1 (proj2 (get_delay_reason_code_context (u "(") (u "기타 사유") (u ")")))).
  vm_compute. reflexivity.
Defined.

(** ** Dictionaries *)

Lemma str_eqb_eq (a b : pystr) : str_eqb a b = true -> a = b.
Proof.
  revert b; induction a as [|x a IH]; intros [|y b]; cbn [str_eqb];
    try discriminate; [reflexivity|].
  intros H. apply andb_prop in H as [Hx Hab].
  apply N.eqb_eq in Hx. now rewrite Hx, (IH b Hab).
Qed.

Lemma str_eqb_other (k k0 k' : pystr) :
  str_eqb k0 k = false -> str_eqb k0 k' = true -> str_eqb k k' = false.
Proof.
  intros Hne Heq. apply str_eqb_eq in Heq. subst k'.
  destruct (str_eqb k k0) eqn:E; [|reflexivity].
  apply str_eqb_eq in E. subst k0. now rewrite str_eqb_refl in Hne.
Qed.

Lemma dict_get_set (d : list (pystr * pyval)) (k : pystr) (v : pyval) (k' : pystr) :
  dict_get (dict_set d k v) k' = if str_eqb k k' then Some v else dict_get d k'.
Proof.
  induction d as [|[k0 x] d IH]; cbn [dict_set dict_get]; [reflexivity|].
  destruct (str_eqb k0 k) eqn:E; cbn [dict_get].
  - apply str_eqb_eq in E. subst k0. now destruct (str_eqb k k').
  - rewrite IH. destruct (str_eqb k0 k') eqn:E'; [|reflexivity].
    now rewrite (@str_eqb_other k k0 k' E E').
Qed.

Lemma dict_get_del (d : list (pystr * pyval)) (k k' : pystr) :
  dict_get (dict_del d k) k' = if str_eqb k k' then None else dict_get d k'.
Proof.
  unfold dict_del.
  induction d as [|[k0 x] d IH]; cbn [filter dict_get fst];
    [now destruct (str_eqb k k')|].
  destruct (str_eqb k0 k) eqn:E; cbn [negb dict_get].
  - apply str_eqb_eq in E. subst k0. rewrite IH. now destruct (str_eqb k k').
  - rewrite IH. destruct (str_eqb k0 k') eqn:E'; [|reflexivity].
    now rewrite (@str_eqb_other k k0 k' E E').
Qed.

Lemma dict_mem_set (d : list (pystr * pyval)) (k : pystr) (v : pyval) (k' : pystr) :
  dict_mem (dict_set d k v) k' = str_eqb k k' || dict_mem d k'.
Proof. unfold dict_mem. rewrite dict_get_set. now destruct (str_eqb k k'). Qed.

(** ** The session's configuration *)

Lemma key_credentials_spreadsheet :
  str_eqb (u "credentials") (u "spreadsheet_key") = false.
Proof. vm_compute. reflexivity. Qed.

Lemma key_spreadsheet_credentials :
  str_eqb (u "spreadsheet_key") (u "credentials") = false.
Proof. vm_compute. reflexivity. Qed.

Section SessionFacts.

Variable dict_of : pyval -> pyres pyval.
Variable secrets : option Secrets.

(** What the [try] block of [get_config] leaves under the two keys. *)
Lemma read_secrets_credentials :
  dict_get (read_secrets dict_of secrets []) (u "credentials")
  = match secrets with
    | None => None
    | Some sec =>
      match read_credentials dict_of sec [] with
      | Ok config => dict_get config (u "credentials")
      | Err _ => None
      end
    end.
Proof.
  unfold read_secrets. destruct secrets as [sec|]; [|reflexivity].
  destruct (read_credentials dict_of sec []) as [config|e]; [|reflexivity].
  unfold read_spreadsheet_key.
  destruct (secrets_contains sec (u "spreadsheet_key")) as [[|]|e];
    try reflexivity.
  destruct (secrets_getitem sec (u "spreadsheet_key")) as [v|e];
    [|reflexivity].
  now rewrite dict_get_set, key_spreadsheet_credentials.
Qed.

Lemma read_credentials_key (sec : Secrets) (config : list (pystr * pyval)) :
  read_credentials dict_of sec [] = Ok config ->
  dict_get config (u "spreadsheet_key") = None.
Proof.
  unfold read_credentials.
  destruct (secrets_contains sec (u "gcp_service_account")) as [[|]|e];
    try discriminate.
  - destruct (secrets_getitem sec (u "gcp_service_account")) as [v|e];
      [|discriminate].
    destruct (dict_of v) as [d|e]; [|discriminate].
    intros [= <-]. cbn [dict_set dict_get].
    now rewrite key_credentials_spreadsheet.
  - now intros [= <-].
Qed.

Lemma read_secrets_spreadsheet_key :
  dict_get (read_secrets dict_of secrets []) (u "spreadsheet_key")
  = match secrets with
    | None => None
    | Some sec =>
      match read_credentials dict_of sec [] with
      | Ok _ =>
        match secrets_contains sec (u "spreadsheet_key") with
        | Ok true =>
          match secrets_getitem sec (u "spreadsheet_key") with
          | Ok v => Some v
          | Err _ => None
          end
        | _ => None
        end
      | Err _ => None
      end
    end.
Proof.
  unfold read_secrets. destruct secrets as [sec|]; [|reflexivity].
  destruct (read_credentials dict_of sec []) as [config|e] eqn:Ec; [|reflexivity].
  pose proof (read_credentials_key sec Ec) as Hk.
  unfold read_spreadsheet_key.
  destruct (secrets_contains sec (u "spreadsheet_key")) as [[|]|e];
    try exact Hk.
  destruct (secrets_getitem sec (u "spreadsheet_key")) as [v|e];
    [|exact Hk].
  now rewrite dict_get_set, str_eqb_refl.
Qed.

Lemma read_secrets_keys (k : pystr) (v : pyval) :
  dict_get (read_secrets dict_of secrets []) k = Some v ->
  k = u "credentials" \/ k = u "spreadsheet_key".
Proof.
  assert (Hc : forall sec config, read_credentials dict_of sec [] = Ok config ->
                 dict_get config k = Some v -> k = u "credentials").
  { intros sec config. unfold read_credentials.
    destruct (secrets_contains sec (u "gcp_service_account")) as [[|]|e];
      try discriminate.
    - destruct (secrets_getitem sec (u "gcp_service_account")) as [x|e];
        [|discriminate].
      destruct (dict_of x) as [d|e]; [|discriminate].
      intros [= <-]. cbn [dict_set dict_get].
      destruct (str_eqb (u "credentials") k) eqn:E; [|discriminate].
      intros _. symmetry. now apply str_eqb_eq.
    - intros [= <-]. discriminate. }
  unfold read_secrets. destruct secrets as [sec|]; [|discriminate].
  destruct (read_credentials dict_of sec []) as [config|e] eqn:Ec; [|discriminate].
  unfold read_spreadsheet_key.
  destruct (secrets_contains sec (u "spreadsheet_key")) as [[|]|e];
    try (intros H; left; exact (Hc sec config Ec H)).
  destruct (secrets_getitem sec (u "spreadsheet_key")) as [x|e];
    [|intros H; left; exact (Hc sec config Ec H)].
  rewrite dict_get_set.
  destruct (str_eqb (u "spreadsheet_key") k) eqn:E.
  - intros _. right. symmetry. now apply str_eqb_eq.
  - intros H. left. exact (Hc sec config Ec H).
Qed.

(** The value [get_config] returns under each key: what the [try] block
    left there, and the value of the session otherwise. *)
Lemma get_config_credentials (session_state : list (pystr * pyval)) :
  dict_get (get_config dict_of secrets session_state) (u "credentials")
  = match dict_get (read_secrets dict_of secrets []) (u "credentials") with
    | Some v => Some v
    | None => dict_get session_state (u "user_credentials")
    end.
Proof.
  unfold get_config. cbv zeta.
  generalize (read_secrets dict_of secrets []). intros c0.
  set (c1 := if negb (dict_mem c0 (u "credentials"))
                && dict_mem session_state (u "user_credentials")
             then _ else c0).
  assert (E1 : dict_get c1 (u "credentials")
               = match dict_get c0 (u "credentials") with
                 | Some v => Some v
                 | None => dict_get session_state (u "user_credentials")
                 end).
  { subst c1. unfold dict_mem, dict_get_default.
    destruct (dict_get c0 (u "credentials")) as [v|] eqn:E0;
      cbn [negb andb]; [exact E0|].
    destruct (dict_get session_state (u "user_credentials")) as [w|];
      [|exact E0].
    now rewrite dict_get_set, str_eqb_refl. }
  clearbody c1. rewrite <- E1.
  destruct (negb (dict_mem c1 (u "spreadsheet_key"))
            && dict_mem session_state (u "user_spreadsheet_key"));
    [|reflexivity].
  now rewrite dict_get_set, key_spreadsheet_credentials.
Qed.

Lemma get_config_spreadsheet_key (session_state : list (pystr * pyval)) :
  dict_get (get_config dict_of secrets session_state) (u "spreadsheet_key")
  = match dict_get (read_secrets dict_of secrets []) (u "spreadsheet_key") with
    | Some v => Some v
    | None => dict_get session_state (u "user_spreadsheet_key")
    end.
Proof.
  unfold get_config. cbv zeta.
  generalize (read_secrets dict_of secrets []). intros c0.
  set (c1 := if negb (dict_mem c0 (u "credentials"))
                && dict_mem session_state (u "user_credentials")
             then _ else c0).
  assert (E1 : dict_get c1 (u "spreadsheet_key") = dict_get c0 (u "spreadsheet_key")).
  { subst c1.
    destruct (negb (dict_mem c0 (u "credentials"))
              && dict_mem session_state (u "user_credentials"));
      [|reflexivity].
    now rewrite dict_get_set, key_credentials_spreadsheet. }
  clearbody c1. rewrite <- E1.
  unfold dict_mem, dict_get_default.
  destruct (dict_get c1 (u "spreadsheet_key")) as [v|] eqn:E0;
    cbn [negb andb]; [exact E0|].
  destruct (dict_get session_state (u "user_spreadsheet_key")) as [w|];
    [|exact E0].
  now rewrite dict_get_set, str_eqb_refl.
Qed.

Lemma get_config_keys (session_state : list (pystr * pyval)) (k : pystr) (v : pyval) :
  dict_get (get_config dict_of secrets session_state) k = Some v ->
  k = u "credentials" \/ k = u "spreadsheet_key".
Proof.
  unfold get_config. cbv zeta.
  pose proof (@read_secrets_keys k) as H0.
  revert H0. generalize (read_secrets dict_of secrets []). intros c0 H0.
  set (c1 := if negb (dict_mem c0 (u "credentials"))
                && dict_mem session_state (u "user_credentials")
             then _ else c0).
  assert (H1 : forall x, dict_get c1 k = Some x ->
                 k = u "credentials" \/ k = u "spreadsheet_key").
  { subst c1.
    destruct (negb (dict_mem c0 (u "credentials"))
              && dict_mem session_state (u "user_credentials"));
      [|exact H0].
    intros x. rewrite dict_get_set.
    destruct (str_eqb (u "credentials") k) eqn:E; [|apply H0].
    intros _. left. symmetry. now apply str_eqb_eq. }
  clearbody c1.
  destruct (negb (dict_mem c1 (u "spreadsheet_key"))
            && dict_mem session_state (u "user_spreadsheet_key"));
    [|apply H1].
  rewrite dict_get_set.
  destruct (str_eqb (u "spreadsheet_key") k) eqn:E; [|apply H1].
  intros _. right. symmetry. now apply str_eqb_eq.
Qed.

(** [get_config] reads two entries of the session and nothing else. *)
Lemma get_config_ext (ss1 ss2 : list (pystr * pyval)) :
  dict_get ss1 (u "user_credentials") = dict_get ss2 (u "user_credentials") ->
  dict_get ss1 (u "user_spreadsheet_key") = dict_get ss2 (u "user_spreadsheet_key") ->
  get_config dict_of secrets ss1 = get_config dict_of secrets ss2.
Proof.
  intros H1 H2.
  assert (M1 : dict_mem ss1 (u "user_credentials")
               = dict_mem ss2 (u "user_credentials"))
    by (unfold dict_mem; now rewrite H1).
  assert (M2 : dict_mem ss1 (u "user_spreadsheet_key")
               = dict_mem ss2 (u "user_spreadsheet_key"))
    by (unfold dict_mem; now rewrite H2).
  unfold get_config, dict_get_default. now rewrite H1, H2, M1, M2.
Qed.

End SessionFacts.

(** X16: the configuration [get_config] returns has no entry but
    [credentials] and [spreadsheet_key]. The service account of the secrets,
    when it is there and [dict] accepts it, is the credentials, whatever the
    session holds; the key of the secrets is the spreadsheet key when reading
    the service account raised nothing. Without secrets, and when reading
    the service account raises, both entries are those of the session, a key
    held by the secrets included; an entry the secrets lack, or whose
    reading raises, is the one of the session. *)
Theorem get_config_sources (dict_of : pyval -> pyres pyval)
  (secrets : option Secrets) (session_state : list (pystr * pyval)) :
  let config := get_config dict_of secrets session_state in
  (forall k v, dict_get config k = Some v ->
     k = u "credentials" \/ k = u "spreadsheet_key")
  /\ (forall sec v d, secrets = Some sec ->
        secrets_contains sec (u "gcp_service_account") = Ok true ->
        secrets_getitem sec (u "gcp_service_account") = Ok v ->
        dict_of v = Ok d ->
        dict_get config (u "credentials") = Some d)
  /\ (forall sec c v, secrets = Some sec ->
        read_credentials dict_of sec [] = Ok c ->
        secrets_contains sec (u "spreadsheet_key") = Ok true ->
        secrets_getitem sec (u "spreadsheet_key") = Ok v ->
        dict_get config (u "spreadsheet_key") = Some v)
  /\ (secrets = None
      \/ (exists sec e, secrets = Some sec
                        /\ read_credentials dict_of sec [] = Err e) ->
      dict_get config (u "credentials")
      = dict_get session_state (u "user_credentials")
      /\ dict_get config (u "spreadsheet_key")
         = dict_get session_state (u "user_spreadsheet_key"))
  /\ (forall sec, secrets = Some sec ->
        secrets_contains sec (u "gcp_service_account") = Ok false ->
        dict_get config (u "credentials")
        = dict_get session_state (u "user_credentials"))
  /\ (forall sec, secrets = Some sec ->
        secrets_contains sec (u "spreadsheet_key") = Ok false
        \/ (exists e, secrets_contains sec (u "spreadsheet_key") = Err e)
        \/ (exists e, secrets_getitem sec (u "spreadsheet_key") = Err e) ->
        dict_get config (u "spreadsheet_key")
        = dict_get session_state (u "user_spreadsheet_key")).
Proof.
  intros config. subst config.
  split; [intros k v; apply get_config_keys|].
  rewrite get_config_credentials, get_config_spreadsheet_key.
  rewrite read_secrets_credentials, read_secrets_spreadsheet_key.
  split.
  { intros sec v d -> Hin Hget Hd. unfold read_credentials.
    rewrite Hin, Hget, Hd. cbn [dict_set dict_get].
    now rewrite str_eqb_refl. }
  split.
  { intros sec c v -> Hc Hin Hget. now rewrite Hc, Hin, Hget. }
  split.
  { intros [->|(sec & e & -> & ->)]; split; reflexivity. }
  split.
  { intros sec -> Hin. unfold read_credentials. now rewrite Hin. }
  intros sec -> H.
  destruct (read_credentials dict_of sec []) as [c|e]; [|reflexivity].
  destruct H as [->|[[e ->]|[e He]]]; try reflexivity.
  rewrite He. now destruct (secrets_contains sec (u "spreadsheet_key")) as [[|]|e'].
Qed.

Lemma get_config_sources_witness :
  dict_get (get_config example_dict (Some example_secrets) example_session)
    (u "credentials")
  = Some (PDict [(u "client_email", PStr (u "svc@example.iam"))]).
Proof.
  apply (proj1 (proj2 (get_config_sources example_dict (Some example_secrets)
                         example_session))
           example_secrets
           (PDict [(u "client_email", PStr (u "svc@example.iam"))])
           (PDict [(u "client_email", PStr (u "svc@example.iam"))]));
    vm_compute; reflexivity.
Defined.

(** ** The page that is shown *)

Lemma str_eqb_neq (a b : pystr) : a <> b -> str_eqb a b = false.
Proof.
  intros H. destruct (str_eqb a b) eqn:E; [|reflexivity].
  now apply str_eqb_eq in E.
Qed.

Lemma key_complete_credentials :
  str_eqb (u "config_complete") (u "user_credentials") = false.
Proof. vm_compute. reflexivity. Qed.

Lemma key_complete_spreadsheet :
  str_eqb (u "config_complete") (u "user_spreadsheet_key") = false.
Proof. vm_compute. reflexivity. Qed.

Lemma key_user_credentials_spreadsheet :
  str_eqb (u "user_credentials") (u "user_spreadsheet_key") = false.
Proof. vm_compute. reflexivity. Qed.

Lemma key_user_spreadsheet_credentials :
  str_eqb (u "user_spreadsheet_key") (u "user_credentials") = false.
Proof. vm_compute. reflexivity. Qed.

Lemma key_user_credentials_complete :
  str_eqb (u "user_credentials") (u "config_complete") = false.
Proof. vm_compute. reflexivity. Qed.

Lemma key_user_spreadsheet_complete :
  str_eqb (u "user_spreadsheet_key") (u "config_complete") = false.
Proof. vm_compute. reflexivity. Qed.

Lemma dict_mem_config_get (d : list (pystr * pyval)) (k : pystr) :
  truthy (config_get d k) = true -> dict_mem d k = true.
Proof.
  unfold config_get, dict_mem. now destruct (dict_get d k).
Qed.

Lemma load_markets_incomplete (open_by_key : pyval -> pyval -> pyres Spreadsheet)
  (config : list (pystr * pyval)) :
  truthy (config_get config (u "credentials")) = false
  \/ truthy (config_get config (u "spreadsheet_key")) = false ->
  load_markets open_by_key config
  = Err (mkExc (u "ValueError") (u "설정이 완료되지 않았습니다.")).
Proof.
  intros H. unfold load_markets.
  destruct H as [-> | ->]; cbn [negb orb]; [reflexivity|].
  now rewrite orb_true_r.
Qed.

(** X17: [main] shows the main application whenever the configuration holds
    credentials and a spreadsheet key that [load_markets] accepts; when it
    shows the settings page, [load_markets] would have raised its
    [ValueError]. With an entry missing or empty (an empty key among the
    secrets, or a session marked complete), [main_app] reports this
    [ValueError] as a failed load without reaching the sheet, and offers the
    settings again; with no button pressed it goes on to the form exactly
    when [load_markets] returns, and never asks for a rerun. *)
Theorem main_shows_app (dict_of : pyval -> pyres pyval)
  (secrets : option Secrets) (session_state : list (pystr * pyval)) :
  let config := get_config dict_of secrets session_state in
  (truthy (config_get config (u "credentials")) = true ->
   truthy (config_get config (u "spreadsheet_key")) = true ->
   main dict_of secrets session_state = MainApp)
  /\ (main dict_of secrets session_state = SettingsPage ->
      forall open_by_key,
        load_markets open_by_key config
        = Err (mkExc (u "ValueError") (u "설정이 완료되지 않았습니다.")))
  /\ (truthy (config_get config (u "credentials")) = false
      \/ truthy (config_get config (u "spreadsheet_key")) = false ->
      forall open_by_key,
        main_app_start dict_of secrets open_by_key false false session_state
        = LoadFailed (st_error (u "❌ 마켓 정보 로드 실패: "
                                  ++ u "설정이 완료되지 않았습니다."))
        /\ main_app_start dict_of secrets open_by_key false true session_state
           = Restart (dict_set session_state (u "config_complete") (PBool false)))
  /\ (forall open_by_key retry_pressed markets,
        main_app_start dict_of secrets open_by_key false retry_pressed session_state
        = Ready markets
        <-> load_markets open_by_key config = Ok markets)
  /\ (forall open_by_key next,
        main_app_start dict_of secrets open_by_key false false session_state
        <> Restart next).
Proof.
  intros config.
  assert (Hboth : dict_mem config (u "credentials")
                  && dict_mem config (u "spreadsheet_key") = false ->
                  truthy (config_get config (u "credentials")) = false
                  \/ truthy (config_get config (u "spreadsheet_key")) = false).
  { unfold dict_mem, config_get.
    destruct (dict_get config (u "credentials")); [|now left].
    destruct (dict_get config (u "spreadsheet_key")); [discriminate | now right]. }
  split.
  { intros Hc Hk. unfold main. cbv zeta. fold config.
    now rewrite (dict_mem_config_get _ _ Hc), (dict_mem_config_get _ _ Hk). }
  split.
  { unfold main. cbv zeta. fold config.
    destruct (dict_mem config (u "credentials")
              && dict_mem config (u "spreadsheet_key")) eqn:E; [discriminate|].
    intros _ open_by_key. now apply load_markets_incomplete, Hboth. }
  split.
  { intros H open_by_key. unfold main_app_start. cbv zeta. fold config.
    rewrite (load_markets_incomplete open_by_key config H).
    split; reflexivity. }
  split.
  { intros open_by_key retry_pressed markets.
    unfold main_app_start. cbv zeta. fold config.
    destruct (load_markets open_by_key config) as [ms|e].
    - split; intros [= ->]; reflexivity.
    - split; [|discriminate]. now destruct retry_pressed. }
  intros open_by_key next. unfold main_app_start. cbv zeta. fold config.
  now destruct (load_markets open_by_key config).
Qed.

Lemma main_shows_app_witness :
  main example_dict (Some example_secrets) [] = MainApp
  /\ main_app_start example_dict None example_open false false
       [(u "config_complete", PBool true)]
     = LoadFailed (st_error (u "❌ 마켓 정보 로드 실패: "
                               ++ u "설정이 완료되지 않았습니다.")).
Proof.
  split.
  - apply (proj1 (main_shows_app example_dict (Some example_secrets) []));
      vm_compute; reflexivity.
  - apply (proj1 (proj2 (proj2 (main_shows_app example_dict None
                                  [(u "config_complete", PBool true)])))).
    left. vm_compute. reflexivity.
Defined.

(** ** The settings page and the reset *)

Section SettingsFacts.

Variable rt : Runtime.
Variable dict_of : pyval -> pyres pyval.
Variable secrets : option Secrets.

(** Marking the session does not change its configuration. *)
Lemma get_config_complete (session_state : list (pystr * pyval)) (v : pyval) :
  get_config dict_of secrets (dict_set session_state (u "config_complete") v)
  = get_config dict_of secrets session_state.
Proof.
  apply get_config_ext; rewrite dict_get_set.
  - now rewrite key_complete_credentials.
  - now rewrite key_complete_spreadsheet.
Qed.

(** The session after the upload and the key field were handled. *)
Lemma settings_session (uploaded_file : option (pyres pyval))
  (spreadsheet_key : pystr) (pressed : bool) (session_state : list (pystr * pyval)) :
  exists entered notices,
    dict_get entered (u "config_complete")
    = dict_get session_state (u "config_complete")
    /\ (forall credentials, uploaded_file = Some (Ok credentials) ->
          dict_get entered (u "user_credentials") = Some credentials)
    /\ (truthy_str spreadsheet_key = true ->
        dict_get entered (u "user_spreadsheet_key") = Some (PStr spreadsheet_key))
    /\ show_settings_page rt dict_of secrets uploaded_file spreadsheet_key
         pressed session_state
       = if pressed then
           if dict_mem (get_config dict_of secrets entered) (u "credentials")
              && dict_mem (get_config dict_of secrets entered) (u "spreadsheet_key")
           then SettingsRerun (dict_set entered (u "config_complete") (PBool true))
           else SettingsShown entered
                  (notices ++
                   [st_error (u "❌ credentials.json과 스프레드시트 키를 모두 입력해주세요.")])
         else SettingsShown entered notices.
Proof.
  unfold show_settings_page.
  set (first := match uploaded_file with
                | Some (Ok credentials) => _
                | Some (Err e) => _
                | None => _
                end).
  assert (H1 : dict_get (fst first) (u "config_complete")
               = dict_get session_state (u "config_complete")
               /\ forall credentials, uploaded_file = Some (Ok credentials) ->
                    dict_get (fst first) (u "user_credentials") = Some credentials).
  { subst first. destruct uploaded_file as [[credentials|e]|].
    - destruct (py_get rt credentials (u "client_email") (PStr (u "Unknown")));
        cbn [fst]; rewrite !dict_get_set, key_user_credentials_complete,
                     str_eqb_refl;
        (split; [reflexivity | now intros c [= ->]]).
    - split; [reflexivity | discriminate].
    - split; [reflexivity | discriminate]. }
  clearbody first. destruct first as [entered notices]. cbn [fst] in H1.
  destruct H1 as [Hc Hu].
  exists (if truthy_str spreadsheet_key
          then dict_set entered (u "user_spreadsheet_key") (PStr spreadsheet_key)
          else entered), notices.
  split; [|split; [|split; [|reflexivity]]].
  - destruct (truthy_str spreadsheet_key); [|exact Hc].
    now rewrite dict_get_set, key_user_spreadsheet_complete.
  - intros credentials E. destruct (truthy_str spreadsheet_key); [|now apply Hu].
    rewrite dict_get_set, key_user_spreadsheet_credentials. now apply Hu.
  - intros ->. now rewrite dict_get_set, str_eqb_refl.
Qed.

End SettingsFacts.

(** X18: when the settings page ends with a rerun, the session is marked
    complete, its configuration holds credentials and a spreadsheet key, and
    the next run of [main] shows the main application. An uploaded file
    that parses is kept in the session even when the page reports an error
    for it; with such a file and a key typed in, pressing the button always
    ends with the rerun. When the page stays, the mark is as it was; and
    when the button was pressed, the last notice is the request to enter
    both. *)
Theorem settings_page_completes (rt : Runtime) (dict_of : pyval -> pyres pyval)
  (secrets : option Secrets) :
  (forall uploaded_file spreadsheet_key session_state next,
     show_settings_page rt dict_of secrets uploaded_file spreadsheet_key true
       session_state = SettingsRerun next ->
     main dict_of secrets next = MainApp
     /\ dict_get next (u "config_complete") = Some (PBool true)
     /\ dict_mem (get_config dict_of secrets next) (u "credentials") = true
     /\ dict_mem (get_config dict_of secrets next) (u "spreadsheet_key") = true)
  /\ (forall credentials spreadsheet_key session_state,
        truthy_str spreadsheet_key = true ->
        exists next,
          show_settings_page rt dict_of secrets (Some (Ok credentials))
            spreadsheet_key true session_state = SettingsRerun next
          /\ dict_get next (u "user_credentials") = Some credentials
          /\ dict_get next (u "user_spreadsheet_key") = Some (PStr spreadsheet_key))
  /\ (forall uploaded_file spreadsheet_key pressed session_state next notices,
        show_settings_page rt dict_of secrets uploaded_file spreadsheet_key
          pressed session_state = SettingsShown next notices ->
        dict_get next (u "config_complete")
        = dict_get session_state (u "config_complete")
        /\ (forall credentials, uploaded_file = Some (Ok credentials) ->
              dict_get next (u "user_credentials") = Some credentials)
        /\ (pressed = true ->
            exists earlier,
              notices
              = earlier ++
                [st_error (u "❌ credentials.json과 스프레드시트 키를 모두 입력해주세요.")])).
Proof.
  split; [|split].
  - intros uploaded_file spreadsheet_key session_state next.
    destruct (settings_session rt dict_of secrets uploaded_file spreadsheet_key
                true session_state) as (entered & notices & _ & _ & _ & ->).
    destruct (dict_mem (get_config dict_of secrets entered) (u "credentials")
              && dict_mem (get_config dict_of secrets entered) (u "spreadsheet_key"))
      eqn:E; [|discriminate].
    intros [= <-]. unfold main. cbv zeta.
    rewrite get_config_complete, E.
    apply andb_prop in E as [-> ->].
    repeat split. now rewrite dict_get_set, str_eqb_refl.
  - intros credentials spreadsheet_key session_state Hkey.
    destruct (settings_session rt dict_of secrets (Some (Ok credentials))
                spreadsheet_key true session_state)
      as (entered & notices & _ & Hu & Hk & ->).
    specialize (Hu credentials eq_refl). specialize (Hk Hkey).
    assert (E : dict_mem (get_config dict_of secrets entered) (u "credentials")
                && dict_mem (get_config dict_of secrets entered) (u "spreadsheet_key")
                = true).
    { unfold dict_mem.
      rewrite get_config_credentials, get_config_spreadsheet_key, Hu, Hk.
      destruct (dict_get (read_secrets dict_of secrets []) (u "credentials"));
        destruct (dict_get (read_secrets dict_of secrets []) (u "spreadsheet_key"));
        reflexivity. }
    rewrite E. eexists. split; [reflexivity|].
    rewrite !dict_get_set, key_complete_credentials, key_complete_spreadsheet.
    now split.
  - intros uploaded_file spreadsheet_key pressed session_state next notices.
    destruct (settings_session rt dict_of secrets uploaded_file spreadsheet_key
                pressed session_state) as (entered & ns & Hc & Hu & _ & ->).
    destruct pressed.
    + destruct (dict_mem (get_config dict_of secrets entered) (u "credentials")
                && dict_mem (get_config dict_of secrets entered) (u "spreadsheet_key"));
        [discriminate|].
      intros [= <- <-]. split; [exact Hc|]. split; [exact Hu|].
      intros _. now exists ns.
    + intros [= <- <-]. split; [exact Hc|]. split; [exact Hu|]. discriminate.
Qed.

Lemma settings_page_completes_witness :
  exists next,
    show_settings_page example_runtime example_dict None
      (Some (Ok (PList [PInt 1]))) (u "1eod1Z8sj3nWLmnlsGNP5Hb8gO9NKMaEPCY9rqE09TaI")
      true [] = SettingsRerun next
    /\ dict_get next (u "user_credentials") = Some (PList [PInt 1])
    /\ dict_get next (u "user_spreadsheet_key")
       = Some (PStr (u "1eod1Z8sj3nWLmnlsGNP5Hb8gO9NKMaEPCY9rqE09TaI")).
Proof.
  apply (proj1 (proj2 (settings_page_completes example_runtime example_dict None))).
  vm_compute. reflexivity.
Defined.

(** X19: the reset button of [main_app] ends the run with a rerun before the
    sheet is reached; in the session it leaves, the uploaded credentials and
    the typed key are gone, the mark is [False], and every other entry is as
    it was. The configuration is then what the secrets alone give, so the
    next run of [main] shows the settings page unless the secrets hold both
    entries, and always does without secrets. *)
Theorem main_app_reset (dict_of : pyval -> pyres pyval) (secrets : option Secrets)
  (open_by_key : pyval -> pyval -> pyres Spreadsheet) (retry_pressed : bool)
  (session_state : list (pystr * pyval)) :
  exists next,
    main_app_start dict_of secrets open_by_key true retry_pressed session_state
    = Restart next
    /\ dict_get next (u "user_credentials") = None
    /\ dict_get next (u "user_spreadsheet_key") = None
    /\ dict_get next (u "config_complete") = Some (PBool false)
    /\ (forall k, k <> u "user_credentials" -> k <> u "user_spreadsheet_key" ->
          k <> u "config_complete" -> dict_get next k = dict_get session_state k)
    /\ get_config dict_of secrets next = get_config dict_of secrets []
    /\ (main dict_of secrets next = MainApp
        <-> dict_mem (get_config dict_of secrets []) (u "credentials") = true
            /\ dict_mem (get_config dict_of secrets []) (u "spreadsheet_key") = true)
    /\ (secrets = None -> main dict_of secrets next = SettingsPage).
Proof.
  unfold main_app_start. cbv zeta.
  set (s1 := dict_set session_state (u "config_complete") (PBool false)).
  set (s2 := if dict_mem s1 (u "user_credentials")
             then dict_del s1 (u "user_credentials") else s1).
  set (s3 := if dict_mem s2 (u "user_spreadsheet_key")
             then dict_del s2 (u "user_spreadsheet_key") else s2).
  assert (G1 : forall k, dict_get s1 k
                         = if str_eqb (u "config_complete") k
                           then Some (PBool false) else dict_get session_state k)
    by (intros k; apply dict_get_set).
  assert (G2 : forall k, dict_get s2 k
                         = if str_eqb (u "user_credentials") k
                           then None else dict_get s1 k).
  { intros k. subst s2. unfold dict_mem.
    destruct (dict_get s1 (u "user_credentials")) eqn:E.
    - apply dict_get_del.
    - destruct (str_eqb (u "user_credentials") k) eqn:Ek; [|reflexivity].
      apply str_eqb_eq in Ek. now subst k. }
  assert (G3 : forall k, dict_get s3 k
                         = if str_eqb (u "user_spreadsheet_key") k
                           then None else dict_get s2 k).
  { intros k. subst s3. unfold dict_mem.
    destruct (dict_get s2 (u "user_spreadsheet_key")) eqn:E.
    - apply dict_get_del.
    - destruct (str_eqb (u "user_spreadsheet_key") k) eqn:Ek; [|reflexivity].
      apply str_eqb_eq in Ek. now subst k. }
  clearbody s1 s2 s3.
  assert (Hu : dict_get s3 (u "user_credentials") = None)
    by now rewrite G3, key_user_spreadsheet_credentials, G2, str_eqb_refl.
  assert (Hk : dict_get s3 (u "user_spreadsheet_key") = None)
    by now rewrite G3, str_eqb_refl.
  assert (Hc : dict_get s3 (u "config_complete") = Some (PBool false))
    by now rewrite G3, key_user_spreadsheet_complete, G2,
         key_user_credentials_complete, G1, str_eqb_refl.
  assert (Hcfg : get_config dict_of secrets s3 = get_config dict_of secrets [])
    by (apply get_config_ext; [exact Hu | exact Hk]).
  assert (Hmain : main dict_of secrets s3
                  = if dict_mem (get_config dict_of secrets []) (u "credentials")
                       && dict_mem (get_config dict_of secrets []) (u "spreadsheet_key")
                    then MainApp else SettingsPage).
  { unfold main. cbv zeta. rewrite Hcfg. unfold dict_get_default at 1.
    now rewrite Hc. }
  exists s3. split; [reflexivity|].
  split; [exact Hu|]. split; [exact Hk|]. split; [exact Hc|].
  split.
  { intros k H1 H2 H3. rewrite G3, G2, G1.
    rewrite (@str_eqb_neq (u "user_spreadsheet_key") k) by congruence.
    rewrite (@str_eqb_neq (u "user_credentials") k) by congruence.
    now rewrite (@str_eqb_neq (u "config_complete") k) by congruence. }
  split; [exact Hcfg|].
  split.
  { rewrite Hmain.
    destruct (dict_mem (get_config dict_of secrets []) (u "credentials"));
      destruct (dict_mem (get_config dict_of secrets []) (u "spreadsheet_key"));
      cbn [andb]; split; try discriminate; auto.
    - now intros [? ?].
    - now intros [? ?].
    - now intros [? ?]. }
  intros ->. rewrite Hmain. reflexivity.
Qed.

Lemma main_app_reset_witness :
  exists next,
    main_app_start example_dict None example_open true false
      ((u "config_complete", PBool true) :: example_session)
    = Restart next
    /\ main example_dict None next = SettingsPage.
Proof.
  destruct (main_app_reset example_dict None example_open false
              ((u "config_complete", PBool true) :: example_session))
    as (next & E & _ & _ & _ & _ & _ & _ & Hnone).
  exists next. split; [exact E | apply Hnone; reflexivity].
Defined.

(** ** The executor and the token issuer on the example network *)

Lemma execute_delay_dispatch_outcomes_witness :
  exists out,
    fst (run (scripted (fun _ => Ok not_found_404))
           (execute_delay_dispatch example_runtime (PStr (u "tok-owner")) (u "1001")
              (u "2025-12-31") (u "기타 사유")) start) = Ok out
    /\ success out = false.
Proof.
  pose proof (@execute_delay_dispatch_outcomes example_runtime nat
                (scripted (fun _ => Ok not_found_404))
                (PStr (u "tok-owner")) (u "1001") (u "2025-12-31") (u "기타 사유")
                start) as H.
  cbv zeta in H. destruct H as (out & E & _ & Hfail & _).
  exists out. split; [now rewrite E|].
  apply (Hfail not_found_404); [reflexivity | discriminate].
Defined.

Lemma get_access_token_outcomes_witness :
  fst (run (scripted marketplace)
         (get_access_token example_runtime (client_id mistyped_store)
            (client_secret mistyped_store)) start)
  = Err (mkExc (u "ValueError") (u "Invalid salt"))
  /\ sent (snd (run (scripted marketplace)
                  (get_access_token example_runtime (client_id mistyped_store)
                     (client_secret mistyped_store)) start))
     = sent start.
Proof.
  apply (proj1 (@get_access_token_outcomes example_runtime nat (scripted marketplace)
                  (client_id mistyped_store) (client_secret mistyped_store) start)).
  apply mistyped_store_unsigned.
Defined.
